(** * Tapify: the game-state engine of [Tapify.py]

    A shallow embedding of the game mechanics of [Tapify.py] (energy
    regeneration, tap admission, boosts, streaks, the tap handler and the
    leaderboard queries) together with the properties the specification
    states about them.

    Conventions of the embedding.
    - Wall-clock instants ([datetime], UTC) are integers counting
      microseconds, the resolution of [datetime]; [timedelta(seconds=k)] is
      [k * 1000000].  [int(td.total_seconds())] truncates toward zero and is
      [Z.quot _ 1000000] (the float it goes through is taken as exact).
    - Calendar dates ([date]) are day numbers; [db_date_utc] is the day of
      the instant.
    - [time.monotonic()] readings are integers counting nanoseconds;
      [RATE_WINDOW_SEC = 1.0] is [10^9] of them.
    - A column that the code reads through [row.get(...)] is an [option]:
      [None] stands for SQL NULL and, for the textual date columns of the
      SQLite schema, also for a string that [fromisoformat] rejects (the
      code maps both to the same fallback).
    - Every handler reads the clock several times ([db_now()]); one request
      is modelled at one instant [now], except where a property depends on
      the readings being apart: [api_tap_clocked] keeps the readings of a
      tap separate.
    - ORDER BY leaves the order of rows with equal scores to the database;
      [leaderboard] fixes one such order, [leaderboard_answer] admits
      them all.
    - Ids and amounts typed by a user are unbounded integers; a statement
      given one outside signed 64 bits fails, and writes nothing. *)

From Stdlib Require Import ZArith List Bool Lia Ascii String.
From stdpp Require Import base gmap strings list sorting.

Local Open Scope Z_scope.

(** ** Rows of the persistent tables *)

(** A row of [game_users]. *)
Record game_user := GameUser {
  coins : option Z;
  energy : option Z;
  max_energy : option Z;
  energy_updated_at : option Z;
  multitap_until : option Z;
  autotap_until : option Z;
  regen_rate_seconds : option Z;
  last_tap_at : option Z;
  daily_streak : option Z;
  last_streak_at : option Z
}.

(** [int(x or d)]: NULL and 0 are both falsy and give the default. *)
Definition int_or (x : option Z) (d : Z) : Z :=
  match x with
  | Some v => if v =? 0 then d else v
  | None => d
  end.

Definition usec : Z := 1000000.
Definition timedelta_seconds (k : Z) : Z := k * usec.
Definition timedelta_minutes (k : Z) : Z := timedelta_seconds (60 * k).
Definition timedelta_days (k : Z) : Z := timedelta_seconds (86400 * k).

(** [int((now - last).total_seconds())] *)
Definition total_seconds_int (d : Z) : Z := Z.quot d usec.

(** ** Energy regeneration: [compute_energy] *)

Definition compute_energy (now : Z) (user_row : game_user) : Z * Z :=
  let max_energy := int_or (max_energy user_row) 500 in
  let regen_rate_seconds := int_or (regen_rate_seconds user_row) 3 in
  let last := match energy_updated_at user_row with
              | Some raw => raw
              | None => now
              end in
  let stored_energy := int_or (energy user_row) 0 in
  let elapsed := total_seconds_int (now - last) in
  let regen := elapsed / Z.max 1 regen_rate_seconds in
  let energy := Z.min max_energy (stored_energy + regen) in
  let last := if 0 <? regen
              then last + timedelta_seconds (regen * regen_rate_seconds)
              else last in
  (energy, last).

(** [update_game_user_fields(chat_id, {"energy": e, "energy_updated_at": ts})]
    on one row. *)
Definition set_energy (e ts : Z) (gu : game_user) : game_user :=
  {| coins := coins gu; energy := Some e; max_energy := max_energy gu;
     energy_updated_at := Some ts; multitap_until := multitap_until gu;
     autotap_until := autotap_until gu;
     regen_rate_seconds := regen_rate_seconds gu;
     last_tap_at := last_tap_at gu; daily_streak := daily_streak gu;
     last_streak_at := last_streak_at gu |}.

(** The reference definition of the specification (section 4.1), written
    from its words: whole intervals of [rate] seconds that fit in the
    elapsed time, the capped energy, and the checkpoint advanced by the
    intervals that were credited. *)
Definition spec_gained (now checkpoint rate : Z) : Z :=
  (now - checkpoint) / (rate * usec).

Definition spec_regenerate (now checkpoint rate cap stored : Z) : Z * Z :=
  let gained := spec_gained now checkpoint rate in
  (Z.min cap (stored + gained),
   if 0 <? gained then checkpoint + gained * rate * usec else checkpoint).

(** ** Admission control: the rate window and the nonce cache *)

Definition MAX_TAPS_PER_SEC : nat := 20.
Definition RATE_WINDOW_SEC : Z := 1000000000.

(** [while dq and now - dq[0] > RATE_WINDOW_SEC: dq.popleft()] *)
Fixpoint evict_old (now : Z) (dq : list Z) : list Z :=
  match dq with
  | x :: rest => if RATE_WINDOW_SEC <? now - x then evict_old now rest else dq
  | [] => []
  end.

(** [deque(maxlen=n).append(x)]: a full deque drops from the left. *)
Definition deque_append (maxlen : nat) (dq : list Z) (x : Z) : list Z :=
  let dq' := dq ++ [x] in drop (length dq' - maxlen)%nat dq'.

(** The body of [can_tap_now] on the deque of one account. *)
Definition rate_step (now : Z) (dq : list Z) : bool * list Z :=
  let dq := evict_old now dq in
  if decide (MAX_TAPS_PER_SEC ≤ length dq)%nat then (false, dq)
  else (true, deque_append (MAX_TAPS_PER_SEC * 3) dq now).

(** [_rate_windows] and [_recent_nonces] are [defaultdict]s: a key that was
    never written reads as the empty deque, respectively the empty set. *)
Definition window_of (chat_id : Z) (rw : gmap Z (list Z)) : list Z :=
  default [] (rw !! chat_id).

Definition nonces_of (chat_id : Z) (rn : gmap Z (gset string)) : gset string :=
  default ∅ (rn !! chat_id).

Definition can_tap_now (now : Z) (chat_id : Z) (rw : gmap Z (list Z))
  : bool * gmap Z (list Z) :=
  let r := rate_step now (window_of chat_id rw) in
  (r.1, <[chat_id := r.2]> rw).

(** The order in which a Python [set] of strings is iterated is not fixed by
    the language; [list(s)] is some enumeration of the elements of [s]. *)
Record set_listing := SetListing {
  to_list : gset string → list string;
  to_list_perm : ∀ s, to_list s ≡ₚ elements s
}.

(** [l[-n:]] *)
Definition last_n {A} (n : nat) (l : list A) : list A :=
  drop (length l - n)%nat l.

Definition _clean_old_nonces (ord : set_listing) (chat_id : Z)
    (rn : gmap Z (gset string)) : gmap Z (gset string) :=
  let s := nonces_of chat_id rn in
  if decide (200 < size s)%nat
  then <[chat_id := list_to_set (last_n 100 (to_list ord s))]> rn
  else rn.

(** ** Streaks and boosts *)

(** [db_date_utc()] at instant [now]. *)
Definition date_of (now : Z) : Z := now / timedelta_days 1.

Definition streak_update (today : Z) (gu : game_user) (tapped_today : bool)
  : Z * Z :=
  let last_date := last_streak_at gu in
  let streak := int_or (daily_streak gu) 0 in
  if negb tapped_today then (streak, default today last_date)
  else if decide (last_date = Some (today - 1)) then (streak + 1, today)
  else if decide (last_date = Some today) then (streak, today)
  else (1, today).

Definition boost_multiplier (now : Z) (gu : game_user) : Z :=
  let mult := 1 in
  let mult := match multitap_until gu with
              | Some mt => if now <? mt then Z.max mult 2 else mult
              | None => mult
              end in
  let mult := match autotap_until gu with
              | Some at_ => if now <? at_ then Z.max mult 2 else mult
              | None => mult
              end in
  mult.

(** ** The store *)

(** A row of [users]. *)
Record user := User {
  username : option string;
  payment_status : option string;
  invites : option Z
}.

(** A row of [game_taps]. *)
Record tap := Tap {
  tap_chat_id : Z;
  tap_ts : Z;
  tap_delta : Z;
  tap_nonce : string
}.

(** The database tables and the two process-local dictionaries. *)
Record state := State {
  users : gmap Z user;
  game_users : gmap Z game_user;
  game_taps : list tap;
  _rate_windows : gmap Z (list Z);
  _recent_nonces : gmap Z (gset string)
}.

Definition set_users (u : gmap Z user) (st : state) : state :=
  {| users := u; game_users := game_users st; game_taps := game_taps st;
     _rate_windows := _rate_windows st; _recent_nonces := _recent_nonces st |}.

Definition set_game_users (g : gmap Z game_user) (st : state) : state :=
  {| users := users st; game_users := g; game_taps := game_taps st;
     _rate_windows := _rate_windows st; _recent_nonces := _recent_nonces st |}.

Definition set_game_taps (t : list tap) (st : state) : state :=
  {| users := users st; game_users := game_users st; game_taps := t;
     _rate_windows := _rate_windows st; _recent_nonces := _recent_nonces st |}.

Definition set_rate_windows (rw : gmap Z (list Z)) (st : state) : state :=
  {| users := users st; game_users := game_users st; game_taps := game_taps st;
     _rate_windows := rw; _recent_nonces := _recent_nonces st |}.

Definition set_recent_nonces (rn : gmap Z (gset string)) (st : state) : state :=
  {| users := users st; game_users := game_users st; game_taps := game_taps st;
     _rate_windows := _rate_windows st; _recent_nonces := rn |}.

(** The row [upsert_user_if_missing] inserts into [game_users]. *)
Definition new_game_user (now : Z) : game_user :=
  {| coins := Some 0; energy := Some 500; max_energy := Some 500;
     energy_updated_at := Some now; multitap_until := None;
     autotap_until := None; regen_rate_seconds := Some 3;
     last_tap_at := None; daily_streak := Some 0; last_streak_at := None |}.

(** [{}], what [get_game_user] returns when the row cannot be read. *)
Definition empty_game_user : game_user :=
  {| coins := None; energy := None; max_energy := None;
     energy_updated_at := None; multitap_until := None;
     autotap_until := None; regen_rate_seconds := None;
     last_tap_at := None; daily_streak := None; last_streak_at := None |}.

Definition upsert_user_if_missing (chat_id : Z) (name : option string)
    (now : Z) (st : state) : state :=
  let st := match users st !! chat_id with
            | Some _ => st
            | None =>
                set_users (<[chat_id := {| username := name;
                                           payment_status := None;
                                           invites := Some 0 |}]> (users st)) st
            end in
  match game_users st !! chat_id with
  | Some _ => st
  | None => set_game_users (<[chat_id := new_game_user now]> (game_users st)) st
  end.

(** ASCII lower-casing, enough to decide [s.lower() == "registered"]. *)
Definition lower_ascii (c : ascii) : ascii :=
  let n := nat_of_ascii c in
  if ((65 <=? n) && (n <=? 90))%nat then ascii_of_nat (n + 32) else c.

Fixpoint lower (s : string) : string :=
  match s with
  | EmptyString => EmptyString
  | String c r => String (lower_ascii c) (lower r)
  end.

Definition is_registered (chat_id : Z) (st : state) : bool :=
  match users st !! chat_id with
  | None => false
  | Some row => bool_decide (lower (default "" (payment_status row)) = "registered")
  end.

Definition get_game_user (chat_id : Z) (now : Z) (st : state)
  : game_user * state :=
  match game_users st !! chat_id with
  | Some row => (row, st)
  | None =>
      let st := upsert_user_if_missing chat_id None now st in
      (default empty_game_user (game_users st !! chat_id), st)
  end.

(** [update_game_user_fields]: an UPDATE of the row of [chat_id], if any. *)
Definition update_game_user_fields (chat_id : Z) (f : game_user → game_user)
    (st : state) : state :=
  set_game_users (alter f chat_id (game_users st)) st.

Definition set_coins (c : Z) (gu : game_user) : game_user :=
  {| coins := Some c; energy := energy gu; max_energy := max_energy gu;
     energy_updated_at := energy_updated_at gu;
     multitap_until := multitap_until gu; autotap_until := autotap_until gu;
     regen_rate_seconds := regen_rate_seconds gu;
     last_tap_at := last_tap_at gu; daily_streak := daily_streak gu;
     last_streak_at := last_streak_at gu |}.

Definition set_max_energy (m : Z) (gu : game_user) : game_user :=
  {| coins := coins gu; energy := energy gu; max_energy := Some m;
     energy_updated_at := energy_updated_at gu;
     multitap_until := multitap_until gu; autotap_until := autotap_until gu;
     regen_rate_seconds := regen_rate_seconds gu;
     last_tap_at := last_tap_at gu; daily_streak := daily_streak gu;
     last_streak_at := last_streak_at gu |}.

Definition set_multitap_until (t : Z) (gu : game_user) : game_user :=
  {| coins := coins gu; energy := energy gu; max_energy := max_energy gu;
     energy_updated_at := energy_updated_at gu;
     multitap_until := Some t; autotap_until := autotap_until gu;
     regen_rate_seconds := regen_rate_seconds gu;
     last_tap_at := last_tap_at gu; daily_streak := daily_streak gu;
     last_streak_at := last_streak_at gu |}.

Definition set_autotap_until (t : Z) (gu : game_user) : game_user :=
  {| coins := coins gu; energy := energy gu; max_energy := max_energy gu;
     energy_updated_at := energy_updated_at gu;
     multitap_until := multitap_until gu; autotap_until := Some t;
     regen_rate_seconds := regen_rate_seconds gu;
     last_tap_at := last_tap_at gu; daily_streak := daily_streak gu;
     last_streak_at := last_streak_at gu |}.

Definition set_last_tap_at (t : Z) (gu : game_user) : game_user :=
  {| coins := coins gu; energy := energy gu; max_energy := max_energy gu;
     energy_updated_at := energy_updated_at gu;
     multitap_until := multitap_until gu; autotap_until := autotap_until gu;
     regen_rate_seconds := regen_rate_seconds gu;
     last_tap_at := Some t; daily_streak := daily_streak gu;
     last_streak_at := last_streak_at gu |}.

Definition set_streak (s d : Z) (gu : game_user) : game_user :=
  {| coins := coins gu; energy := energy gu; max_energy := max_energy gu;
     energy_updated_at := energy_updated_at gu;
     multitap_until := multitap_until gu; autotap_until := autotap_until gu;
     regen_rate_seconds := regen_rate_seconds gu;
     last_tap_at := last_tap_at gu; daily_streak := Some s;
     last_streak_at := Some d |}.

(** [add_tap]: one INSERT into [game_taps], then
    [UPDATE game_users SET coins=COALESCE(coins,0)+delta, last_tap_at=now]. *)
Definition add_tap (chat_id delta : Z) (nonce : string) (now : Z)
    (st : state) : state :=
  let st := set_game_taps (game_taps st ++
              [{| tap_chat_id := chat_id; tap_ts := now;
                  tap_delta := delta; tap_nonce := nonce |}]) st in
  update_game_user_fields chat_id
    (λ gu, set_last_tap_at now (set_coins (default 0 (coins gu) + delta) gu)) st.

(** ** Boost activation: [activate_boost] *)

Definition activate_boost (chat_id : Z) (boost : string) (now : Z)
    (st : state) : (bool * string) * state :=
  let '(gu, st) := get_game_user chat_id now st in
  let coins := int_or (coins gu) 0 in
  let timed (cost : Z) (field : Z → game_user → game_user) (duration : Z) :=
    if coins <? cost then ((false, "Not enough coins"), st)
    else ((true, boost +:+ " activated!"),
          update_game_user_fields chat_id
            (λ r, field (now + duration) (set_coins (coins - cost) r)) st) in
  if decide (boost = "multitap")
  then timed 1000 set_multitap_until (timedelta_minutes 15)
  else if decide (boost = "autotap")
  then timed 3000 set_autotap_until (timedelta_minutes 10)
  else if decide (boost = "maxenergy") then
    let cost := 2500 in
    if coins <? cost then ((false, "Not enough coins"), st)
    else ((true, "Max energy increased by +100!"),
          update_game_user_fields chat_id
            (λ r, set_max_energy (int_or (max_energy gu) 500 + 100)
                    (set_coins (coins - cost) r)) st)
  else ((false, "Unknown boost"), st).

(** ** The request handlers *)

(** The JSON object a handler answers with; a key that is absent is [None].
    The rejections of the specification are the [error] strings of the
    code: RateLimited is "Rate limited", InvalidNonce is "Bad nonce",
    ReplayRejected is "Replay blocked", NoEnergy is "No energy",
    InsufficientFunds is "Not enough coins", UnknownBoost is
    "Unknown boost". *)
Record response := Response {
  ok : bool;
  error : option string;
  r_coins : option Z;
  r_energy : option Z;
  r_max_energy : option Z;
  r_daily_streak : option Z
}.

Definition failure (msg : string) : response :=
  {| ok := false; error := Some msg; r_coins := None; r_energy := None;
     r_max_energy := None; r_daily_streak := None |}.

(** [auth] is the outcome of [verify_init_data]: the verified user id, or
    [None] when the signature check fails. *)
Definition api_state (auth : option Z) (now : Z) (st : state)
  : response * state :=
  match auth with
  | None => (failure "Invalid auth", st)
  | Some chat_id =>
      if negb (is_registered chat_id st) then (failure "Not registered", st)
      else
        let '(gu, st) := get_game_user chat_id now st in
        let '(energy, energy_ts) := compute_energy now gu in
        let out := {| ok := true; error := None;
                      r_coins := Some (int_or (coins gu) 0);
                      r_energy := Some energy;
                      r_max_energy := Some (int_or (max_energy gu) 500);
                      r_daily_streak := Some (int_or (daily_streak gu) 0) |} in
        (out, update_game_user_fields chat_id (set_energy energy energy_ts) st)
  end.

Definition api_boost (auth : option Z) (name : string) (now : Z) (st : state)
  : response * state :=
  match auth with
  | None => (failure "Invalid auth", st)
  | Some chat_id =>
      if negb (is_registered chat_id st) then (failure "Not registered", st)
      else
        let '((ok, msg), st) := activate_boost chat_id name now st in
        ({| ok := ok; error := if ok then None else Some msg;
            r_coins := None; r_energy := None; r_max_energy := None;
            r_daily_streak := None |}, st)
  end.

(** The second half of [api_tap], from [gu = get_game_user(chat_id)] on:
    the tap applied once the admission gates are passed. *)
Definition tap_apply (chat_id : Z) (nonce : string) (now : Z) (st : state)
  : response * state :=
  let '(gu, st) := get_game_user chat_id now st in
  let '(energy, energy_ts) := compute_energy now gu in
  if energy <? 1
  then ({| ok := false; error := Some "No energy";
           r_coins := Some (int_or (coins gu) 0);
           r_energy := Some energy;
           r_max_energy := Some (int_or (max_energy gu) 500);
           r_daily_streak := None |}, st)
  else
    let mult := boost_multiplier now gu in
    let delta := 1 * mult in
    let st := add_tap chat_id delta nonce now st in
    let st := update_game_user_fields chat_id
                (set_energy (energy - 1) energy_ts) st in
    let '(new_streak, streak_date) := streak_update (date_of now) gu true in
    let st := update_game_user_fields chat_id
                (set_streak new_streak streak_date) st in
    let '(gu2, st) := get_game_user chat_id now st in
    let '(energy2, _) := compute_energy now gu2 in
    ({| ok := true; error := None;
        r_coins := Some (int_or (coins gu2) 0);
        r_energy := Some energy2;
        r_max_energy := Some (int_or (max_energy gu2) 500);
        r_daily_streak := None |}, st).

(** [not nonce or len(nonce) > 200] *)
Definition bad_nonce (nonce : string) : bool :=
  bool_decide (nonce = "") || (200 <? String.length nonce)%nat.

(** [_recent_nonces[chat_id].add(nonce)] *)
Definition add_nonce (chat_id : Z) (nonce : string)
    (rn : gmap Z (gset string)) : gmap Z (gset string) :=
  <[chat_id := {[nonce]} ∪ nonces_of chat_id rn]> rn.

(** [api_tap]: the gates in the order of the code, then [tap_apply].
    [mono] is the reading of [time.monotonic()] taken by [can_tap_now],
    [now] the wall-clock instant of the request. *)
Definition api_tap (ord : set_listing) (auth : option Z) (nonce : string)
    (mono now : Z) (st : state) : response * state :=
  match auth with
  | None => (failure "Invalid auth", st)
  | Some chat_id =>
      if negb (is_registered chat_id st) then (failure "Not registered", st)
      else
        let '(allowed, rw) := can_tap_now mono chat_id (_rate_windows st) in
        let st := set_rate_windows rw st in
        if negb allowed then (failure "Rate limited", st)
        else if bad_nonce nonce then (failure "Bad nonce", st)
        else if bool_decide (nonce ∈ nonces_of chat_id (_recent_nonces st))
        then (failure "Replay blocked", st)
        else
          let st := set_recent_nonces
                      (_clean_old_nonces ord chat_id
                         (add_nonce chat_id nonce (_recent_nonces st))) st in
          tap_apply chat_id nonce now st
  end.

(** ** The leaderboard queries *)

(** A row of a leaderboard result: [username], [chat_id], [score]. *)
Record lb_row := LbRow {
  lb_username : option string;
  lb_chat_id : Z;
  lb_score : option Z
}.

(** [ORDER BY score DESC]: larger scores first.  A NULL score sorts after
    every number in SQLite and before every number in Postgres
    ([pg = true]). *)
Definition score_ge (pg : bool) (a b : option Z) : Prop :=
  match a, b with
  | Some x, Some y => y ≤ x
  | None, Some _ => pg = true
  | Some _, None => pg = false
  | None, None => True
  end.

Definition row_ge (pg : bool) (r1 r2 : lb_row) : Prop :=
  score_ge pg (lb_score r1) (lb_score r2).

Global Instance score_ge_dec pg a b : Decision (score_ge pg a b).
Proof. destruct a, b; simpl; apply _. Defined.

Global Instance row_ge_dec pg r1 r2 : Decision (row_ge pg r1 r2).
Proof. unfold row_ge. apply _. Defined.

(** [LEFT JOIN users u ON u.chat_id = ...]: the user name, NULL without a
    matching row. *)
Definition username_of (chat_id : Z) (st : state) : option string :=
  users st !! chat_id ≫= username.

(** [SUM(t.delta)] over the rows of one account. *)
Definition sum_delta (chat_id : Z) (taps : list tap) : Z :=
  foldr Z.add 0
    (tap_delta <$> List.filter (λ t, tap_chat_id t =? chat_id) taps).

(** [WHERE t.ts >= since] *)
Definition taps_since (since : Z) (taps : list tap) : list tap :=
  List.filter (λ t, since <=? tap_ts t) taps.

(** [leaderboard(range_, limit)] at instant [now]; [pg] is [USE_POSTGRES].
    The order among equal scores is whatever the sort leaves; SQL does not
    fix it. *)
Definition leaderboard (pg : bool) (range_ : string) (limit : nat) (now : Z)
    (st : state) : list lb_row :=
  if decide (range_ = "all") then
    take limit (merge_sort (row_ge pg)
      ((λ kv, {| lb_username := username_of kv.1 st; lb_chat_id := kv.1;
                 lb_score := coins kv.2 |}) <$> map_to_list (game_users st)))
  else
    let since := if decide (range_ = "day") then now - timedelta_days 1
                 else now - timedelta_days 7 in
    let rows := taps_since since (game_taps st) in
    take limit (merge_sort (row_ge pg)
      ((λ c, {| lb_username := username_of c st; lb_chat_id := c;
                lb_score := Some (sum_delta c rows) |})
         <$> remove_dups (tap_chat_id <$> rows))).

Definition api_leaderboard (pg : bool) (rng : option string) (now : Z)
    (st : state) : list lb_row :=
  let rng := default "all" rng in
  let rng := if bool_decide (rng ∈ ["day"; "week"; "all"]) then rng
             else "all" in
  leaderboard pg rng 50 now st.

(** ** Notions used to state the properties *)

(** The words of the specification for the Boost Ledger: a time-limited
    boost is active while its expiry is strictly after [now], an active
    boost grants the multiplier 2, and an inactive one leaves the base
    multiplier 1. *)
Definition boost_active (now : Z) (until : option Z) : bool :=
  match until with
  | Some u => now <? u
  | None => false
  end.

Definition granted_multiplier (now : Z) (until : option Z) : Z :=
  if boost_active now until then 2 else 1.

(** The row of [game_users] after an accepted tap of the account that had
    the row [gu]: what [add_tap] and the two updates of [api_tap] write. *)
Definition tapped_row (now : Z) (gu : game_user) : game_user :=
  let r := compute_energy now gu in
  let s := streak_update (date_of now) gu true in
  set_streak s.1 s.2
    (set_energy (r.1 - 1) r.2
       (set_last_tap_at now
          (set_coins (default 0 (coins gu) + 1 * boost_multiplier now gu) gu))).

(** The "No energy" answer for the row [gu] at instant [now]. *)
Definition no_energy_response (now : Z) (gu : game_user) : response :=
  {| ok := false; error := Some "No energy";
     r_coins := Some (int_or (coins gu) 0);
     r_energy := Some (compute_energy now gu).1;
     r_max_energy := Some (int_or (max_energy gu) 500);
     r_daily_streak := None |}.

(** The price of a boost, for the names [activate_boost] knows. *)
Definition boost_cost (boost : string) : option Z :=
  if decide (boost = "multitap") then Some 1000
  else if decide (boost = "autotap") then Some 3000
  else if decide (boost = "maxenergy") then Some 2500
  else None.




(** The invariant of the data model on one row, at instant [now]: the
    energy lies between 0 and the maximum and the checkpoint is not in the
    future. *)
Definition row_ok (now : Z) (gu : game_user) : Prop :=
  0 ≤ int_or (energy gu) 0 ≤ int_or (max_energy gu) 500
  ∧ ∃ last, energy_updated_at gu = Some last ∧ last ≤ now.

(** ** Runs of the rate limiter *)

(** The calls [can_tap_now(chat_id)] of a run, each with the reading of the
    monotonic clock it takes: the answers in order, the store at the end,
    and the readings of the accepted calls of one account. *)
Fixpoint run_outcomes (calls : list (Z * Z)) (rw : gmap Z (list Z))
  : list bool :=
  match calls with
  | [] => []
  | (c, t) :: rest =>
      let r := can_tap_now t c rw in r.1 :: run_outcomes rest r.2
  end.

Fixpoint run_store (calls : list (Z * Z)) (rw : gmap Z (list Z))
  : gmap Z (list Z) :=
  match calls with
  | [] => rw
  | (c, t) :: rest => run_store rest (can_tap_now t c rw).2
  end.

Fixpoint accepted_taps (chat_id : Z) (calls : list (Z * Z))
    (rw : gmap Z (list Z)) : list Z :=
  match calls with
  | [] => []
  | (c, t) :: rest =>
      let r := can_tap_now t c rw in
      (if r.1 && bool_decide (c = chat_id) then [t] else [])
        ++ accepted_taps chat_id rest r.2
  end.

(** The readings that lie in the window of one second that starts at
    [t0]. *)
Definition in_window (t0 a : Z) : bool :=
  (t0 <=? a) && (a <=? t0 + RATE_WINDOW_SEC).

Definition taps_in_window (t0 : Z) (l : list Z) : nat :=
  length (List.filter (in_window t0) l).

(** What the deque of an account records about the taps accepted so far
    ([hist]), when the clock last read [tprev]: it is the end of the
    history, everything before it has left the window for good, and no
    window of one second holds more than 20 accepted taps. *)
Definition window_inv (tprev : Z) (hist dq : list Z) : Prop :=
  (∃ old, hist = old ++ dq ∧ Forall (λ a, RATE_WINDOW_SEC < tprev - a) old)
  ∧ Forall (λ a, a ≤ tprev) dq
  ∧ StronglySorted Z.le dq
  ∧ ∀ t0, (taps_in_window t0 hist ≤ MAX_TAPS_PER_SEC)%nat.

(** ** Enumerations of a nonce cache *)

(** The enumeration of a set in the order of [elements]. *)
Definition elements_listing : set_listing :=
  {| to_list := elements; to_list_perm := λ s, reflexivity (elements s) |}.

(** An enumeration that lists [n] first whenever [n] is in the set. *)
Definition front_listing (n : string) : set_listing.
Proof.
  refine {| to_list := λ s, if decide (n ∈ s)
                            then n :: elements (s ∖ {[n]})
                            else elements s |}.
  intros s. destruct (decide (n ∈ s)) as [Hin|Hout]; [|reflexivity].
  rewrite <- elements_union_singleton by set_solver.
  rewrite <- union_difference_singleton_L by done. reflexivity.
Defined.

(** ** Example accounts and stores *)

(** The account of the regeneration example of the specification: energy
    10 of 500, one unit per 3 seconds, checkpoint [T]. *)
Definition regen_example (T : Z) : game_user :=
  set_energy 10 T (new_game_user T).

(** An account with no energy left whose checkpoint is 7 seconds ahead of
    the clock, and a store in which it is registered under id 7. *)
Definition future_checkpoint_user (now : Z) : game_user :=
  set_energy 0 (now + timedelta_seconds 7) (new_game_user now).

Definition future_checkpoint_state (now : Z) : state :=
  {| users := {[ 7 := {| username := Some "alice";
                         payment_status := Some "registered";
                         invites := Some 0 |} ]};
     game_users := {[ 7 := future_checkpoint_user now ]};
     game_taps := [];
     _rate_windows := ∅;
     _recent_nonces := ∅ |}.

(** Two registered players, 7 and 8; player 7 has a fresh account row
    created at [T] and 5000 coins, player 8 has no row in [game_users]
    yet. *)
Definition registered_user (name : string) : user :=
  {| username := Some name; payment_status := Some "registered";
     invites := Some 0 |}.

Definition two_player_state (T : Z) : state :=
  {| users := <[7 := registered_user "alice"]>
                {[ 8 := registered_user "bob" ]};
     game_users := {[ 7 := set_coins 5000 (new_game_user T) ]};
     game_taps := [];
     _rate_windows := ∅;
     _recent_nonces := ∅ |}.

(** Player 7 of [two_player_state] with no energy left. *)
Definition exhausted_state (T : Z) : state :=
  set_game_users {[ 7 := set_energy 0 T (new_game_user T) ]}
    (two_player_state T).

(** 256 distinct two-letter nonces, and a cache holding the first 200. *)
Definition sample_nonce (n : nat) : string :=
  String (ascii_of_nat (65 + n / 16))
    (String (ascii_of_nat (65 + n mod 16)) EmptyString).

Definition sample_cache : gset string :=
  list_to_set (sample_nonce <$> seq 0 200).

(** The store of [two_player_state] after player 7 tapped with nonce
    "abc", and a store with one tap of two days ago and one of now. *)
Definition after_first_tap (T : Z) : state :=
  (api_tap elements_listing (Some 7) "abc" 5 T (two_player_state T)).2.

Definition old_and_new_taps (T : Z) : state :=
  add_tap 8 1 "new" T
    (add_tap 7 1 "old" (T - timedelta_days 2)
       (upsert_user_if_missing 8 None T (two_player_state T))).

(** ** The bot commands and the referral table *)

(** The store of the engine together with the table [game_referrals]:
    one row per pair (referrer, referee), holding [created_at]. *)
Record bot_state := BotState {
  engine : state;
  game_referrals : gmap (Z * Z) Z
}.

(** The integers of a BIGINT column, which are also the integers the
    sqlite3 driver can bind as a parameter of a statement: signed 64
    bits.  The commands below take ids and amounts from text typed by a
    user, which Python's [int] turns into integers of any size. *)
Definition in_int64 (z : Z) : bool := (- 2 ^ 63 <=? z) && (z <? 2 ^ 63).

(** [UPDATE users SET invites=COALESCE(invites,0)+1] on one row. *)
Definition add_invite (u : user) : user :=
  {| username := username u; payment_status := payment_status u;
     invites := Some (default 0 (invites u) + 1) |}.

(** With an id outside 64 bits the first statement that carries it
    raises (sqlite3 cannot bind it) and nothing is written; [cmd_start],
    the only caller, discards the exception, so the call leaves the
    tables as they were. *)
Definition add_referral_if_absent (referrer referee : Z) (now : Z)
    (b : bot_state) : bot_state :=
  if bool_decide (referrer = referee) || (referee <=? 0) then b
  else if negb (in_int64 referrer && in_int64 referee) then b
  else
    match game_referrals b !! (referrer, referee) with
    | Some _ => b
    | None =>
        {| engine := set_users (alter add_invite referrer (users (engine b)))
                       (engine b);
           game_referrals := <[(referrer, referee) := now]> (game_referrals b) |}
    end.

(** [s[n:]] *)
Definition string_drop (n : nat) (s : string) : string :=
  String.substring n (String.length s - n) s.

(** The effect of [cmd_start] on the store (its reply is the same welcome
    text in every case).  [uname] is [user.username], [args] is
    [context.args], and [parse_int] stands for Python's [int] on a string,
    [None] where it raises. *)
Definition cmd_start (parse_int : string → option Z) (chat_id : Z)
    (uname : option string) (args : list string) (now : Z) (b : bot_state)
  : bot_state :=
  let username := default "" uname in
  let b := {| engine := upsert_user_if_missing chat_id (Some username) now
                          (engine b);
              game_referrals := game_referrals b |} in
  match args with
  | a :: _ =>
      if String.prefix "ref_" a then
        match parse_int (string_drop 4 a) with
        | Some referrer => add_referral_if_absent referrer chat_id now b
        | None => b
        end
      else b
  | [] => b
  end.

(** [_is_admin]: [caller] is [update.effective_user.id], if there is a
    user. *)
Definition _is_admin (ADMIN_ID : Z) (caller : option Z) : bool :=
  match caller with
  | Some id => bool_decide (id = ADMIN_ID)
  | None => false
  end.

(** The admin commands: the reply, if any, and the store.  When a
    statement is given an integer outside 64 bits the sqlite3 driver
    raises [OverflowError] while binding it: the handler ends there,
    without a reply, and the statement writes nothing. *)
Definition cmd_setcoins (parse_int : string → option Z) (ADMIN_ID : Z)
    (caller : option Z) (args : list string) (st : state)
  : option string * state :=
  if negb (_is_admin ADMIN_ID caller) then (None, st)
  else
    match args with
    | a0 :: a1 :: _ =>
        match parse_int a0, parse_int a1 with
        | Some cid, Some amount =>
            if in_int64 cid && in_int64 amount
            then (Some "OK",
                  update_game_user_fields cid (set_coins amount) st)
            else (None, st)
        | _, _ => (Some "Invalid numbers.", st)
        end
    | _ => (Some "Usage: /setcoins <chat_id> <amount>", st)
    end.

Definition cmd_addcoins (parse_int : string → option Z) (ADMIN_ID : Z)
    (caller : option Z) (args : list string) (now : Z) (st : state)
  : option string * state :=
  if negb (_is_admin ADMIN_ID caller) then (None, st)
  else
    match args with
    | a0 :: a1 :: _ =>
        match parse_int a0, parse_int a1 with
        | Some cid, Some delta =>
            if negb (in_int64 cid) then (None, st)
            else
              let '(gu, st) := get_game_user cid now st in
              let coins := int_or (coins gu) 0 + delta in
              if negb (in_int64 coins) then (None, st)
              else (Some "OK",
                    update_game_user_fields cid (set_coins coins) st)
        | _, _ => (Some "Invalid numbers.", st)
        end
    | _ => (Some "Usage: /addcoins <chat_id> <delta>", st)
    end.

(** The figures [cmd_me] prints: coins, energy, maximum and streak. *)
Definition cmd_me (chat_id : Z) (now : Z) (st : state)
  : (Z * Z * Z * Z) * state :=
  let '(gu, st) := get_game_user chat_id now st in
  let '(energy, _) := compute_energy now gu in
  ((int_or (coins gu) 0, energy, int_or (max_energy gu) 500,
    int_or (daily_streak gu) 0), st).

(** The rows [cmd_leaderboard] prints. *)
Definition cmd_leaderboard (pg : bool) (now : Z) (st : state) : list lb_row :=
  leaderboard pg "all" 10 now st.

(** ** Ledgers and runs of requests *)

(** The coins of an account, 0 without a row or with a NULL balance, and
    the total [delta] of its rows in [game_taps]. *)
Definition coins_of (chat_id : Z) (st : state) : Z :=
  default 0 (game_users st !! chat_id ≫= coins).

Definition tap_total (chat_id : Z) (st : state) : Z :=
  sum_delta chat_id (game_taps st).

(** The invites of a user, and the number of referral rows of a
    referrer. *)
Definition invites_of (chat_id : Z) (b : bot_state) : Z :=
  default 0 (users (engine b) !! chat_id ≫= invites).

Definition referrals_of (referrer : Z) (b : bot_state) : nat :=
  size (filter (λ kv : (Z * Z) * Z, kv.1.1 = referrer) (game_referrals b)).

(** A request to one of the three POST handlers, with the clock readings
    it takes. *)
Inductive request :=
| ReqState (auth : option Z) (now : Z)
| ReqTap (auth : option Z) (nonce : string) (mono now : Z)
| ReqBoost (auth : option Z) (name : string) (now : Z).

Definition handle (ord : set_listing) (r : request) (st : state)
  : response * state :=
  match r with
  | ReqState auth now => api_state auth now st
  | ReqTap auth nonce mono now => api_tap ord auth nonce mono now st
  | ReqBoost auth name now => api_boost auth name now st
  end.

Definition run_requests (ord : set_listing) (rs : list request) (st : state)
  : state :=
  foldl (λ st r, (handle ord r st).2) st rs.

(** Two rows that differ at most in [energy] and [energy_updated_at]. *)
Definition same_but_energy (row row' : game_user) : Prop :=
  coins row' = coins row
  ∧ max_energy row' = max_energy row
  ∧ multitap_until row' = multitap_until row
  ∧ autotap_until row' = autotap_until row
  ∧ regen_rate_seconds row' = regen_rate_seconds row
  ∧ last_tap_at row' = last_tap_at row
  ∧ daily_streak row' = daily_streak row
  ∧ last_streak_at row' = last_streak_at row.

(** What the account [chat_id] pays for the request [r], given the answer:
    the price of the boost when [r] is its own successful purchase. *)
Definition price_paid (r : request) (resp : response) (chat_id : Z) : Z :=
  match r with
  | ReqBoost (Some a) name _ =>
      if ok resp && bool_decide (a = chat_id)
      then default 0 (boost_cost name) else 0
  | _ => 0
  end.

Fixpoint run_spent (ord : set_listing) (chat_id : Z) (rs : list request)
    (st : state) : Z :=
  match rs with
  | [] => 0
  | r :: rest =>
      let out := handle ord r st in
      price_paid r out.1 chat_id + run_spent ord chat_id rest out.2
  end.

(** How long a timed boost lasts, for the names that are timed. *)
Definition boost_duration (boost : string) : option Z :=
  if decide (boost = "multitap") then Some (timedelta_minutes 15)
  else if decide (boost = "autotap") then Some (timedelta_minutes 10)
  else None.

(** Two rows that differ at most in [coins] and in what a boost sets:
    the two expiries and the maximum. *)
Definition same_but_purchase (row row' : game_user) : Prop :=
  energy row' = energy row
  ∧ energy_updated_at row' = energy_updated_at row
  ∧ regen_rate_seconds row' = regen_rate_seconds row
  ∧ last_tap_at row' = last_tap_at row
  ∧ daily_streak row' = daily_streak row
  ∧ last_streak_at row' = last_streak_at row.

(** The verified caller of a request, if the signature check passed. *)
Definition auth_of (r : request) : option Z :=
  match r with
  | ReqState auth _ | ReqTap auth _ _ _ | ReqBoost auth _ _ => auth
  end.

(** ** Taps day after day *)

(** What a tap on day [today] stores in the streak columns, and the row
    after taps on the days of a list, in order. *)
Definition tap_streak (today : Z) (gu : game_user) : game_user :=
  let s := streak_update today gu true in set_streak s.1 s.2 gu.

Definition streak_after (days : list Z) (gu : game_user) : game_user :=
  foldl (λ g d, tap_streak d g) gu days.

(** Days that follow [d] without a gap: each is the same day as the one
    before it, or the day after. *)
Fixpoint without_gap (d : Z) (days : list Z) : Prop :=
  match days with
  | [] => True
  | d' :: rest => (d' = d ∨ d' = d + 1) ∧ without_gap d' rest
  end.

(** A run of [add_referral_if_absent] calls [(referrer, referee, now)]. *)
Definition run_referrals (calls : list (Z * Z * Z)) (b : bot_state)
  : bot_state :=
  foldl (λ b k, add_referral_if_absent k.1.1 k.1.2 k.2 b) b calls.

(** ** The database URL *)

(** [p in s] for Python strings. *)
Fixpoint contains (p s : string) : bool :=
  String.prefix p s ||
  match s with
  | EmptyString => false
  | String _ rest => contains p rest
  end.

(** The URL [_connect_postgres] hands to [psycopg.connect]. *)
Definition postgres_url (url : string) : string :=
  if negb (contains "sslmode=" url) then
    if contains "?" url then url +:+ "&sslmode=require"
    else url +:+ "?sslmode=require"
  else url.

(** ** The words of the specification for the windowed ranking *)

(** The score of an account in a window of [days] days ending at [now]:
    the sum of the [delta] of its ScoringEvents with
    [occurred_at ≥ now - days]. *)
Fixpoint spec_window_score (now days chat_id : Z) (events : list tap) : Z :=
  match events with
  | [] => 0
  | e :: rest =>
      (if bool_decide (tap_chat_id e = chat_id
                       ∧ now - timedelta_days days ≤ tap_ts e)
       then tap_delta e else 0)
      + spec_window_score now days chat_id rest
  end.

(** ** Purchases of the permanent upgrade *)

(** Whether the request [r], given its answer, is a successful purchase
    of "maxenergy" by the account [chat_id]; and the number of such
    purchases in a run of requests. *)
Definition upgrade_bought (r : request) (resp : response) (chat_id : Z)
  : bool :=
  match r with
  | ReqBoost (Some a) name _ =>
      ok resp && bool_decide (a = chat_id) && bool_decide (name = "maxenergy")
  | _ => false
  end.

Fixpoint run_upgrades (ord : set_listing) (chat_id : Z) (rs : list request)
    (st : state) : nat :=
  match rs with
  | [] => 0%nat
  | r :: rest =>
      let out := handle ord r st in
      ((if upgrade_bought r out.1 chat_id then 1 else 0)
       + run_upgrades ord chat_id rest out.2)%nat
  end.

(** ** The clock readings of one tap *)

(** [api_tap] does not read the wall clock once: every helper it calls
    takes its own reading of [db_now()].  The readings of one request, in
    the order of the code: [get_game_user] (used only when it has to
    create the row), [compute_energy(gu)], [boost_multiplier(gu)],
    [add_tap] (the time of the event and [last_tap_at]),
    [streak_update] (through [db_date_utc()]) and [compute_energy(gu2)]
    for the answer. *)
Record tap_clock := TapClock {
  at_fetch : Z;
  at_energy : Z;
  at_boost : Z;
  at_log : Z;
  at_streak : Z;
  at_answer : Z
}.

(** The second half of [api_tap] with each reading of the clock kept
    apart; [tap_apply] is the same code with all readings equal. *)
Definition tap_apply_clocked (chat_id : Z) (nonce : string) (clk : tap_clock)
    (st : state) : response * state :=
  let '(gu, st) := get_game_user chat_id (at_fetch clk) st in
  let '(energy, energy_ts) := compute_energy (at_energy clk) gu in
  if energy <? 1
  then ({| ok := false; error := Some "No energy";
           r_coins := Some (int_or (coins gu) 0);
           r_energy := Some energy;
           r_max_energy := Some (int_or (max_energy gu) 500);
           r_daily_streak := None |}, st)
  else
    let mult := boost_multiplier (at_boost clk) gu in
    let delta := 1 * mult in
    let st := add_tap chat_id delta nonce (at_log clk) st in
    let st := update_game_user_fields chat_id
                (set_energy (energy - 1) energy_ts) st in
    let '(new_streak, streak_date) :=
      streak_update (date_of (at_streak clk)) gu true in
    let st := update_game_user_fields chat_id
                (set_streak new_streak streak_date) st in
    let '(gu2, st) := get_game_user chat_id (at_answer clk) st in
    let '(energy2, _) := compute_energy (at_answer clk) gu2 in
    ({| ok := true; error := None;
        r_coins := Some (int_or (coins gu2) 0);
        r_energy := Some energy2;
        r_max_energy := Some (int_or (max_energy gu2) 500);
        r_daily_streak := None |}, st).

Definition api_tap_clocked (ord : set_listing) (auth : option Z)
    (nonce : string) (mono : Z) (clk : tap_clock) (st : state)
  : response * state :=
  match auth with
  | None => (failure "Invalid auth", st)
  | Some chat_id =>
      if negb (is_registered chat_id st) then (failure "Not registered", st)
      else
        let '(allowed, rw) := can_tap_now mono chat_id (_rate_windows st) in
        let st := set_rate_windows rw st in
        if negb allowed then (failure "Rate limited", st)
        else if bad_nonce nonce then (failure "Bad nonce", st)
        else if bool_decide (nonce ∈ nonces_of chat_id (_recent_nonces st))
        then (failure "Replay blocked", st)
        else
          let st := set_recent_nonces
                      (_clean_old_nonces ord chat_id
                         (add_nonce chat_id nonce (_recent_nonces st))) st in
          tap_apply_clocked chat_id nonce clk st
  end.

(** All readings taken at one instant. *)
Definition one_instant (now : Z) : tap_clock :=
  {| at_fetch := now; at_energy := now; at_boost := now; at_log := now;
     at_streak := now; at_answer := now |}.

(** ** What the database may answer to a leaderboard query *)

(** The rows of a leaderboard query before ORDER BY and LIMIT. *)
Definition leaderboard_rows (range_ : string) (now : Z) (st : state)
  : list lb_row :=
  if decide (range_ = "all") then
    (λ kv, {| lb_username := username_of kv.1 st; lb_chat_id := kv.1;
              lb_score := coins kv.2 |}) <$> map_to_list (game_users st)
  else
    let since := if decide (range_ = "day") then now - timedelta_days 1
                 else now - timedelta_days 7 in
    let rows := taps_since since (game_taps st) in
    (λ c, {| lb_username := username_of c st; lb_chat_id := c;
             lb_score := Some (sum_delta c rows) |})
      <$> remove_dups (tap_chat_id <$> rows).

(** [ORDER BY score DESC LIMIT limit] fixes the order of the rows only up
    to rows of equal score, and the engine may arrange those differently
    from one query to the next.  An answer is the first [limit] rows of
    some descending arrangement of the rows of the query. *)
Definition leaderboard_answer (pg : bool) (range_ : string) (limit : nat)
    (now : Z) (st : state) (res : list lb_row) : Prop :=
  ∃ sorted,
    sorted ≡ₚ leaderboard_rows range_ now st
    ∧ Sorted (row_ge pg) sorted
    ∧ res = take limit sorted.

(** Players 7 and 8 with a fresh row each, both without coins. *)
Definition tied_players (T : Z) : state :=
  upsert_user_if_missing 8 None T (exhausted_state T).

(** * Properties *)

(** ** Arithmetic of whole seconds and whole intervals *)

Lemma int_or_some_idem (v d : Z) : d = 0 → int_or (Some v) d = v.
Proof.
  intros ->. unfold int_or. destruct (Z.eqb_spec v 0); congruence.
Qed.

Lemma total_seconds_int_nonneg (d : Z) :
  0 ≤ d → total_seconds_int d = d / usec.
Proof.
  intros Hd. unfold total_seconds_int, usec.
  apply Z.quot_div_nonneg; lia.
Qed.

Lemma whole_intervals (d rate : Z) :
  0 ≤ d → 1 ≤ rate →
  total_seconds_int d / Z.max 1 rate = d / (rate * usec).
Proof.
  intros Hd Hr. rewrite total_seconds_int_nonneg by done.
  rewrite Z.max_r by lia. unfold usec.
  rewrite Z.div_div by lia. f_equal. lia.
Qed.

Lemma gained_nonneg (now last rate : Z) :
  last ≤ now → 1 ≤ rate → 0 ≤ spec_gained now last rate.
Proof.
  intros. unfold spec_gained, usec. apply Z.div_pos; lia.
Qed.

(** After the credited intervals are taken off, less than one interval is
    left. *)
Lemma gained_remainder (d rate : Z) :
  0 ≤ d → 1 ≤ rate →
  (d - d / (rate * usec) * rate * usec) / (rate * usec) = 0.
Proof.
  intros Hd Hr. unfold usec.
  replace (d - d / (rate * 1000000) * rate * 1000000)
    with (d mod (rate * 1000000)).
  - apply Z.div_small. apply Z.mod_pos_bound. lia.
  - rewrite Z.mod_eq by lia. lia.
Qed.

Lemma compute_energy_unfold (now last : Z) (gu : game_user) :
  energy_updated_at gu = Some last → last ≤ now →
  1 ≤ int_or (regen_rate_seconds gu) 3 →
  compute_energy now gu =
  spec_regenerate now last (int_or (regen_rate_seconds gu) 3)
    (int_or (max_energy gu) 500) (int_or (energy gu) 0).
Proof.
  intros Hl Hle Hr. unfold compute_energy, spec_regenerate.
  rewrite Hl. rewrite whole_intervals by lia.
  unfold spec_gained, timedelta_seconds.
  reflexivity.
Qed.

(** C1.  For an account whose checkpoint [last] is not after [now] (and
    whose regeneration rate is at least one second), [compute_energy]
    returns what the reference definition returns: the stored energy plus
    the number [gained] of whole intervals elapsed, capped at the maximum;
    the checkpoint moves to [last + gained * rate] seconds when [gained > 0]
    and stays when [gained = 0]; once the result is stored, recomputing at
    the same instant returns the same pair.  With energy 10, cap 500, rate
    3 and checkpoint [T], the result 7 seconds later is 12 and [T] + 6 s. *)
Theorem compute_energy_matches_reference (now last : Z) (gu : game_user) :
  energy_updated_at gu = Some last →
  last ≤ now →
  1 ≤ int_or (regen_rate_seconds gu) 3 →
  let rate := int_or (regen_rate_seconds gu) 3 in
  let cap := int_or (max_energy gu) 500 in
  let stored := int_or (energy gu) 0 in
  let gained := spec_gained now last rate in
  let r := compute_energy now gu in
  r = spec_regenerate now last rate cap stored
  ∧ r.1 = Z.min cap (stored + gained)
  ∧ (0 < gained → r.2 = last + timedelta_seconds (gained * rate) ∧ r.2 ≤ now)
  ∧ (gained = 0 → r.2 = last)
  ∧ compute_energy now (set_energy r.1 r.2 gu) = r
  ∧ ∀ T, compute_energy (T + timedelta_seconds 7) (regen_example T)
         = (12, T + timedelta_seconds 6).
Proof.
  intros Hl Hle Hr rate cap stored gained r.
  assert (Hr0 : r = spec_regenerate now last rate cap stored)
    by (apply compute_energy_unfold; done).
  assert (Hg : 0 ≤ gained) by (apply gained_nonneg; done).
  split; [done|]. rewrite Hr0. unfold spec_regenerate. fold gained. simpl.
  split; [done|].
  assert (Hbound : gained * rate * usec ≤ now - last).
  { unfold gained, spec_gained.
    pose proof (Z.mul_div_le (now - last) (rate * usec)) as Hm.
    unfold usec in *. lia. }
  assert (Hnn : 0 ≤ gained * rate * usec) by (unfold usec; nia).
  split; [|split; [|split]].
  - intros Hpos. rewrite (proj2 (Z.ltb_lt 0 gained)) by done.
    unfold timedelta_seconds. lia.
  - intros ->. reflexivity.
  - set (ts := if 0 <? gained then last + gained * rate * usec else last).
    set (e := Z.min cap (stored + gained)).
    assert (Hts : last ≤ ts ≤ now).
    { unfold ts. destruct (0 <? gained); lia. }
    rewrite (compute_energy_unfold now ts) by (simpl; lia || done).
    cbn [set_energy regen_rate_seconds max_energy energy].
    fold rate cap. rewrite int_or_some_idem by done.
    assert (Hz : spec_gained now ts rate = 0).
    { unfold ts. destruct (Z.ltb_spec 0 gained) as [Hpos|Hnp].
      - unfold spec_gained.
        replace (now - (last + gained * rate * usec))
          with (now - last - (now - last) / (rate * usec) * rate * usec)
          by (unfold gained, spec_gained; lia).
        apply gained_remainder; lia.
      - assert (gained = 0) by lia. unfold gained in *. done. }
    unfold spec_regenerate. rewrite Hz. simpl.
    f_equal. unfold e. lia.
  - intros T. unfold compute_energy, regen_example. simpl.
    replace (T + timedelta_seconds 7 - T) with 7000000
      by (unfold timedelta_seconds, usec; lia).
    change (total_seconds_int 7000000 `div` (1 `max` 3)) with 2.
    reflexivity.
Qed.

Lemma compute_energy_matches_reference_witness :
  compute_energy 1700000007000000 (regen_example 1700000000000000)
  = (12, 1700000006000000).
Proof.
  pose proof (compute_energy_matches_reference 1700000007000000
                1700000000000000 (regen_example 1700000000000000)
                eq_refl ltac:(lia) ltac:(vm_compute; congruence)) as H.
  simpl in H. destruct H as [H _]. rewrite H. vm_compute. reflexivity.
Defined.

(** ** Energy bounds *)

(** With a checkpoint that is not in the future, recomputation never takes
    energy away and never leaves the interval from 0 to the maximum. *)
Lemma compute_energy_bounds (now last : Z) (gu : game_user) :
  energy_updated_at gu = Some last → last ≤ now →
  0 ≤ int_or (energy gu) 0 ≤ int_or (max_energy gu) 500 →
  int_or (energy gu) 0 ≤ (compute_energy now gu).1 ≤ int_or (max_energy gu) 500
  ∧ (compute_energy now gu).2 ≤ now.
Proof.
  intros Hl Hle He. unfold compute_energy. rewrite Hl. simpl.
  set (rate := int_or (regen_rate_seconds gu) 3).
  rewrite total_seconds_int_nonneg by lia.
  assert (Hq : 0 ≤ (now - last) / usec) by (apply Z.div_pos; unfold usec; lia).
  assert (Hm : 1 ≤ Z.max 1 rate) by lia.
  assert (Hg : 0 ≤ (now - last) / usec / Z.max 1 rate) by (apply Z.div_pos; lia).
  split; [lia|].
  destruct (Z.ltb_spec 0 ((now - last) / usec / Z.max 1 rate)) as [Hpos|]; [|lia].
  pose proof (Z.mul_div_le ((now - last) / usec) (Z.max 1 rate) ltac:(lia)) as H1.
  pose proof (Z.mul_div_le (now - last) usec ltac:(unfold usec; lia)) as H2.
  unfold timedelta_seconds.
  assert (rate ≤ Z.max 1 rate) by lia.
  unfold usec in *. nia.
Qed.

(** C2.  [compute_energy] does not clamp the elapsed time: for a checkpoint
    7 seconds in the future the elapsed whole seconds are -7, the floor
    division by the rate 3 gives -3, and the energy returned for a stored
    energy of 0 is -3; [api_state] reports that value and stores it. *)
Theorem compute_energy_future_checkpoint :
  let now := 1700000000000000 in
  compute_energy now (future_checkpoint_user now)
    = (-3, now + timedelta_seconds 7)
  ∧ r_energy (api_state (Some 7) now (future_checkpoint_state now)).1
    = Some (-3)
  ∧ energy <$> (game_users (api_state (Some 7) now
                              (future_checkpoint_state now)).2 !! 7)
    = Some (Some (-3)).
Proof.
  vm_compute. repeat split.
Qed.

(** Whenever the checkpoint is a second or more ahead of the clock, the
    energy returned is strictly below the stored energy. *)
Lemma compute_energy_future_decreases (now last : Z) (gu : game_user) :
  energy_updated_at gu = Some last → now + usec ≤ last →
  int_or (energy gu) 0 ≤ int_or (max_energy gu) 500 →
  (compute_energy now gu).1 < int_or (energy gu) 0.
Proof.
  intros Hl Hf He. unfold compute_energy. rewrite Hl. simpl.
  set (rate := Z.max 1 (int_or (regen_rate_seconds gu) 3)).
  assert (Hq : total_seconds_int (now - last) ≤ -1).
  { unfold total_seconds_int.
    rewrite <- (Z.opp_involutive (now - last)), Z.quot_opp_l by (unfold usec; lia).
    rewrite Z.quot_div_nonneg by (unfold usec in *; lia).
    assert (1 ≤ (- (now - last)) / usec); [|lia].
    apply Z.div_le_lower_bound; unfold usec in *; lia. }
  assert (Hneg : total_seconds_int (now - last) / rate < 0).
  { apply Z.div_lt_upper_bound; lia. }
  lia.
Qed.

(** ** The sliding rate window *)

Lemma evict_old_split (now : Z) (dq : list Z) :
  StronglySorted Z.le dq →
  ∃ old, dq = old ++ evict_old now dq
         ∧ Forall (λ a, RATE_WINDOW_SEC < now - a) old
         ∧ Forall (λ a, now - a ≤ RATE_WINDOW_SEC) (evict_old now dq).
Proof.
  induction dq as [|x dq IH]; intros Hs.
  - exists []. simpl. auto.
  - apply StronglySorted_inv in Hs as [Hs Hx]. simpl.
    destruct (Z.ltb_spec RATE_WINDOW_SEC (now - x)) as [Hold|Hnew].
    + destruct (IH Hs) as (old & Heq & Ho & Hn).
      exists (x :: old). simpl. rewrite <- Heq. auto.
    + exists []. simpl. split; [done|]. split; [constructor|].
      constructor; [lia|].
      eapply Forall_impl; [exact Hx|]. simpl. intros a Ha. lia.
Qed.

Lemma evict_old_fresh (now : Z) (dq : list Z) :
  Forall (λ a, now - a ≤ RATE_WINDOW_SEC) dq → evict_old now dq = dq.
Proof.
  destruct dq as [|x dq]; [done|]. intros Hf.
  apply Forall_cons in Hf as [Hx _]. simpl.
  destruct (Z.ltb_spec RATE_WINDOW_SEC (now - x)); [lia|done].
Qed.

Lemma evict_old_stale (now : Z) (dq : list Z) :
  Forall (λ a, RATE_WINDOW_SEC < now - a) dq → evict_old now dq = [].
Proof.
  induction 1 as [|x dq Hx _ IH]; [done|]. simpl.
  destruct (Z.ltb_spec RATE_WINDOW_SEC (now - x)); [done|lia].
Qed.

Lemma evict_old_suffix (now : Z) (dq : list Z) :
  evict_old now dq `suffix_of` dq.
Proof.
  induction dq as [|x dq IH]; simpl; [done|].
  destruct (RATE_WINDOW_SEC <? now - x); [|done].
  by apply suffix_cons_r.
Qed.

(** Below its bound the deque simply grows at the right. *)
Lemma deque_append_short (n : nat) (dq : list Z) (x : Z) :
  (length dq < n)%nat → deque_append n dq x = dq ++ [x].
Proof.
  intros Hn. unfold deque_append.
  replace (length (dq ++ [x]) - n)%nat with 0%nat; [done|].
  rewrite length_app. simpl. lia.
Qed.

Lemma rate_step_accept (now : Z) (dq : list Z) :
  (length (evict_old now dq) < MAX_TAPS_PER_SEC)%nat →
  rate_step now dq = (true, evict_old now dq ++ [now]).
Proof.
  intros Hl. unfold rate_step. case_decide; [lia|].
  rewrite deque_append_short; [done|]. unfold MAX_TAPS_PER_SEC in *. lia.
Qed.

Lemma rate_step_reject (now : Z) (dq : list Z) :
  (MAX_TAPS_PER_SEC ≤ length (evict_old now dq))%nat →
  rate_step now dq = (false, evict_old now dq).
Proof.
  intros Hl. unfold rate_step. case_decide; [done|lia].
Qed.

Lemma window_of_can_tap_now (now c : Z) (rw : gmap Z (list Z)) :
  window_of c (can_tap_now now c rw).2 = (rate_step now (window_of c rw)).2.
Proof. unfold can_tap_now, window_of. simpl. by rewrite lookup_insert_eq. Qed.

Lemma window_of_can_tap_now_ne (now c c' : Z) (rw : gmap Z (list Z)) :
  c' ≠ c → window_of c (can_tap_now now c' rw).2 = window_of c rw.
Proof.
  intros Hne. unfold can_tap_now, window_of. simpl.
  by rewrite lookup_insert_ne.
Qed.

Lemma taps_in_window_app (t0 : Z) (l1 l2 : list Z) :
  taps_in_window t0 (l1 ++ l2)
  = (taps_in_window t0 l1 + taps_in_window t0 l2)%nat.
Proof. unfold taps_in_window. by rewrite List.filter_app, length_app. Qed.

Lemma taps_in_window_le_length (t0 : Z) (l : list Z) :
  (taps_in_window t0 l ≤ length l)%nat.
Proof. apply List.filter_length_le. Qed.

Lemma taps_in_window_stale (t0 now : Z) (old : list Z) :
  in_window t0 now = true →
  Forall (λ a, RATE_WINDOW_SEC < now - a) old →
  taps_in_window t0 old = 0%nat.
Proof.
  intros Hw. unfold taps_in_window, in_window in *.
  induction 1 as [|x old Hx _ IH]; [done|]. simpl.
  destruct (Z.leb_spec t0 x), (Z.leb_spec x (t0 + RATE_WINDOW_SEC));
    simpl; try done.
  apply andb_true_iff in Hw as [H1 H2].
  apply Z.leb_le in H1, H2. lia.
Qed.

Lemma window_inv_later (tprev t : Z) (hist dq : list Z) :
  tprev ≤ t → window_inv tprev hist dq → window_inv t hist dq.
Proof.
  intros Hle ((old & Heq & Hold) & Hmax & Hs & Hb).
  repeat split; [|by (eapply Forall_impl; [exact Hmax|]; simpl; intros; lia)|done|done].
  exists old. split; [done|].
  eapply Forall_impl; [exact Hold|]. simpl. intros. lia.
Qed.

Lemma window_inv_evict (t : Z) (hist dq : list Z) :
  window_inv t hist dq →
  window_inv t hist (evict_old t dq)
  ∧ Forall (λ a, t - a ≤ RATE_WINDOW_SEC) (evict_old t dq).
Proof.
  intros ((old & Heq & Hold) & Hmax & Hs & Hb).
  destruct (evict_old_split t dq Hs) as (old' & Hdq & Ho' & Hn').
  assert (Hsuf : evict_old t dq `suffix_of` dq) by apply evict_old_suffix.
  split; [|done]. repeat split; [| | |done].
  - exists (old ++ old'). split.
    + rewrite <- app_assoc, <- Hdq. done.
    + apply Forall_app. done.
  - rewrite Hdq in Hmax. by apply Forall_app in Hmax as [_ ?].
  - rewrite Hdq in Hs. by apply StronglySorted_app_1_r in Hs.
Qed.

Lemma window_inv_accept (t : Z) (hist dq : list Z) :
  window_inv t hist dq →
  Forall (λ a, t - a ≤ RATE_WINDOW_SEC) dq →
  (length dq < MAX_TAPS_PER_SEC)%nat →
  window_inv t (hist ++ [t]) (dq ++ [t]).
Proof.
  intros ((old & Heq & Hold) & Hmax & Hs & Hb) Hfresh Hlen.
  repeat split.
  - exists old. split; [|done]. rewrite Heq. by rewrite app_assoc.
  - apply Forall_app. split; [done|]. constructor; [lia|constructor].
  - apply StronglySorted_app_2; [|done|repeat constructor].
    intros x1 x2 Hx1 Hx2. apply list_elem_of_singleton in Hx2 as ->.
    rewrite Forall_forall in Hmax. by apply Hmax.
  - intros t0. rewrite taps_in_window_app.
    destruct (in_window t0 t) eqn:Hw.
    + rewrite Heq, taps_in_window_app.
      rewrite (taps_in_window_stale t0 t old Hw Hold).
      pose proof (taps_in_window_le_length t0 dq).
      unfold taps_in_window at 2. simpl. rewrite Hw. simpl. lia.
    + unfold taps_in_window at 2. simpl. rewrite Hw. simpl.
      specialize (Hb t0). lia.
Qed.

Lemma accepted_taps_bound (c : Z) (calls : list (Z * Z)) :
  ∀ (rw : gmap Z (list Z)) (tprev : Z) (hist : list Z),
    window_inv tprev hist (window_of c rw) →
    StronglySorted Z.le (tprev :: calls.*2) →
    ∀ t0, (taps_in_window t0 (hist ++ accepted_taps c calls rw)
           ≤ MAX_TAPS_PER_SEC)%nat.
Proof.
  induction calls as [|[c' t] rest IH]; intros rw tprev hist Hinv Hsorted t0.
  - simpl. rewrite app_nil_r. by destruct Hinv as (_ & _ & _ & Hb).
  - simpl in Hsorted.
    apply StronglySorted_inv in Hsorted as [Hrest Hhd].
    apply Forall_cons in Hhd as [Hle _].
    apply (window_inv_later _ t) in Hinv; [|done].
    cbn [accepted_taps].
    destruct (decide (c' = c)) as [->|Hne].
    + destruct (window_inv_evict _ _ _ Hinv) as [Hinv' Hfresh].
      destruct (decide (MAX_TAPS_PER_SEC ≤ length (evict_old t (window_of c rw)))%nat)
        as [Hfull|Hroom].
      * assert (Hr : (can_tap_now t c rw).1 = false).
        { unfold can_tap_now. simpl. by rewrite rate_step_reject. }
        rewrite Hr. cbn [andb app]. apply (IH _ t); [|done].
        rewrite window_of_can_tap_now, rate_step_reject by done. done.
      * assert (Hr : (can_tap_now t c rw).1 = true).
        { unfold can_tap_now. simpl. by rewrite rate_step_accept by lia. }
        rewrite Hr, bool_decide_eq_true_2 by done. cbn [andb].
        rewrite (app_assoc hist [t]). apply (IH _ t); [|done].
        rewrite window_of_can_tap_now, rate_step_accept by lia. simpl.
        apply window_inv_accept; [done|done|lia].
    + rewrite bool_decide_eq_false_2, andb_false_r by done. cbn [app].
      apply (IH _ t); [|done].
      by rewrite window_of_can_tap_now_ne.
Qed.

Lemma run_outcomes_app (l1 l2 : list (Z * Z)) (rw : gmap Z (list Z)) :
  run_outcomes (l1 ++ l2) rw
  = run_outcomes l1 rw ++ run_outcomes l2 (run_store l1 rw).
Proof.
  revert rw. induction l1 as [|[c t] l1 IH]; intros rw; [done|].
  simpl. by rewrite IH.
Qed.

Lemma run_store_app (l1 l2 : list (Z * Z)) (rw : gmap Z (list Z)) :
  run_store (l1 ++ l2) rw = run_store l2 (run_store l1 rw).
Proof.
  revert rw. induction l1 as [|[c t] l1 IH]; intros rw; [done|].
  simpl. by rewrite IH.
Qed.

Lemma can_tap_now_eq (now c : Z) (rw : gmap Z (list Z)) :
  let dq := evict_old now (window_of c rw) in
  let room := bool_decide (length dq < MAX_TAPS_PER_SEC)%nat in
  can_tap_now now c rw
  = (room, <[c := if room then dq ++ [now] else dq]> rw).
Proof.
  intros dq room. unfold can_tap_now, room.
  destruct (decide (length dq < MAX_TAPS_PER_SEC)%nat) as [Hlt|Hge].
  - rewrite rate_step_accept by done. by rewrite bool_decide_eq_true_2.
  - rewrite rate_step_reject by (fold dq; lia).
    by rewrite bool_decide_eq_false_2.
Qed.

(** Taps that all fall in one second are accepted while there is room. *)
Lemma run_burst (c : Z) (ts : list Z) :
  ∀ rw : gmap Z (list Z),
    (length (window_of c rw) + length ts ≤ MAX_TAPS_PER_SEC)%nat →
    (∀ a t, a ∈ window_of c rw ++ ts → t ∈ ts → t - a ≤ RATE_WINDOW_SEC) →
    run_outcomes ((λ t, (c, t)) <$> ts) rw = replicate (length ts) true
    ∧ window_of c (run_store ((λ t, (c, t)) <$> ts) rw)
      = window_of c rw ++ ts.
Proof.
  induction ts as [|t ts IH]; intros rw Hlen Hnear.
  - simpl. by rewrite app_nil_r.
  - simpl in Hlen. cbn [fmap list_fmap run_outcomes run_store length replicate].
    assert (Hfresh : evict_old t (window_of c rw) = window_of c rw).
    { apply evict_old_fresh, Forall_forall. intros a Ha.
      apply Hnear; [apply elem_of_app; by left|by left]. }
    pose proof (can_tap_now_eq t c rw) as Hc. simpl in Hc.
    rewrite Hfresh, bool_decide_eq_true_2 in Hc by lia.
    rewrite Hc. cbn [fst snd].
    destruct (IH (<[c := window_of c rw ++ [t]]> rw)) as [Ho Hw].
    + unfold window_of at 1. rewrite lookup_insert_eq. simpl.
      rewrite length_app. simpl. lia.
    + unfold window_of at 1. rewrite lookup_insert_eq. simpl.
      intros a t' Ha Ht'. apply Hnear; [|by right].
      rewrite <- app_assoc in Ha. done.
    + rewrite Ho, Hw. split; [done|].
      unfold window_of at 1. rewrite lookup_insert_eq. simpl.
      by rewrite <- app_assoc.
Qed.

(** C3.  The rate limiter accepts at most 20 taps of an account in any
    window of one second, whatever calls are made and for whatever
    accounts, as long as the clock does not run backwards.  Each call first
    evicts the readings older than the window, then answers by the number
    of readings left, and records its own reading only when it accepts.
    Of 21 taps of one account within one second, the first 20 are accepted
    and the 21st is rejected and leaves no reading; a tap made after all
    20 have left the window is accepted. *)
Theorem rate_limit_sliding_window :
  (∀ (calls : list (Z * Z)) (c t0 : Z),
      StronglySorted Z.le calls.*2 →
      (taps_in_window t0 (accepted_taps c calls ∅) ≤ 20)%nat)
  ∧ (∀ (now c : Z) (rw : gmap Z (list Z)),
        let dq := evict_old now (window_of c rw) in
        let room := bool_decide (length dq < 20)%nat in
        can_tap_now now c rw
        = (room, <[c := if room then dq ++ [now] else dq]> rw))
  ∧ (∀ (c : Z) (ts : list Z) (t21 t22 : Z),
        length ts = 20%nat →
        (∀ a b, a ∈ ts ++ [t21] → b ∈ ts ++ [t21] → b - a ≤ RATE_WINDOW_SEC) →
        (∀ a, a ∈ ts → RATE_WINDOW_SEC < t22 - a) →
        run_outcomes ((λ t, (c, t)) <$> ts ++ [t21; t22]) ∅
        = replicate 20 true ++ [false; true]
        ∧ window_of c (run_store ((λ t, (c, t)) <$> ts ++ [t21]) ∅) = ts).
Proof.
  split; [|split].
  - intros calls c t0 Hs.
    destruct calls as [|[c' t] rest]; [simpl; unfold taps_in_window; simpl; lia|].
    apply (accepted_taps_bound c ((c', t) :: rest) ∅ t []).
    + unfold window_of. rewrite lookup_empty. simpl.
      split; [exists []; split; [done|constructor]|].
      split; [constructor|]. split; [constructor|].
      intros w0. unfold taps_in_window. simpl. lia.
    + simpl in *. constructor; [done|].
      constructor; [lia|]. by apply StronglySorted_inv in Hs as [_ ?].
  - intros now c rw. apply can_tap_now_eq.
  - intros c ts t21 t22 Hlen Hnear Hlate.
    destruct (run_burst c ts ∅) as [Ho Hw].
    { unfold window_of. rewrite lookup_empty. simpl.
      unfold MAX_TAPS_PER_SEC. lia. }
    { unfold window_of. rewrite lookup_empty. simpl.
      intros a t Ha Ht. apply Hnear; apply elem_of_app; by left. }
    unfold window_of at 2 in Hw. rewrite lookup_empty in Hw. simpl in Hw.
    set (rw := run_store ((λ t, (c, t)) <$> ts) ∅) in *.
    assert (H21 : can_tap_now t21 c rw = (false, <[c := ts]> rw)).
    { rewrite can_tap_now_eq. rewrite Hw.
      rewrite evict_old_fresh.
      - rewrite bool_decide_eq_false_2; [done|].
        unfold MAX_TAPS_PER_SEC. lia.
      - apply Forall_forall. intros a Ha.
        apply Hnear; apply elem_of_app; [by left|right; by left]. }
    assert (H22 : (can_tap_now t22 c (<[c := ts]> rw)).1 = true).
    { rewrite can_tap_now_eq. simpl.
      unfold window_of. rewrite lookup_insert_eq. simpl.
      rewrite evict_old_stale by (by apply Forall_forall).
      done. }
    split.
    + rewrite fmap_app, run_outcomes_app. fold rw. rewrite Ho, Hlen.
      cbn [fmap list_fmap run_outcomes]. rewrite H21. cbn [fst snd].
      by rewrite H22.
    + rewrite fmap_app, run_store_app. fold rw.
      cbn [fmap list_fmap run_store]. rewrite H21. cbn [snd].
      unfold window_of. by rewrite lookup_insert_eq.
Qed.

Lemma rate_limit_sliding_window_witness :
  (run_outcomes ((λ t, (7, t)) <$> replicate 20 1000 ++ [1005; 1000001001]) ∅
   = replicate 20 true ++ [false; true]
   ∧ window_of 7 (run_store ((λ t, (7, t)) <$> replicate 20 1000 ++ [1005]) ∅)
     = replicate 20 1000)
  ∧ Nat.le (taps_in_window 1000
              (accepted_taps 7 [(7, 1000); (8, 1000); (7, 1001)] ∅)) 20.
Proof.
  destruct rate_limit_sliding_window as (Hbound & _ & Hburst).
  split.
  - apply Hburst.
    + reflexivity.
    + assert (Hall : Forall (λ a, Forall (λ b, b - a ≤ RATE_WINDOW_SEC)
                                (replicate 20 1000 ++ [1005]))
                       (replicate 20 1000 ++ [1005]))
        by (eapply bool_decide_unpack; vm_compute; exact I).
      intros a b Ha Hb.
      rewrite Forall_forall in Hall. specialize (Hall a Ha).
      rewrite Forall_forall in Hall. exact (Hall b Hb).
    + assert (Hall : Forall (λ a, RATE_WINDOW_SEC < 1000001001 - a)
                       (replicate 20 1000))
        by (eapply bool_decide_unpack; vm_compute; exact I).
      intros a Ha. rewrite Forall_forall in Hall. exact (Hall a Ha).
  - apply Hbound. simpl. repeat constructor; lia.
Defined.

(** ** What each operation leaves alone *)

#[local] Arguments compute_energy : simpl never.
#[local] Arguments streak_update : simpl never.
#[local] Arguments boost_multiplier : simpl never.
#[local] Arguments get_game_user : simpl never.
#[local] Arguments update_game_user_fields : simpl never.
#[local] Arguments add_tap : simpl never.
#[local] Arguments can_tap_now : simpl never.
#[local] Arguments _clean_old_nonces : simpl never.
#[local] Arguments add_nonce : simpl never.
#[local] Arguments tap_apply : simpl never.

Lemma upsert_keeps_local (c : Z) (name : option string) (now : Z) (st : state) :
  let st' := upsert_user_if_missing c name now st in
  _recent_nonces st' = _recent_nonces st
  ∧ _rate_windows st' = _rate_windows st
  ∧ game_taps st' = game_taps st.
Proof.
  unfold upsert_user_if_missing.
  destruct (users st !! c); simpl;
    destruct (game_users st !! c); simpl; done.
Qed.

Lemma get_game_user_keeps_local (c now : Z) (st : state) :
  let st' := (get_game_user c now st).2 in
  _recent_nonces st' = _recent_nonces st
  ∧ _rate_windows st' = _rate_windows st
  ∧ game_taps st' = game_taps st.
Proof.
  unfold get_game_user. destruct (game_users st !! c); simpl; [done|].
  apply upsert_keeps_local.
Qed.

(** An account whose row exists is read without any write. *)
Lemma get_game_user_existing (c now : Z) (st : state) (row : game_user) :
  game_users st !! c = Some row → get_game_user c now st = (row, st).
Proof. intros H. unfold get_game_user. by rewrite H. Qed.

(** After [get_game_user] the row exists, and it is the row returned. *)
Lemma get_game_user_row (c now : Z) (st : state) :
  game_users (get_game_user c now st).2 !! c = Some (get_game_user c now st).1.
Proof.
  unfold get_game_user. destruct (game_users st !! c) eqn:Hg; simpl; [done|].
  unfold upsert_user_if_missing.
  destruct (users st !! c); simpl; rewrite Hg; simpl;
    by rewrite lookup_insert_eq.
Qed.

(** A row that [get_game_user] has to create is the fresh account. *)
Lemma get_game_user_missing (c now : Z) (st : state) :
  game_users st !! c = None → (get_game_user c now st).1 = new_game_user now.
Proof.
  intros Hg. unfold get_game_user. rewrite Hg. simpl.
  unfold upsert_user_if_missing.
  destruct (users st !! c); simpl; rewrite Hg; simpl;
    by rewrite lookup_insert_eq.
Qed.

Lemma lower_empty_not_registered : lower "" ≠ "registered".
Proof. discriminate. Qed.

Lemma upsert_keeps_registered (c c' : Z) (name : option string) (now : Z)
    (st : state) :
  is_registered c' (upsert_user_if_missing c name now st) = is_registered c' st.
Proof.
  unfold upsert_user_if_missing, is_registered.
  destruct (users st !! c) eqn:Hu; simpl.
  - destruct (game_users st !! c); simpl; done.
  - assert (Hl : match (<[c := {| username := name; payment_status := None;
                                  invites := Some 0 |}]> (users st)) !! c' with
                 | Some row => bool_decide
                     (lower (default "" (payment_status row)) = "registered")
                 | None => false
                 end
                 = match users st !! c' with
                   | Some row => bool_decide
                       (lower (default "" (payment_status row)) = "registered")
                   | None => false
                   end).
    { destruct (decide (c = c')) as [->|Hne].
      - by rewrite lookup_insert_eq, Hu.
      - by rewrite lookup_insert_ne. }
    destruct (game_users st !! c); simpl; exact Hl.
Qed.

Lemma get_game_user_keeps_registered (c c' now : Z) (st : state) :
  is_registered c' (get_game_user c now st).2 = is_registered c' st.
Proof.
  unfold get_game_user. destruct (game_users st !! c); simpl; [done|].
  apply upsert_keeps_registered.
Qed.

Lemma tap_apply_keeps_local (c : Z) (nonce : string) (now : Z) (st : state) :
  _recent_nonces (tap_apply c nonce now st).2 = _recent_nonces st
  ∧ _rate_windows (tap_apply c nonce now st).2 = _rate_windows st
  ∧ ∀ c', is_registered c' (tap_apply c nonce now st).2 = is_registered c' st.
Proof.
  unfold tap_apply.
  pose proof (get_game_user_keeps_local c now st) as (Hn & Hw & _).
  pose proof (get_game_user_keeps_registered c) as Hreg.
  specialize (λ c', Hreg c' now st).
  destruct (get_game_user c now st) as [gu st1]. cbn [fst snd] in *.
  destruct (compute_energy now gu) as [e ts].
  destruct (e <? 1); cbn [fst snd]; [done|].
  destruct (streak_update (date_of now) gu true) as [ns sd].
  match goal with
  | |- context [get_game_user c now ?s] =>
      pose proof (get_game_user_keeps_local c now s) as (Hn2 & Hw2 & _);
      pose proof (get_game_user_keeps_registered c) as Hreg2;
      specialize (λ c', Hreg2 c' now s);
      destruct (get_game_user c now s) as [gu2 st2]
  end.
  cbn [fst snd] in *. destruct (compute_energy now gu2) as [e2 ts2].
  cbn [fst snd]. rewrite Hn2, Hw2. repeat split; try done.
  intros c'. rewrite Hreg2. exact (Hreg c').
Qed.

(** The response of [tap_apply] is a success or the "No energy" rejection. *)
Lemma tap_apply_outcome (c : Z) (nonce : string) (now : Z) (st : state) :
  let r := (tap_apply c nonce now st).1 in
  (ok r = true ∧ error r = None) ∨ (ok r = false ∧ error r = Some "No energy").
Proof.
  unfold tap_apply.
  destruct (get_game_user c now st) as [gu st1].
  destruct (compute_energy now gu) as [e ts].
  destruct (e <? 1); cbn [fst snd ok error]; [by right|].
  destruct (streak_update (date_of now) gu true) as [ns sd].
  destruct (get_game_user c now _) as [gu2 st2].
  destruct (compute_energy now gu2) as [e2 ts2]. cbn [fst snd ok error].
  by left.
Qed.

(** ** The nonce cache *)

Lemma nonces_of_add (c : Z) (n : string) (rn : gmap Z (gset string)) :
  nonces_of c (add_nonce c n rn) = {[n]} ∪ nonces_of c rn.
Proof. unfold add_nonce, nonces_of at 1. by rewrite lookup_insert_eq. Qed.

Lemma nonces_of_add_ne (c c' : Z) (n : string) (rn : gmap Z (gset string)) :
  c ≠ c' → nonces_of c' (add_nonce c n rn) = nonces_of c' rn.
Proof.
  intros Hne. unfold add_nonce, nonces_of at 1. by rewrite lookup_insert_ne.
Qed.

Lemma nonces_of_clean (ord : set_listing) (c : Z) (rn : gmap Z (gset string)) :
  nonces_of c (_clean_old_nonces ord c rn)
  = if decide (200 < size (nonces_of c rn))%nat
    then list_to_set (last_n 100 (to_list ord (nonces_of c rn)))
    else nonces_of c rn.
Proof.
  unfold _clean_old_nonces. case_decide; [|done].
  unfold nonces_of at 1. by rewrite lookup_insert_eq.
Qed.

Lemma nonces_of_clean_ne (ord : set_listing) (c c' : Z)
    (rn : gmap Z (gset string)) :
  c ≠ c' → nonces_of c' (_clean_old_nonces ord c rn) = nonces_of c' rn.
Proof.
  intros Hne. unfold _clean_old_nonces. case_decide; [|done].
  unfold nonces_of at 1. by rewrite lookup_insert_ne.
Qed.

Lemma size_add_nonce (n : string) (s : gset string) :
  (size ({[n]} ∪ s) ≤ S (size s))%nat.
Proof.
  rewrite size_union_alt, size_singleton.
  assert (size (s ∖ {[n]}) ≤ size s)%nat; [|lia].
  apply subseteq_size. set_solver.
Qed.

(** ** The gates of [api_tap] *)

Lemma api_tap_gates (ord : set_listing) (c : Z) (nonce : string)
    (mono now : Z) (st : state) :
  is_registered c st = true →
  api_tap ord (Some c) nonce mono now st
  = let r := can_tap_now mono c (_rate_windows st) in
    let st1 := set_rate_windows r.2 st in
    if negb r.1 then (failure "Rate limited", st1)
    else if bad_nonce nonce then (failure "Bad nonce", st1)
    else if bool_decide (nonce ∈ nonces_of c (_recent_nonces st))
    then (failure "Replay blocked", st1)
    else tap_apply c nonce now
           (set_recent_nonces
              (_clean_old_nonces ord c (add_nonce c nonce (_recent_nonces st)))
              st1).
Proof.
  intros Hreg. unfold api_tap. rewrite Hreg. cbn [negb].
  destruct (can_tap_now mono c (_rate_windows st)) as [allowed rw].
  reflexivity.
Qed.

Lemma bad_nonce_spec (nonce : string) :
  bad_nonce nonce = true ↔ nonce = "" ∨ (200 < String.length nonce)%nat.
Proof.
  unfold bad_nonce. rewrite orb_true_iff, bool_decide_eq_true, Nat.ltb_lt.
  done.
Qed.

(** C4.  For a registered account that the rate limiter lets through,
    [api_tap] rejects an empty nonce and a nonce of more than 200 characters
    with "Bad nonce", and a nonce that is in the cache of this account with
    "Replay blocked".  Any other nonce passes, whatever the caches of the
    other accounts hold: the answer is a success or "No energy", and the
    cache of the account becomes the old cache with the nonce added, then
    trimmed by [_clean_old_nonces]; below 200 cached nonces nothing is
    trimmed and the nonce is in the cache afterwards.  Hence a second
    submission by the same account is blocked as a replay, while the same
    string from another account passes. *)
Theorem api_tap_nonce_gate (ord : set_listing) (c : Z) (nonce : string)
    (mono now : Z) (st : state) :
  is_registered c st = true →
  (can_tap_now mono c (_rate_windows st)).1 = true →
  let out := api_tap ord (Some c) nonce mono now st in
  let cache := nonces_of c (_recent_nonces st) in
  (nonce = "" ∨ (200 < String.length nonce)%nat →
     out.1 = failure "Bad nonce")
  ∧ (nonce ≠ "" → (String.length nonce ≤ 200)%nat → nonce ∈ cache →
       out.1 = failure "Replay blocked")
  ∧ (nonce ≠ "" → (String.length nonce ≤ 200)%nat → nonce ∉ cache →
       ((ok out.1 = true ∧ error out.1 = None)
        ∨ (ok out.1 = false ∧ error out.1 = Some "No energy"))
       ∧ _recent_nonces out.2
         = _clean_old_nonces ord c (add_nonce c nonce (_recent_nonces st))
       ∧ ((size cache < 200)%nat → nonce ∈ nonces_of c (_recent_nonces out.2))
       ∧ (∀ c', c' ≠ c →
            nonces_of c' (_recent_nonces out.2)
            = nonces_of c' (_recent_nonces st))
       ∧ ∀ (c2 mono2 now2 : Z),
           let out2 := api_tap ord (Some c2) nonce mono2 now2 out.2 in
           is_registered c2 st = true →
           (can_tap_now mono2 c2 (_rate_windows out.2)).1 = true →
           (c2 = c → (size cache < 200)%nat →
              out2.1 = failure "Replay blocked")
           ∧ (c2 ≠ c → nonce ∉ nonces_of c2 (_recent_nonces st) →
                (ok out2.1 = true ∧ error out2.1 = None)
                ∨ (ok out2.1 = false ∧ error out2.1 = Some "No energy"))).
Proof.
  intros Hreg Hrate out cache.
  assert (Hout : out = api_tap ord (Some c) nonce mono now st) by done.
  rewrite api_tap_gates in Hout by done. cbn zeta in Hout.
  rewrite Hrate in Hout. cbn [negb] in Hout.
  split; [|split].
  - intros Hbad. apply bad_nonce_spec in Hbad. rewrite Hbad in Hout.
    by rewrite Hout.
  - intros Hne Hlen Hin.
    assert (Hok : bad_nonce nonce = false).
    { apply not_true_is_false. rewrite bad_nonce_spec. intros [?|?]; [done|lia]. }
    rewrite Hok, bool_decide_eq_true_2 in Hout by done. by rewrite Hout.
  - intros Hne Hlen Hnin.
    assert (Hok : bad_nonce nonce = false).
    { apply not_true_is_false. rewrite bad_nonce_spec. intros [?|?]; [done|lia]. }
    rewrite Hok, bool_decide_eq_false_2 in Hout by done.
    set (st2 := set_recent_nonces _ _) in Hout.
    pose proof (tap_apply_keeps_local c nonce now st2) as (Hn & Hw & Hr).
    pose proof (tap_apply_outcome c nonce now st2) as Hres.
    rewrite <- Hout in Hn, Hw, Hr, Hres. cbn zeta in Hres.
    assert (Hcache : nonces_of c (_recent_nonces out.2)
                     = if decide (200 < size ({[nonce]} ∪ cache))%nat
                       then list_to_set (last_n 100
                              (to_list ord ({[nonce]} ∪ cache)))
                       else {[nonce]} ∪ cache).
    { rewrite Hn. unfold st2. cbn [_recent_nonces set_recent_nonces].
      by rewrite nonces_of_clean, nonces_of_add. }
    assert (Hkept : (size cache < 200)%nat
                    → nonce ∈ nonces_of c (_recent_nonces out.2)).
    { intros Hsz. rewrite Hcache.
      pose proof (size_add_nonce nonce cache).
      case_decide; [lia|]. set_solver. }
    assert (Hother : ∀ c', c' ≠ c →
              nonces_of c' (_recent_nonces out.2)
              = nonces_of c' (_recent_nonces st)).
    { intros c' Hc'. rewrite Hn. unfold st2.
      cbn [_recent_nonces set_recent_nonces set_rate_windows].
      by rewrite nonces_of_clean_ne, nonces_of_add_ne. }
    split; [done|]. split; [by rewrite Hn|]. split; [done|]. split; [done|].
    intros c2 mono2 now2 out2 Hreg2 Hrate2.
    assert (Hreg2' : is_registered c2 out.2 = true) by (by rewrite Hr).
    assert (Hout2 : out2 = api_tap ord (Some c2) nonce mono2 now2 out.2) by done.
    rewrite api_tap_gates in Hout2 by done. cbn zeta in Hout2.
    rewrite Hrate2, Hok in Hout2. cbn [negb] in Hout2.
    split.
    + intros -> Hsz. rewrite bool_decide_eq_true_2 in Hout2 by auto.
      by rewrite Hout2.
    + intros Hc2 Hnin2.
      rewrite bool_decide_eq_false_2 in Hout2 by (by rewrite Hother).
      rewrite Hout2. apply tap_apply_outcome.
Qed.

Lemma api_tap_nonce_gate_witness :
  (api_tap elements_listing (Some 7) "" 5 1700000000000000
     (two_player_state 1700000000000000)).1 = failure "Bad nonce".
Proof.
  apply (api_tap_nonce_gate elements_listing 7 "" 5 1700000000000000
           (two_player_state 1700000000000000)).
  - vm_compute. reflexivity.
  - vm_compute. reflexivity.
  - left. reflexivity.
Defined.

(** ** Rejections *)

Lemma compute_energy_new (now : Z) :
  compute_energy now (new_game_user now) = (500, now).
Proof.
  unfold compute_energy. cbn [new_game_user energy_updated_at max_energy
    regen_rate_seconds energy]. rewrite Z.sub_diag. reflexivity.
Qed.

Lemma tap_apply_no_energy (c : Z) (nonce : string) (now : Z) (st : state)
    (gu : game_user) :
  game_users st !! c = Some gu → (compute_energy now gu).1 < 1 →
  tap_apply c nonce now st = (no_energy_response now gu, st).
Proof.
  intros Hg He. unfold tap_apply, no_energy_response.
  rewrite (get_game_user_existing c now st gu Hg).
  destruct (compute_energy now gu) as [e ts]. cbn [fst] in *.
  by rewrite (proj2 (Z.ltb_lt e 1)).
Qed.

Lemma tap_apply_rejected (c : Z) (nonce : string) (now : Z) (st : state) :
  ok (tap_apply c nonce now st).1 = false →
  ∃ gu, game_users st !! c = Some gu
        ∧ (compute_energy now gu).1 < 1
        ∧ tap_apply c nonce now st = (no_energy_response now gu, st).
Proof.
  intros Hrej.
  destruct (game_users st !! c) as [gu|] eqn:Hg.
  - exists gu. split; [done|].
    destruct (Z.lt_ge_cases (compute_energy now gu).1 1) as [Hlt|Hge].
    + split; [done|]. by apply tap_apply_no_energy.
    + exfalso. revert Hrej. unfold tap_apply.
      rewrite (get_game_user_existing c now st gu Hg).
      destruct (compute_energy now gu) as [e ts]. cbn [fst] in Hge.
      rewrite (proj2 (Z.ltb_ge e 1)) by done.
      destruct (streak_update (date_of now) gu true) as [ns sd].
      destruct (get_game_user c now _) as [gu2 st2].
      destruct (compute_energy now gu2) as [e2 ts2]. cbn [fst ok]. done.
  - exfalso. revert Hrej. unfold tap_apply.
    pose proof (get_game_user_missing c now st Hg) as Hnew.
    destruct (get_game_user c now st) as [gu st1]. cbn [fst] in Hnew.
    subst gu. rewrite compute_energy_new.
    change (500 <? 1) with false. cbn iota.
    destruct (streak_update (date_of now) _ true) as [ns sd].
    destruct (get_game_user c now _) as [gu2 st2].
    destruct (compute_energy now gu2) as [e2 ts2]. cbn [fst ok]. done.
Qed.



Lemma activate_boost_short (c : Z) (boost : string) (now : Z) (st : state)
    (gu : game_user) (cost : Z) :
  game_users st !! c = Some gu → boost_cost boost = Some cost →
  int_or (coins gu) 0 < cost →
  activate_boost c boost now st = ((false, "Not enough coins"), st).
Proof.
  intros Hg Hcost Hlt. unfold activate_boost, boost_cost in *.
  rewrite (get_game_user_existing c now st gu Hg).
  repeat case_decide; simplify_eq;
    by rewrite (proj2 (Z.ltb_lt _ _) Hlt).
Qed.

Lemma activate_boost_unknown (c : Z) (boost : string) (now : Z) (st : state) :
  boost_cost boost = None →
  activate_boost c boost now st
  = ((false, "Unknown boost"), (get_game_user c now st).2).
Proof.
  intros Hcost. unfold activate_boost, boost_cost in *.
  destruct (get_game_user c now st) as [gu st1].
  repeat case_decide; simplify_eq. done.
Qed.






(** ** The multiplier and the accepted tap *)

Lemma boost_multiplier_eq (now : Z) (gu : game_user) :
  boost_multiplier now gu
  = Z.max (granted_multiplier now (multitap_until gu))
          (granted_multiplier now (autotap_until gu)).
Proof.
  unfold boost_multiplier, granted_multiplier, boost_active.
  destruct (multitap_until gu) as [mt|], (autotap_until gu) as [a|];
    repeat match goal with
           | |- context [?x <? ?y] => destruct (x <? y)
           end; reflexivity.
Qed.

Lemma tap_apply_accepted (c : Z) (nonce : string) (now : Z) (st : state) :
  let gu := (get_game_user c now st).1 in
  1 ≤ (compute_energy now gu).1 →
  let out := tap_apply c nonce now st in
  game_taps out.2
  = game_taps st ++ [{| tap_chat_id := c; tap_ts := now;
                        tap_delta := 1 * boost_multiplier now gu;
                        tap_nonce := nonce |}]
  ∧ game_users out.2 !! c = Some (tapped_row now gu)
  ∧ out.1 = {| ok := true; error := None;
               r_coins := Some (int_or (coins (tapped_row now gu)) 0);
               r_energy := Some (compute_energy now (tapped_row now gu)).1;
               r_max_energy := Some (int_or (max_energy gu) 500);
               r_daily_streak := None |}.
Proof.
  intros gu He out. subst gu out. unfold tap_apply, tapped_row.
  pose proof (get_game_user_row c now st) as Hrow.
  pose proof (get_game_user_keeps_local c now st) as (_ & _ & Htaps).
  destruct (get_game_user c now st) as [gu st1]. cbn [fst snd] in *.
  destruct (compute_energy now gu) as [e ts] eqn:Hce. cbn [fst snd] in *.
  rewrite (proj2 (Z.ltb_ge e 1)) by lia.
  destruct (streak_update (date_of now) gu true) as [ns sd] eqn:Hsu.
  cbn [fst snd].
  set (row := set_streak ns sd (set_energy (e - 1) ts
                (set_last_tap_at now
                   (set_coins (default 0 (coins gu)
                               + 1 * boost_multiplier now gu) gu)))).
  set (st3 := update_game_user_fields c (set_streak ns sd) _).
  assert (Hrow3 : game_users st3 !! c = Some row).
  { cbv [st3 update_game_user_fields add_tap set_game_users set_game_taps
         game_users].
    rewrite !lookup_alter_eq. fold (game_users st1). rewrite Hrow. done. }
  rewrite (get_game_user_existing c now st3 row Hrow3).
  destruct (compute_energy now row) as [e2 ts2]. cbn [fst snd].
  split; [|split; [done|done]].
  cbv [st3 update_game_user_fields add_tap set_game_users set_game_taps
       game_taps].
  fold (game_taps st1). by rewrite Htaps.
Qed.

(** C6.  The multiplier is the larger of what the two timed boosts grant,
    each granting 2 while its expiry is strictly after [now] and 1
    otherwise; so it is 2 as soon as one boost is active, still 2 (not 4)
    when both are, and 1 when none is.  An accepted tap appends one event
    whose [delta] is this multiplier and adds it to the coins. *)
Theorem boost_multiplier_no_stacking :
  (∀ (now : Z) (gu : game_user),
      let m := boost_multiplier now gu in
      let mt := boost_active now (multitap_until gu) in
      let a := boost_active now (autotap_until gu) in
      1 ≤ m
      ∧ m = Z.max (granted_multiplier now (multitap_until gu))
                  (granted_multiplier now (autotap_until gu))
      ∧ m = (if mt || a then 2 else 1)
      ∧ (mt = true → a = true → m = 2)
      ∧ (mt = false → a = false → m = 1))
  ∧ (∀ (ord : set_listing) (c : Z) (nonce : string) (mono now : Z)
       (st : state) (gu : game_user),
        let out := api_tap ord (Some c) nonce mono now st in
        let m := boost_multiplier now gu in
        is_registered c st = true →
        (can_tap_now mono c (_rate_windows st)).1 = true →
        bad_nonce nonce = false →
        nonce ∉ nonces_of c (_recent_nonces st) →
        game_users st !! c = Some gu →
        1 ≤ (compute_energy now gu).1 →
        ok out.1 = true
        ∧ game_taps out.2
          = game_taps st ++ [{| tap_chat_id := c; tap_ts := now;
                                tap_delta := m; tap_nonce := nonce |}]
        ∧ r_coins out.1 = Some (default 0 (coins gu) + m)
        ∧ coins <$> game_users out.2 !! c
          = Some (Some (default 0 (coins gu) + m))).
Proof.
  split.
  - intros now gu m mt a. subst m mt a. rewrite boost_multiplier_eq.
    unfold granted_multiplier.
    destruct (boost_active now (multitap_until gu)),
             (boost_active now (autotap_until gu)); cbn [orb];
      repeat split; try lia; try done.
  - intros ord c nonce mono now st gu out m Hreg Hrate Hbad Hnew Hg He.
    subst out. rewrite api_tap_gates by done. cbn zeta.
    rewrite Hrate, Hbad, bool_decide_eq_false_2 by done. cbn [negb].
    set (st2 := set_recent_nonces _ _).
    assert (Hg2 : game_users st2 !! c = Some gu) by done.
    pose proof (tap_apply_accepted c nonce now st2) as Hacc.
    rewrite (get_game_user_existing c now st2 gu Hg2) in Hacc.
    cbn [fst] in Hacc. destruct (Hacc He) as (Htaps & Hrow & Hresp).
    rewrite Hresp, Htaps, Hrow. cbn [ok r_coins fmap option_fmap option_map].
    unfold tapped_row. cbn [coins set_streak set_energy set_last_tap_at set_coins].
    rewrite int_or_some_idem by done. fold m.
    rewrite Z.mul_1_l. done.
Qed.

Lemma boost_multiplier_no_stacking_witness :
  let T := 1700000000000000 in
  let gu := set_autotap_until (T + timedelta_minutes 1)
              (set_multitap_until (T + timedelta_minutes 1)
                 (new_game_user T)) in
  let st := set_game_users {[ 7 := gu ]} (two_player_state T) in
  game_taps (api_tap elements_listing (Some 7) "abc" 5 T st).2
  = [{| tap_chat_id := 7; tap_ts := T; tap_delta := 2; tap_nonce := "abc" |}].
Proof.
  intros T gu st.
  destruct boost_multiplier_no_stacking as [_ Htap].
  destruct (Htap elements_listing 7 "abc" 5 T st gu) as (_ & Htaps & _).
  - vm_compute. reflexivity.
  - vm_compute. reflexivity.
  - vm_compute. reflexivity.
  - vm_compute. set_solver.
  - vm_compute. reflexivity.
  - vm_compute. congruence.
  - rewrite Htaps. vm_compute. reflexivity.
Defined.

(** ** The energy invariant under a clock that does not run backwards *)

Lemma row_ok_new (now : Z) : row_ok now (new_game_user now).
Proof. split; [done|]. exists now. done. Qed.

Lemma row_ok_later (now now' : Z) (gu : game_user) :
  now ≤ now' → row_ok now gu → row_ok now' gu.
Proof.
  intros Hle [Hb (last & Hl & Hlast)]. split; [done|].
  exists last. split; [done|lia].
Qed.

(** What [api_state] stores. *)
Lemma row_ok_state (now : Z) (gu : game_user) :
  row_ok now gu →
  row_ok now (set_energy (compute_energy now gu).1 (compute_energy now gu).2 gu).
Proof.
  intros [Hb (last & Hl & Hlast)].
  destruct (compute_energy_bounds now last gu Hl Hlast Hb) as [He Hts].
  split.
  - cbn [set_energy energy max_energy]. rewrite int_or_some_idem by done. lia.
  - eexists. split; [reflexivity|done].
Qed.

(** What an accepted tap stores. *)
Lemma row_ok_tapped (now : Z) (gu : game_user) :
  row_ok now gu → 1 ≤ (compute_energy now gu).1 →
  row_ok now (tapped_row now gu).
Proof.
  intros [Hb (last & Hl & Hlast)] Hpos.
  destruct (compute_energy_bounds now last gu Hl Hlast Hb) as [He Hts].
  unfold tapped_row. split.
  - cbn [set_streak set_energy set_last_tap_at set_coins energy max_energy].
    rewrite int_or_some_idem by done. lia.
  - eexists. split; [reflexivity|done].
Qed.

(** What a bought upgrade stores. *)
Lemma row_ok_upgraded (now c : Z) (gu : game_user) :
  row_ok now gu →
  row_ok now (set_max_energy (int_or (max_energy gu) 500 + 100)
                (set_coins c gu)).
Proof.
  intros [Hb Hl]. split; [|done].
  cbn [set_max_energy set_coins energy max_energy].
  unfold int_or at 3.
  destruct (Z.eqb_spec (int_or (max_energy gu) 500 + 100) 0); lia.
Qed.

(** ** The permanent upgrade *)

(** Whenever the coins suffice, [activate_boost(chat_id, "maxenergy")]
    raises the maximum by 100, whatever the maximum already is. *)
Lemma activate_maxenergy_adds (c now : Z) (st : state) (gu : game_user) :
  game_users st !! c = Some gu → 2500 ≤ int_or (coins gu) 0 →
  let out := activate_boost c "maxenergy" now st in
  out.1 = (true, "Max energy increased by +100!")
  ∧ game_users out.2 !! c
    = Some (set_max_energy (int_or (max_energy gu) 500 + 100)
              (set_coins (int_or (coins gu) 0 - 2500) gu)).
Proof.
  intros Hg Hc. cbn zeta. unfold activate_boost.
  rewrite (get_game_user_existing c now st gu Hg).
  rewrite decide_False, decide_False, decide_True by done.
  rewrite (proj2 (Z.ltb_ge _ _)) by lia. cbn [fst snd].
  split; [done|]. cbv [update_game_user_fields set_game_users game_users].
  rewrite lookup_alter_eq. fold (game_users st). by rewrite Hg.
Qed.

(** The upgrade changes the coins and the maximum only: the multiplier of
    the account is what it was. *)
Lemma maxenergy_no_multiplier (now m c : Z) (gu : game_user) :
  boost_multiplier now (set_max_energy m (set_coins c gu))
  = boost_multiplier now gu.
Proof. reflexivity. Qed.

(** C7, as stated, fails: the upgrade is not limited to one purchase.
    Player 7 of [two_player_state] holds 5000 coins and the initial
    maximum 500.  Two activations of "maxenergy" both succeed, and the
    maximum is 600 after the first and 700 after the second: the upgrade
    takes effect each time it is bought. *)
Theorem maxenergy_upgrade_repeats :
  let T := 1700000000000000 in
  let first := activate_boost 7 "maxenergy" T (two_player_state T) in
  let second := activate_boost 7 "maxenergy" T first.2 in
  first.1 = (true, "Max energy increased by +100!")
  ∧ max_energy <$> game_users first.2 !! 7 = Some (Some 600)
  ∧ second.1 = (true, "Max energy increased by +100!")
  ∧ max_energy <$> game_users second.2 !! 7 = Some (Some 700)
  ∧ coins <$> game_users second.2 !! 7 = Some (Some 0).
Proof.
  vm_compute. repeat split.
Qed.

(** ** Streaks *)

(** C8.  On a tap, [streak_update] adds 1 to the streak when the last
    credited date is the day before [today], leaves it when that date is
    [today], and sets it to 1 otherwise (a date two or more days back, any
    other date, or none); the date returned is [today].  With the result
    stored, a second tap on the same day returns the same streak.  Without
    a tap the streak is returned as it is. *)
Theorem streak_update_cases (today : Z) (gu : game_user) :
  let streak := int_or (daily_streak gu) 0 in
  (last_streak_at gu = Some (today - 1) →
     streak_update today gu true = (streak + 1, today))
  ∧ (last_streak_at gu = Some today →
       streak_update today gu true = (streak, today))
  ∧ (last_streak_at gu ≠ Some (today - 1) → last_streak_at gu ≠ Some today →
       streak_update today gu true = (1, today))
  ∧ (∀ d, last_streak_at gu = Some d → d ≤ today - 2 →
       streak_update today gu true = (1, today))
  ∧ (last_streak_at gu = None → streak_update today gu true = (1, today))
  ∧ (streak_update today gu true).2 = today
  ∧ (let r := streak_update today gu true in
     streak_update today (set_streak r.1 r.2 gu) true = r)
  ∧ (streak_update today gu false).1 = streak.
Proof.
  intros streak. unfold streak_update. fold streak. cbn [negb].
  repeat split.
  - intros ->. by rewrite decide_True.
  - intros ->. rewrite decide_False by (intros [=]; lia).
    by rewrite decide_True.
  - intros H1 H2. by rewrite !decide_False.
  - intros d -> Hd. by rewrite !decide_False by (intros [=]; lia).
  - intros ->. by rewrite !decide_False.
  - repeat case_decide; done.
  - cbn zeta.
    assert (Hs : ∀ s, streak_update today (set_streak s today gu) true
                      = (s, today)).
    { intros s. unfold streak_update. cbn [set_streak last_streak_at daily_streak negb].
      rewrite decide_False by (intros [=]; lia).
      rewrite decide_True by done. by rewrite int_or_some_idem. }
    assert (Hd : (streak_update today gu true).2 = today).
    { unfold streak_update. cbn [negb]. repeat case_decide; done. }
    change (streak_update today
              (set_streak (streak_update today gu true).1
                          (streak_update today gu true).2 gu) true
            = streak_update today gu true).
    destruct (streak_update today gu true) as [s d]. cbn [fst snd] in *.
    subst d. apply Hs.
Qed.

Lemma streak_update_cases_witness :
  streak_update 19675 (set_streak 4 19674 (new_game_user 1700000000000000)) true
  = (5, 19675)
  ∧ streak_update 19675 (set_streak 4 19672 (new_game_user 1700000000000000)) true
    = (1, 19675).
Proof.
  split.
  - destruct (streak_update_cases 19675
                (set_streak 4 19674 (new_game_user 1700000000000000)))
      as (Hyesterday & _).
    apply Hyesterday. reflexivity.
  - destruct (streak_update_cases 19675
                (set_streak 4 19672 (new_game_user 1700000000000000)))
      as (_ & _ & _ & Hgap & _).
    apply (Hgap 19672); [reflexivity|lia].
Defined.

(** ** The leaderboard *)

Global Instance score_ge_total (pg : bool) : Total (score_ge pg).
Proof.
  intros [x|] [y|]; unfold score_ge; destruct pg; try lia; auto.
Qed.

Global Instance row_ge_total (pg : bool) : Total (row_ge pg).
Proof. intros r1 r2. apply score_ge_total. Qed.

Lemma HdRel_take {A} (R : relation A) (x : A) (l : list A) (n : nat) :
  HdRel R x l → HdRel R x (take n l).
Proof. destruct 1, n; simpl; by constructor. Qed.

Lemma Sorted_take {A} (R : relation A) (l : list A) (n : nat) :
  Sorted R l → Sorted R (take n l).
Proof.
  intros Hs. revert n. induction Hs as [|x l Hs IH Hhd]; intros [|n]; simpl;
    try constructor; auto using HdRel_take.
Qed.

(** The rows a query ranks, before ORDER BY and LIMIT. *)
Lemma leaderboard_shape (pg : bool) (range_ : string) (limit : nat) (now : Z)
    (st : state) :
  ∃ rows,
    leaderboard pg range_ limit now st
    = take limit (merge_sort (row_ge pg) rows)
    ∧ NoDup (lb_chat_id <$> rows)
    ∧ (range_ = "all" →
         rows = (λ kv, {| lb_username := username_of kv.1 st;
                          lb_chat_id := kv.1; lb_score := coins kv.2 |})
                  <$> map_to_list (game_users st))
    ∧ (range_ ≠ "all" →
         let since := now - timedelta_days
                              (if decide (range_ = "day") then 1 else 7) in
         let taps := taps_since since (game_taps st) in
         rows = (λ c, {| lb_username := username_of c st; lb_chat_id := c;
                         lb_score := Some (sum_delta c taps) |})
                  <$> remove_dups (tap_chat_id <$> taps)).
Proof.
  unfold leaderboard. destruct (decide (range_ = "all")) as [Hall|Hwin].
  - eexists. split; [reflexivity|]. split; [|split; [done|done]].
    rewrite <- list_fmap_compose.
    change (NoDup ((map_to_list (game_users st)).*1)).
    apply NoDup_fst_map_to_list.
  - eexists. split; [reflexivity|]. split; [|split; [done|]].
    + rewrite <- list_fmap_compose.
      rewrite (list_fmap_ext _ id) by done.
      rewrite list_fmap_id. apply NoDup_remove_dups.
    + intros _. cbn zeta. by destruct (decide (range_ = "day")).
Qed.

Lemma ranked_elem_of (pg : bool) (limit : nat) (rows : list lb_row) (r : lb_row) :
  r ∈ take limit (merge_sort (row_ge pg) rows) → r ∈ rows.
Proof.
  intros Hr. apply subseteq_take in Hr.
  by rewrite merge_sort_Permutation in Hr.
Qed.

Lemma ranked_props (pg : bool) (limit : nat) (rows : list lb_row) :
  NoDup (lb_chat_id <$> rows) →
  let res := take limit (merge_sort (row_ge pg) rows) in
  (length res ≤ limit)%nat
  ∧ Sorted (row_ge pg) res
  ∧ NoDup (lb_chat_id <$> res)
  ∧ ((length rows ≤ limit)%nat → res ≡ₚ rows).
Proof.
  intros Hnd res. subst res. repeat split.
  - rewrite length_take. lia.
  - apply Sorted_take, Sorted_merge_sort. apply _.
  - rewrite fmap_take. eapply sublist_NoDup; [|apply sublist_take].
    by rewrite merge_sort_Permutation.
  - intros Hlen. rewrite take_ge; [apply merge_sort_Permutation|].
    by rewrite merge_sort_Permutation.
Qed.

Lemma taps_since_old (since : Z) (taps : list tap) (t : tap) :
  tap_ts t < since → taps_since since (taps ++ [t]) = taps_since since taps.
Proof.
  intros Hold. unfold taps_since. rewrite List.filter_app. simpl.
  rewrite (proj2 (Z.leb_gt _ _)) by done. apply app_nil_r.
Qed.

Lemma leaderboard_window_old_tap (pg : bool) (range_ : string) (limit : nat)
    (now : Z) (st : state) (c delta : Z) (nonce : string) (t : Z) :
  range_ ≠ "all" →
  t < now - timedelta_days (if decide (range_ = "day") then 1 else 7) →
  leaderboard pg range_ limit now (add_tap c delta nonce t st)
  = leaderboard pg range_ limit now st.
Proof.
  intros Hr Hold. unfold leaderboard.
  destruct (decide (range_ = "all")); [done|].
  cbv [add_tap update_game_user_fields set_game_users set_game_taps game_taps
       username_of users].
  fold (game_taps st). fold (users st).
  destruct (decide (range_ = "day"));
    by rewrite taps_since_old by (cbn [tap_ts]; lia).
Qed.

Lemma leaderboard_all_after_tap (pg : bool) (limit : nat) (now : Z)
    (st : state) (c delta : Z) (nonce : string) (t : Z) (g : game_user)
    (r : lb_row) :
  game_users st !! c = Some g →
  r ∈ leaderboard pg "all" limit now (add_tap c delta nonce t st) →
  lb_chat_id r = c →
  lb_score r = Some (default 0 (coins g) + delta).
Proof.
  intros Hg Hr Hc. unfold leaderboard in Hr. rewrite decide_True in Hr by done.
  apply ranked_elem_of, list_elem_of_fmap in Hr as ([k v] & -> & Hkv).
  apply elem_of_map_to_list in Hkv. cbn [fst snd lb_chat_id lb_score] in *.
  subst k. revert Hkv.
  cbv [add_tap update_game_user_fields set_game_users set_game_taps game_users].
  fold (game_users st). rewrite lookup_alter_eq, Hg.
  intros [= <-]. done.
Qed.

Global Instance score_ge_trans (pg : bool) : Transitive (score_ge pg).
Proof.
  intros [x|] [y|] [z|]; unfold score_ge; destruct pg; try lia; try done.
Qed.

Global Instance row_ge_trans (pg : bool) : Transitive (row_ge pg).
Proof. intros r1 r2 r3. apply score_ge_trans. Qed.

(** In a sorted list an earlier entry is related to every later one. *)
Lemma Sorted_lookup_rel {A} (R : relation A) `{!Transitive R} (l : list A)
    (i j : nat) (x y : A) :
  Sorted R l → (i < j)%nat → l !! i = Some x → l !! j = Some y → R x y.
Proof.
  intros Hs Hij Hi Hj. apply Sorted_StronglySorted in Hs; [|done].
  rewrite <- (take_drop_middle l j y Hj) in Hs.
  eapply StronglySorted_app_1_elem_of; [exact Hs| |by left].
  apply elem_of_take. eauto.
Qed.

(** The sum the windowed query computes for an account is the score of
    the specification. *)
Lemma sum_delta_spec_window_score (now days c : Z) (events : list tap) :
  sum_delta c (taps_since (now - timedelta_days days) events)
  = spec_window_score now days c events.
Proof.
  unfold sum_delta, taps_since.
  induction events as [|e rest IH]; [done|]. cbn [List.filter spec_window_score].
  rewrite <- IH. clear IH.
  destruct (Z.leb_spec (now - timedelta_days days) (tap_ts e)) as [Hin|Hout].
  - cbn [List.filter]. destruct (Z.eqb_spec (tap_chat_id e) c) as [Hc|Hc].
    + rewrite bool_decide_eq_true_2 by done. done.
    + rewrite bool_decide_eq_false_2 by (intros [? _]; done). done.
  - rewrite bool_decide_eq_false_2 by (intros [_ ?]; lia). done.
Qed.

(** What ORDER BY and LIMIT keep: a row of the query is in the result, or
    the result is full and every row in it ranks at least as high. *)
Lemma ranked_top (pg : bool) (limit : nat) (rows : list lb_row) (x : lb_row) :
  x ∈ rows →
  let res := take limit (merge_sort (row_ge pg) rows) in
  x ∈ res ∨ (length res = limit ∧ ∀ r, r ∈ res → row_ge pg r x).
Proof.
  intros Hx res. subst res.
  pose proof (Sorted_merge_sort (row_ge pg) rows) as Hs.
  apply Sorted_StronglySorted in Hs; [|apply _].
  rewrite <- (merge_sort_Permutation (row_ge pg) rows) in Hx.
  revert Hx Hs. generalize (merge_sort (row_ge pg) rows). intros s Hx Hs.
  rewrite <- (take_drop limit s) in Hx, Hs.
  apply elem_of_app in Hx as [Hx|Hx]; [by left|right]. split.
  - rewrite length_take. destruct (decide (limit ≤ length s)%nat); [lia|].
    rewrite drop_ge in Hx by lia. by apply elem_of_nil in Hx.
  - intros r Hr. by eapply StronglySorted_app_1_elem_of.
Qed.

(** C9.  Every leaderboard has at most [limit] rows, at most one per
    account, in descending order of score: an earlier row never has a
    smaller score than a later one.  In scope "all" each row shows the
    coins and the name of an account of [game_users], and every account
    is listed unless the result is full with rows that rank at least as
    high.  In the scopes "day" and "week" (any scope other than "all" and
    "day" is a week) each row shows, for an account that has an event in
    the window, the score of the specification: the sum of the [delta] of
    its events whose time is not before [now] minus 1 day, respectively 7
    days; and every account with an event in the window is listed with
    that score unless the result is full with scores at least as large.
    The handler asks for 50 rows.  After an event older than the window
    is logged, the windowed scores are still the sums over the log
    without it, while its [delta] is part of the coins that the all-time
    ranking shows. *)
Theorem leaderboard_ranking :
  (∀ (pg : bool) (range_ : string) (limit : nat) (now : Z) (st : state),
      let res := leaderboard pg range_ limit now st in
      (length res ≤ limit)%nat
      ∧ Sorted (row_ge pg) res
      ∧ NoDup (lb_chat_id <$> res)
      ∧ ∀ i j r1 r2 x y,
          (i < j)%nat → res !! i = Some r1 → res !! j = Some r2 →
          lb_score r1 = Some x → lb_score r2 = Some y → y ≤ x)
  ∧ (∀ (pg : bool) (limit : nat) (now : Z) (st : state),
        let res := leaderboard pg "all" limit now st in
        (∀ r, r ∈ res →
           ∃ g, game_users st !! lb_chat_id r = Some g
                ∧ lb_score r = coins g
                ∧ lb_username r = username_of (lb_chat_id r) st)
        ∧ (∀ c g, game_users st !! c = Some g →
             (∃ r, r ∈ res ∧ lb_chat_id r = c ∧ lb_score r = coins g)
             ∨ (length res = limit
                ∧ ∀ r, r ∈ res → score_ge pg (lb_score r) (coins g))))
  ∧ (∀ (pg : bool) (range_ : string) (limit : nat) (now : Z) (st : state),
        range_ ≠ "all" →
        let days := if decide (range_ = "day") then 1 else 7 in
        let res := leaderboard pg range_ limit now st in
        (∀ r, r ∈ res →
           lb_score r
           = Some (spec_window_score now days (lb_chat_id r) (game_taps st))
           ∧ lb_username r = username_of (lb_chat_id r) st
           ∧ ∃ e, e ∈ game_taps st ∧ tap_chat_id e = lb_chat_id r
                  ∧ now - timedelta_days days ≤ tap_ts e)
        ∧ (∀ e, e ∈ game_taps st → now - timedelta_days days ≤ tap_ts e →
             let total :=
               spec_window_score now days (tap_chat_id e) (game_taps st) in
             (∃ r, r ∈ res ∧ lb_chat_id r = tap_chat_id e
                   ∧ lb_score r = Some total)
             ∨ (length res = limit
                ∧ ∀ r y, r ∈ res → lb_score r = Some y → total ≤ y)))
  ∧ (∀ (pg : bool) (rng : option string) (now : Z) (st : state),
        (length (api_leaderboard pg rng now st) ≤ 50)%nat)
  ∧ (∀ (pg : bool) (range_ : string) (limit : nat) (now : Z) (st : state)
       (c delta : Z) (nonce : string) (t : Z) (r : lb_row),
        range_ ≠ "all" →
        let days := if decide (range_ = "day") then 1 else 7 in
        t < now - timedelta_days days →
        r ∈ leaderboard pg range_ limit now (add_tap c delta nonce t st) →
        lb_score r
        = Some (spec_window_score now days (lb_chat_id r) (game_taps st))
        ∧ ∃ e, e ∈ game_taps st ∧ tap_chat_id e = lb_chat_id r
               ∧ now - timedelta_days days ≤ tap_ts e)
  ∧ (∀ (pg : bool) (limit : nat) (now : Z) (st : state) (c delta : Z)
       (nonce : string) (t : Z) (g : game_user) (r : lb_row),
        game_users st !! c = Some g →
        r ∈ leaderboard pg "all" limit now (add_tap c delta nonce t st) →
        lb_chat_id r = c →
        lb_score r = Some (default 0 (coins g) + delta)).
Proof.
  assert (Hgen : ∀ pg range_ limit now st,
            let res := leaderboard pg range_ limit now st in
            (length res ≤ limit)%nat ∧ Sorted (row_ge pg) res
            ∧ NoDup (lb_chat_id <$> res)).
  { intros pg range_ limit now st.
    destruct (leaderboard_shape pg range_ limit now st) as (rows & -> & Hnd & _).
    destruct (ranked_props pg limit rows Hnd) as (? & ? & ? & _). done. }
  assert (Hwin : ∀ pg range_ limit now st r,
            range_ ≠ "all" →
            let days := if decide (range_ = "day") then 1 else 7 in
            r ∈ leaderboard pg range_ limit now st →
            lb_score r
            = Some (spec_window_score now days (lb_chat_id r) (game_taps st))
            ∧ lb_username r = username_of (lb_chat_id r) st
            ∧ ∃ e, e ∈ game_taps st ∧ tap_chat_id e = lb_chat_id r
                   ∧ now - timedelta_days days ≤ tap_ts e).
  { intros pg range_ limit now st r Hr days Hin.
    destruct (leaderboard_shape pg range_ limit now st)
      as (rows & Heq & _ & _ & Hw).
    specialize (Hw Hr). cbn zeta in Hw. fold days in Hw.
    rewrite Heq in Hin. apply ranked_elem_of in Hin. rewrite Hw in Hin.
    apply list_elem_of_fmap in Hin as (c & -> & Hc). cbn [lb_score lb_chat_id
      lb_username]. rewrite sum_delta_spec_window_score.
    split; [done|]. split; [done|].
    apply elem_of_remove_dups, list_elem_of_fmap in Hc as (e & -> & He).
    exists e. unfold taps_since in He.
    apply list_elem_of_In, List.filter_In in He as [He Hts].
    split; [by apply list_elem_of_In|]. split; [done|]. lia. }
  split; [|split; [|split; [|split; [|split]]]].
  - intros pg range_ limit now st res.
    destruct (Hgen pg range_ limit now st) as (Hlen & Hs & Hnd).
    repeat split; try done.
    intros i j r1 r2 x y Hij Hi Hj Hx Hy.
    pose proof (Sorted_lookup_rel (row_ge pg) res i j r1 r2 Hs Hij Hi Hj) as Hge.
    unfold row_ge in Hge. by rewrite Hx, Hy in Hge.
  - intros pg limit now st res. subst res.
    destruct (leaderboard_shape pg "all" limit now st)
      as (rows & Heq & Hnd & Hall & _).
    specialize (Hall eq_refl). rewrite Heq. split.
    + intros r Hr. apply ranked_elem_of in Hr. rewrite Hall in Hr.
      apply list_elem_of_fmap in Hr as ([k g] & -> & Hkv).
      apply elem_of_map_to_list in Hkv. exists g. done.
    + intros c g Hg.
      set (x := {| lb_username := username_of c st; lb_chat_id := c;
                   lb_score := coins g |}).
      assert (Hx : x ∈ rows).
      { rewrite Hall. apply list_elem_of_fmap. exists (c, g).
        split; [done|]. by apply elem_of_map_to_list. }
      destruct (ranked_top pg limit rows x Hx) as [Hin|[Hfull Htop]].
      * left. exists x. done.
      * right. split; [done|]. intros r Hr. apply (Htop r Hr).
  - intros pg range_ limit now st Hr days res. split.
    + intros r Hin. by apply (Hwin pg range_ limit now st r Hr).
    + intros e He Hts total.
      destruct (leaderboard_shape pg range_ limit now st)
        as (rows & Heq & _ & _ & Hw).
      specialize (Hw Hr). cbn zeta in Hw. fold days in Hw.
      set (x := {| lb_username := username_of (tap_chat_id e) st;
                   lb_chat_id := tap_chat_id e; lb_score := Some total |}).
      assert (Hx : x ∈ rows).
      { rewrite Hw. apply list_elem_of_fmap. exists (tap_chat_id e). split.
        - unfold x, total. by rewrite sum_delta_spec_window_score.
        - apply elem_of_remove_dups, list_elem_of_fmap. exists e.
          split; [done|]. unfold taps_since.
          apply list_elem_of_In, List.filter_In.
          split; [by apply list_elem_of_In|]. by apply Z.leb_le. }
      subst res. rewrite Heq.
      destruct (ranked_top pg limit rows x Hx) as [Hin|[Hfull Htop]].
      * left. exists x. done.
      * right. split; [done|]. intros r y Hin Hy.
        specialize (Htop r Hin). unfold row_ge in Htop.
        by rewrite Hy in Htop.
  - intros pg rng now st. unfold api_leaderboard. apply Hgen.
  - intros pg range_ limit now st c delta nonce t r Hr days Hold Hin.
    rewrite (leaderboard_window_old_tap pg range_ limit now st c delta nonce t)
      in Hin by done.
    destruct (Hwin pg range_ limit now st r Hr Hin) as (Hs & _ & He). done.
  - exact leaderboard_all_after_tap.
Qed.

Lemma leaderboard_ranking_witness :
  let T := 1700000000000000 in
  ∃ r, r ∈ leaderboard false "day" 50 T (old_and_new_taps T)
       ∧ lb_chat_id r = 8 ∧ lb_score r = Some 1.
Proof.
  intros T.
  destruct leaderboard_ranking as (_ & _ & Hwin & _).
  destruct (Hwin false "day" 50%nat T (old_and_new_taps T)) as [_ Hlisted];
    [discriminate|].
  destruct (Hlisted {| tap_chat_id := 8; tap_ts := T; tap_delta := 1;
                       tap_nonce := "new" |}) as [Hin|[Hfull _]].
  - vm_compute. apply list_elem_of_In. right. left. reflexivity.
  - vm_compute. discriminate.
  - exact Hin.
  - vm_compute in Hfull. discriminate Hfull.
Defined.

(** ** The bound on the nonce cache *)

Lemma to_list_NoDup (ord : set_listing) (s : gset string) :
  NoDup (to_list ord s).
Proof. rewrite to_list_perm. apply NoDup_elements. Qed.

Lemma to_list_length (ord : set_listing) (s : gset string) :
  length (to_list ord s) = size s.
Proof. by rewrite to_list_perm. Qed.

Lemma elem_of_to_list (ord : set_listing) (s : gset string) (x : string) :
  x ∈ to_list ord s ↔ x ∈ s.
Proof. rewrite to_list_perm. apply elem_of_elements. Qed.

Lemma last_n_sublist {A} (n : nat) (l : list A) : last_n n l `sublist_of` l.
Proof. apply sublist_drop. Qed.

Lemma length_last_n {A} (n : nat) (l : list A) :
  length (last_n n l) = Nat.min n (length l).
Proof. unfold last_n. rewrite length_drop. lia. Qed.

(** What [_clean_old_nonces] keeps of a cache of more than 200 nonces:
    exactly 100 of them. *)
Lemma trimmed_cache (ord : set_listing) (s : gset string) :
  (200 < size s)%nat →
  let kept : gset string := list_to_set (last_n 100 (to_list ord s)) in
  size kept = 100%nat ∧ kept ⊆ s.
Proof.
  intros Hsz kept. subst kept. split.
  - rewrite size_list_to_set.
    + rewrite length_last_n, to_list_length. lia.
    + eapply sublist_NoDup; [apply to_list_NoDup|apply last_n_sublist].
  - intros x Hx. apply elem_of_list_to_set in Hx.
    apply (elem_of_to_list ord).
    eapply elem_of_sublist; [exact Hx|apply last_n_sublist].
Qed.

Lemma clean_old_nonces_cases (ord : set_listing) (c : Z)
    (rn : gmap Z (gset string)) :
  let s := nonces_of c rn in
  let s' := nonces_of c (_clean_old_nonces ord c rn) in
  (size s' ≤ 200)%nat
  ∧ s' ⊆ s
  ∧ ((200 < size s)%nat →
       size s' = 100%nat ∧ s' = list_to_set (last_n 100 (to_list ord s)))
  ∧ ((size s ≤ 200)%nat → _clean_old_nonces ord c rn = rn).
Proof.
  intros s s'. subst s'. rewrite nonces_of_clean. fold s.
  unfold _clean_old_nonces. fold s.
  destruct (decide (200 < size s)%nat) as [Hbig|Hsmall].
  - destruct (trimmed_cache ord s Hbig) as [Hsz Hsub].
    repeat split; try done; lia.
  - repeat split; try done; lia.
Qed.

(** With the newest nonce enumerated first, the trim drops it. *)
Lemma front_listing_drops (c : Z) (nonce : string)
    (rn : gmap Z (gset string)) :
  nonce ∉ nonces_of c rn → (200 ≤ size (nonces_of c rn))%nat →
  nonce ∉ nonces_of c
            (_clean_old_nonces (front_listing nonce) c (add_nonce c nonce rn)).
Proof.
  intros Hnew Hsz. rewrite nonces_of_clean, nonces_of_add.
  set (s := nonces_of c rn) in *.
  assert (Hsize : size ({[nonce]} ∪ s) = S (size s)).
  { rewrite size_union by set_solver. by rewrite size_singleton. }
  rewrite decide_True by lia.
  cbn [to_list front_listing]. rewrite decide_True by set_solver.
  intros Hin. apply elem_of_list_to_set in Hin.
  unfold last_n in Hin. cbn [length] in Hin.
  assert (Hlen : length (elements (({[nonce]} ∪ s) ∖ {[nonce]})) = size s).
  { replace (({[nonce]} ∪ s) ∖ {[nonce]}) with s by set_solver. done. }
  rewrite Hlen in Hin.
  replace (S (size s) - 100)%nat with (S (size s - 100)) in Hin by lia.
  cbn [drop] in Hin.
  apply (subseteq_drop _ _ nonce) in Hin.
  apply elem_of_elements in Hin. set_solver.
Qed.

Lemma api_tap_nonces (ord : set_listing) (auth : option Z) (nonce : string)
    (mono now : Z) (st : state) :
  let out := api_tap ord auth nonce mono now st in
  _recent_nonces out.2 = _recent_nonces st
  ∨ (∃ c, auth = Some c
          ∧ (nonce ∉ nonces_of c (_recent_nonces st))
          ∧ _recent_nonces out.2
            = _clean_old_nonces ord c
                (add_nonce c nonce (_recent_nonces st))).
Proof.
  intros out. subst out. destruct auth as [c|]; [|by left].
  destruct (is_registered c st) eqn:Hreg.
  2: { left. unfold api_tap. by rewrite Hreg. }
  rewrite api_tap_gates by done. cbn zeta.
  destruct (can_tap_now mono c (_rate_windows st)) as [[] rw];
    cbn [fst snd negb]; [|by left].
  destruct (bad_nonce nonce); [by left|].
  case_bool_decide as Hseen; [by left|].
  right. exists c.
  set (st2 := set_recent_nonces _ _).
  destruct (tap_apply_keeps_local c nonce now st2) as (Hn & _ & _).
  split; [done|]. split; [done|]. by rewrite Hn.
Qed.

(** C10.  [_clean_old_nonces] leaves a cache of at most 200 nonces as it
    is and replaces a larger one by the last 100 nonces of its enumeration,
    so the result never holds more than 200.  A tap request either leaves
    every cache alone or adds its nonce to the cache of its account and
    trims that cache; the result depends on the cache, the nonce and the
    enumeration only, not on any clock reading, and it holds at most 200
    nonces (exactly 100 when the insertion made it exceed 200).  Which
    nonces survive a trim is decided by the enumeration: with the newest
    nonce enumerated first, the nonce just recorded is dropped, and
    submitting it again at once is not blocked as a replay. *)
Theorem nonce_cache_bounded :
  (∀ (ord : set_listing) (c : Z) (rn : gmap Z (gset string)),
      let s := nonces_of c rn in
      let s' := nonces_of c (_clean_old_nonces ord c rn) in
      (size s' ≤ 200)%nat
      ∧ s' ⊆ s
      ∧ ((200 < size s)%nat →
           size s' = 100%nat
           ∧ s' = list_to_set (last_n 100 (to_list ord s)))
      ∧ ((size s ≤ 200)%nat → _clean_old_nonces ord c rn = rn))
  ∧ (∀ (ord : set_listing) (auth : option Z) (nonce : string) (mono now : Z)
       (st : state),
        let out := api_tap ord auth nonce mono now st in
        _recent_nonces out.2 = _recent_nonces st
        ∨ (∃ c, auth = Some c
                ∧ _recent_nonces out.2
                  = _clean_old_nonces ord c
                      (add_nonce c nonce (_recent_nonces st))
                ∧ (size (nonces_of c (_recent_nonces out.2)) ≤ 200)%nat
                ∧ ((200 ≤ size (nonces_of c (_recent_nonces st)))%nat →
                     size (nonces_of c (_recent_nonces out.2)) = 100%nat)))
  ∧ (∀ (c : Z) (nonce : string) (rn : gmap Z (gset string)),
        nonce ∉ nonces_of c rn →
        (200 ≤ size (nonces_of c rn))%nat →
        nonce ∉ nonces_of c
                  (_clean_old_nonces (front_listing nonce) c
                     (add_nonce c nonce rn)))
  ∧ (∀ (c : Z) (nonce : string) (mono now mono2 now2 : Z) (st : state),
        let out := api_tap (front_listing nonce) (Some c) nonce mono now st in
        let again :=
          api_tap (front_listing nonce) (Some c) nonce mono2 now2 out.2 in
        is_registered c st = true →
        (can_tap_now mono c (_rate_windows st)).1 = true →
        bad_nonce nonce = false →
        nonce ∉ nonces_of c (_recent_nonces st) →
        (200 ≤ size (nonces_of c (_recent_nonces st)))%nat →
        (can_tap_now mono2 c (_rate_windows out.2)).1 = true →
        error out.1 ≠ Some "Replay blocked"
        ∧ error again.1 ≠ Some "Replay blocked").
Proof.
  split; [exact clean_old_nonces_cases|].
  split; [|split; [exact front_listing_drops|]].
  - intros ord auth nonce mono now st out.
    destruct (api_tap_nonces ord auth nonce mono now st)
      as [Hsame|(c & -> & Hnew & Heq)]; [by left|].
    right. exists c. fold out in Heq. rewrite Heq.
    split; [done|]. split; [done|].
    destruct (clean_old_nonces_cases ord c
                (add_nonce c nonce (_recent_nonces st)))
      as (Hle & _ & Hbig & _).
    split; [done|]. intros Hsz. apply Hbig.
    rewrite nonces_of_add, size_union by set_solver.
    rewrite size_singleton. lia.
  - intros c nonce mono now mono2 now2 st out again
      Hreg Hrate Hbad Hnew Hsz Hrate2.
    assert (Hout : out = api_tap (front_listing nonce) (Some c) nonce mono now st)
      by done.
    rewrite api_tap_gates in Hout by done. cbn zeta in Hout.
    rewrite Hrate, Hbad, bool_decide_eq_false_2 in Hout by done.
    cbn [negb] in Hout.
    set (st2 := set_recent_nonces _ _) in Hout.
    pose proof (tap_apply_keeps_local c nonce now st2) as (Hn & _ & Hr).
    pose proof (tap_apply_outcome c nonce now st2) as Hres.
    rewrite <- Hout in Hn, Hr, Hres. cbn zeta in Hres.
    split.
    { destruct Hres as [[_ ->]|[_ ->]]; discriminate. }
    assert (Hdropped : nonce ∉ nonces_of c (_recent_nonces out.2)).
    { rewrite Hn. by apply front_listing_drops. }
    assert (Hagain : again
              = api_tap (front_listing nonce) (Some c) nonce mono2 now2 out.2)
      by done.
    rewrite api_tap_gates in Hagain by (by rewrite Hr). cbn zeta in Hagain.
    rewrite Hrate2, Hbad, bool_decide_eq_false_2 in Hagain by done.
    cbn [negb] in Hagain. rewrite Hagain.
    destruct (tap_apply_outcome c nonce now2
                (set_recent_nonces
                   (_clean_old_nonces (front_listing nonce) c
                      (add_nonce c nonce (_recent_nonces out.2)))
                   (set_rate_windows
                      (can_tap_now mono2 c (_rate_windows out.2)).2 out.2)))
      as [[_ ->]|[_ ->]]; discriminate.
Qed.

Lemma nonce_cache_bounded_witness :
  "fresh!" ∉ nonces_of 7
    (_clean_old_nonces (front_listing "fresh!") 7
       (add_nonce 7 "fresh!" {[ 7 := sample_cache ]})).
Proof.
  destruct nonce_cache_bounded as (_ & _ & Hdrop & _).
  apply Hdrop.
  - eapply bool_decide_unpack. vm_compute. exact I.
  - eapply bool_decide_unpack. vm_compute. exact I.
Defined.

(** ** The scenarios of the specification, evaluated *)

Example replay_scenario :
  let T := 1700000000000000 in
  (api_tap elements_listing (Some 7) "abc" 5 T (two_player_state T)).1
  = {| ok := true; error := None; r_coins := Some 5001;
       r_energy := Some 499; r_max_energy := Some 500;
       r_daily_streak := None |}
  ∧ (api_tap elements_listing (Some 7) "abc" 6 T (after_first_tap T)).1
    = failure "Replay blocked"
  ∧ ok (api_tap elements_listing (Some 8) "abc" 6 T (after_first_tap T)).1
    = true.
Proof. vm_compute. repeat split. Qed.

Example boost_scenario :
  let T := 1700000000000000 in
  let boosted := set_multitap_until (T + timedelta_minutes 1) (new_game_user T) in
  boost_multiplier T boosted = 2
  ∧ boost_multiplier (T + timedelta_minutes 1) boosted = 1
  ∧ boost_multiplier T (set_autotap_until (T + 1) boosted) = 2.
Proof. vm_compute. repeat split. Qed.

Example no_energy_scenario :
  let T := 1700000000000000 in
  let out := api_tap elements_listing (Some 7) "abc" 5 T (exhausted_state T) in
  out.1 = {| ok := false; error := Some "No energy"; r_coins := Some 0;
             r_energy := Some 0; r_max_energy := Some 500;
             r_daily_streak := None |}
  ∧ game_taps out.2 = []
  ∧ game_users out.2 !! 7 = game_users (exhausted_state T) !! 7.
Proof. vm_compute. repeat split. Qed.

Example leaderboard_scenario :
  let T := 1700000000000000 in
  leaderboard false "day" 50 T (old_and_new_taps T)
  = [{| lb_username := Some "bob"; lb_chat_id := 8; lb_score := Some 1 |}]
  ∧ lb_chat_id <$> leaderboard false "week" 50 T (old_and_new_taps T)
    = [7; 8]
  ∧ leaderboard false "all" 50 T (old_and_new_taps T)
    = [{| lb_username := Some "alice"; lb_chat_id := 7;
          lb_score := Some 5001 |};
       {| lb_username := Some "bob"; lb_chat_id := 8; lb_score := Some 1 |}]
  ∧ leaderboard false "all" 1 T (old_and_new_taps T)
    = [{| lb_username := Some "alice"; lb_chat_id := 7;
          lb_score := Some 5001 |}].
Proof. vm_compute. repeat split. Qed.

(** * Further properties of the code *)

(** ** Regeneration over time *)

Lemma spec_gained_shift (now last rate g : Z) :
  1 ≤ rate →
  spec_gained now (last + g * rate * usec) rate = spec_gained now last rate - g.
Proof.
  intros Hr. unfold spec_gained.
  replace (now - (last + g * rate * usec))
    with (now - last + (- g) * (rate * usec)) by lia.
  rewrite Z.div_add by (unfold usec; lia). lia.
Qed.

Lemma spec_gained_mono (now1 now2 last rate : Z) :
  1 ≤ rate → now1 ≤ now2 →
  spec_gained now1 last rate ≤ spec_gained now2 last rate.
Proof.
  intros Hr Hle. unfold spec_gained.
  apply Z.div_le_mono; unfold usec; lia.
Qed.

(** The checkpoint that [compute_energy] returns, written without the
    case distinction: the old checkpoint plus the credited intervals. *)
Lemma spec_regenerate_checkpoint (now last rate cap stored : Z) :
  last ≤ now → 1 ≤ rate →
  (spec_regenerate now last rate cap stored).2
  = last + spec_gained now last rate * rate * usec.
Proof.
  intros Hle Hr. unfold spec_regenerate. cbn [snd].
  pose proof (gained_nonneg now last rate Hle Hr) as Hg.
  destruct (Z.ltb_spec 0 (spec_gained now last rate)); [done|].
  replace (spec_gained now last rate) with 0 by lia. lia.
Qed.

Lemma spec_gained_bound (now last rate : Z) :
  last ≤ now → 1 ≤ rate →
  spec_gained now last rate * rate * usec ≤ now - last
  ∧ now - last < (spec_gained now last rate + 1) * rate * usec.
Proof.
  intros Hle Hr. unfold spec_gained.
  assert (Hp : 0 < rate * usec) by (unfold usec; lia).
  pose proof (Z.mul_div_le (now - last) (rate * usec) Hp).
  pose proof (Z.mul_succ_div_gt (now - last) (rate * usec) Hp).
  lia.
Qed.

Lemma compute_energy_compose (now1 now2 last : Z) (gu : game_user) :
  energy_updated_at gu = Some last → last ≤ now1 → now1 ≤ now2 →
  1 ≤ int_or (regen_rate_seconds gu) 3 →
  compute_energy now2
    (set_energy (compute_energy now1 gu).1 (compute_energy now1 gu).2 gu)
  = compute_energy now2 gu.
Proof.
  intros Hl H1 H2 Hr.
  set (rate := int_or (regen_rate_seconds gu) 3) in *.
  set (cap := int_or (max_energy gu) 500).
  set (stored := int_or (energy gu) 0).
  rewrite (compute_energy_unfold now1 last gu) by done.
  rewrite (compute_energy_unfold now2 last gu) by (done || lia).
  fold rate cap stored.
  pose proof (spec_regenerate_checkpoint now1 last rate cap stored H1 Hr) as Hts.
  pose proof (spec_gained_bound now1 last rate H1 Hr) as [Hlo _].
  pose proof (gained_nonneg now1 last rate H1 Hr) as Hg1.
  pose proof (spec_gained_mono now1 now2 last rate Hr H2) as Hmono.
  assert (Hnn : 0 ≤ spec_gained now1 last rate * rate * usec)
    by (unfold usec; nia).
  rewrite (compute_energy_unfold now2
             (spec_regenerate now1 last rate cap stored).2)
    by (cbn [set_energy energy_updated_at regen_rate_seconds]; try done;
        fold rate; rewrite ?Hts; lia).
  cbn [set_energy regen_rate_seconds max_energy energy].
  fold rate cap. rewrite int_or_some_idem by done.
  apply injective_projections.
  - unfold spec_regenerate at 1 3. cbn [fst]. rewrite Hts.
    rewrite spec_gained_shift by done.
    unfold spec_regenerate. cbn [fst]. lia.
  - rewrite !spec_regenerate_checkpoint; try done; try lia.
    all: rewrite ?Hts, ?spec_gained_shift by done; lia.
Qed.

Lemma api_state_registered (c now : Z) (st : state) (gu : game_user) :
  is_registered c st = true → game_users st !! c = Some gu →
  api_state (Some c) now st
  = ({| ok := true; error := None;
        r_coins := Some (int_or (coins gu) 0);
        r_energy := Some (compute_energy now gu).1;
        r_max_energy := Some (int_or (max_energy gu) 500);
        r_daily_streak := Some (int_or (daily_streak gu) 0) |},
     update_game_user_fields c
       (set_energy (compute_energy now gu).1 (compute_energy now gu).2) st).
Proof.
  intros Hreg Hg. unfold api_state. rewrite Hreg. cbn [negb].
  rewrite (get_game_user_existing c now st gu Hg).
  by destruct (compute_energy now gu) as [e ts].
Qed.

Lemma update_game_user_fields_lookup (c : Z) (f : game_user → game_user)
    (st : state) :
  game_users (update_game_user_fields c f st) !! c = f <$> game_users st !! c.
Proof.
  cbv [update_game_user_fields set_game_users game_users].
  by rewrite lookup_alter_eq.
Qed.

Lemma update_game_user_fields_lookup_ne (c c' : Z) (f : game_user → game_user)
    (st : state) :
  c ≠ c' →
  game_users (update_game_user_fields c f st) !! c' = game_users st !! c'.
Proof.
  intros Hne. cbv [update_game_user_fields set_game_users game_users].
  by rewrite lookup_alter_ne.
Qed.

(** Two updates of the same account are one update. *)
Lemma update_game_user_fields_twice (c : Z) (f g h : game_user → game_user)
    (st : state) :
  (∀ row, game_users st !! c = Some row → g (f row) = h row) →
  update_game_user_fields c g (update_game_user_fields c f st)
  = update_game_user_fields c h st.
Proof.
  intros Hfg. unfold update_game_user_fields, set_game_users.
  cbn [game_users users game_taps _rate_windows _recent_nonces].
  f_equal. apply map_eq. intros k.
  destruct (decide (k = c)) as [->|Hne].
  - rewrite !lookup_alter_eq. destruct (game_users st !! c) eqn:Hg; [|done].
    cbn. f_equal. by apply Hfg.
  - by rewrite !lookup_alter_ne.
Qed.

(** X1.  Polling [api_state] in between changes nothing: for a registered
    account whose checkpoint is not in the future, a call at [now1]
    followed by a call at a later [now2] answers and stores exactly what a
    single call at [now2] does.  With [now2 = now1] this says that a
    repeated call at the same instant returns the same answer and leaves
    the store as the first call left it. *)
Theorem api_state_polling (c now1 now2 last : Z) (st : state)
    (gu : game_user) :
  is_registered c st = true →
  game_users st !! c = Some gu →
  energy_updated_at gu = Some last →
  last ≤ now1 → now1 ≤ now2 →
  1 ≤ int_or (regen_rate_seconds gu) 3 →
  api_state (Some c) now2 (api_state (Some c) now1 st).2
  = api_state (Some c) now2 st.
Proof.
  intros Hreg Hg Hl H1 H2 Hr.
  rewrite (api_state_registered c now1 st gu) by done. cbn [snd].
  set (r1 := compute_energy now1 gu).
  set (st1 := update_game_user_fields c (set_energy r1.1 r1.2) st).
  assert (Hg1 : game_users st1 !! c = Some (set_energy r1.1 r1.2 gu)).
  { unfold st1. by rewrite update_game_user_fields_lookup, Hg. }
  rewrite (api_state_registered c now2 st1 _ Hreg Hg1).
  rewrite (api_state_registered c now2 st gu) by done.
  unfold r1. rewrite (compute_energy_compose now1 now2 last gu) by done.
  f_equal. unfold st1. apply update_game_user_fields_twice. done.
Qed.

Lemma api_state_polling_witness :
  let T := 1700000000000000 in
  api_state (Some 7) (T + timedelta_seconds 10)
    (api_state (Some 7) (T + timedelta_seconds 4) (exhausted_state T)).2
  = api_state (Some 7) (T + timedelta_seconds 10) (exhausted_state T).
Proof.
  intros T.
  apply (api_state_polling 7 (T + timedelta_seconds 4)
           (T + timedelta_seconds 10) T (exhausted_state T)
           (set_energy 0 T (new_game_user T))).
  - vm_compute. reflexivity.
  - vm_compute. reflexivity.
  - reflexivity.
  - vm_compute. congruence.
  - vm_compute. congruence.
  - vm_compute. congruence.
Defined.

(** X2.  Regeneration over time, for a row whose checkpoint is not in the
    future: the energy returned never decreases as the clock advances and
    never exceeds the maximum; the checkpoint returned lags the clock by
    less than one regeneration interval; and once [(max - stored) * rate]
    seconds have passed since the checkpoint the energy is the maximum. *)
Theorem regeneration_over_time (now1 now2 last : Z) (gu : game_user) :
  energy_updated_at gu = Some last →
  last ≤ now1 → now1 ≤ now2 →
  1 ≤ int_or (regen_rate_seconds gu) 3 →
  let rate := int_or (regen_rate_seconds gu) 3 in
  let cap := int_or (max_energy gu) 500 in
  let stored := int_or (energy gu) 0 in
  (compute_energy now1 gu).1 ≤ (compute_energy now2 gu).1
  ∧ (compute_energy now2 gu).1 ≤ cap
  ∧ 0 ≤ now2 - (compute_energy now2 gu).2 < timedelta_seconds rate
  ∧ (stored ≤ cap →
     timedelta_seconds ((cap - stored) * rate) ≤ now2 - last →
     (compute_energy now2 gu).1 = cap).
Proof.
  intros Hl H1 H2 Hr rate cap stored.
  rewrite (compute_energy_unfold now1 last gu) by done.
  rewrite (compute_energy_unfold now2 last gu) by (done || lia).
  fold rate cap stored.
  pose proof (spec_gained_mono now1 now2 last rate Hr H2) as Hmono.
  assert (H2' : last ≤ now2) by lia.
  pose proof (spec_gained_bound now2 last rate H2' Hr) as [Hlo Hhi].
  split; [unfold spec_regenerate; cbn [fst]; lia|].
  split; [unfold spec_regenerate; cbn [fst]; lia|].
  split.
  - rewrite spec_regenerate_checkpoint by done.
    unfold timedelta_seconds. lia.
  - intros Hcap Hlong. unfold spec_regenerate. cbn [fst].
    assert (cap - stored ≤ spec_gained now2 last rate); [|lia].
    unfold spec_gained. apply Z.div_le_lower_bound; [unfold usec; lia|].
    unfold timedelta_seconds in Hlong. lia.
Qed.

Lemma regeneration_over_time_witness :
  let T := 1700000000000000 in
  (compute_energy (T + timedelta_seconds 1500)
     (set_energy 0 T (new_game_user T))).1 = 500.
Proof.
  intros T.
  destruct (regeneration_over_time (T + timedelta_seconds 1500)
              (T + timedelta_seconds 1500) T
              (set_energy 0 T (new_game_user T)))
    as (_ & _ & _ & Hfull).
  - reflexivity.
  - vm_compute. congruence.
  - lia.
  - vm_compute. congruence.
  - apply Hfull.
    + vm_compute. congruence.
    + vm_compute. congruence.
Defined.

(** ** What the handlers leave alone *)

Lemma get_game_user_lookup_ne (c c' now : Z) (st : state) :
  c ≠ c' → game_users (get_game_user c now st).2 !! c' = game_users st !! c'.
Proof.
  intros Hne. unfold get_game_user.
  destruct (game_users st !! c) eqn:Hg; cbn [snd]; [done|].
  unfold upsert_user_if_missing.
  destruct (users st !! c); cbn [game_users set_users]; rewrite Hg;
    cbn [game_users set_game_users set_users]; by rewrite lookup_insert_ne.
Qed.

Lemma get_game_user_keeps_row (c c' now : Z) (st : state) (row : game_user) :
  game_users st !! c' = Some row →
  game_users (get_game_user c now st).2 !! c' = Some row.
Proof.
  intros Hrow. destruct (decide (c = c')) as [->|Hne].
  - by rewrite (get_game_user_existing c' now st row Hrow).
  - by rewrite get_game_user_lookup_ne.
Qed.

Lemma coins_of_get_game_user (c c' now : Z) (st : state) :
  coins_of c' (get_game_user c now st).2 = coins_of c' st.
Proof.
  unfold coins_of. destruct (decide (c = c')) as [->|Hne].
  - destruct (game_users st !! c') as [row|] eqn:Hg.
    + rewrite (get_game_user_existing c' now st row Hg). cbn [snd].
      by rewrite Hg.
    + rewrite get_game_user_row, (get_game_user_missing c' now st Hg). done.
  - by rewrite get_game_user_lookup_ne.
Qed.

Lemma coins_of_update (c c' : Z) (f : game_user → game_user) (st : state) :
  (∀ row, coins (f row) = coins row) →
  coins_of c' (update_game_user_fields c f st) = coins_of c' st.
Proof.
  intros Hf. unfold coins_of. destruct (decide (c = c')) as [->|Hne].
  - rewrite update_game_user_fields_lookup.
    destruct (game_users st !! c'); cbn; [by rewrite Hf|done].
  - by rewrite update_game_user_fields_lookup_ne.
Qed.

Lemma get_game_user_keeps_users (c now : Z) (st : state) :
  is_Some (users st !! c) → users (get_game_user c now st).2 = users st.
Proof.
  intros [u Hu]. unfold get_game_user, upsert_user_if_missing.
  destruct (game_users st !! c) eqn:Hg; [done|]. rewrite Hu, Hg. done.
Qed.

Lemma is_registered_has_user (c : Z) (st : state) :
  is_registered c st = true → is_Some (users st !! c).
Proof. unfold is_registered. by destruct (users st !! c). Qed.

(** X3.  [api_state] writes the recomputed energy and checkpoint of the
    caller's row and nothing else, except that it first creates the row
    when a registered caller has none.  The table [users], the tap log,
    the rate windows, the nonce caches and the registration of every
    account are as before; every existing row keeps its coins, maximum,
    boosts, rate and streak; the rows of other accounts are untouched; no
    balance changes.  An account without a row gets one only if it is the
    registered caller, and then it is the fresh account with energy 500
    (only its checkpoint may differ from that of creation). *)
Theorem api_state_footprint (auth : option Z) (now : Z) (st : state) :
  let st' := (api_state auth now st).2 in
  users st' = users st
  ∧ game_taps st' = game_taps st
  ∧ _rate_windows st' = _rate_windows st
  ∧ _recent_nonces st' = _recent_nonces st
  ∧ (∀ c, is_registered c st' = is_registered c st)
  ∧ (∀ c, coins_of c st' = coins_of c st)
  ∧ (∀ c row, game_users st !! c = Some row →
       (∃ row', game_users st' !! c = Some row' ∧ same_but_energy row row')
       ∧ (auth ≠ Some c → game_users st' !! c = Some row))
  ∧ (∀ c, game_users st !! c = None →
       if decide (auth = Some c ∧ is_registered c st = true)
       then ∃ row', game_users st' !! c = Some row'
                    ∧ same_but_energy (new_game_user now) row'
                    ∧ energy row' = Some 500
       else game_users st' !! c = None).
Proof.
  intros st'. subst st'. unfold api_state.
  destruct auth as [a|]; cbn [snd].
  2: { do 6 (split; [done|]). split.
       - intros c row Hrow. split; [|done].
         exists row. split; [done|]. by repeat split.
       - intros c Hnone. rewrite decide_False; [done|]. by intros [? _]. }
  destruct (is_registered a st) eqn:Hreg; cbn [negb snd].
  2: { do 6 (split; [done|]). split.
       - intros c row Hrow. split; [|done].
         exists row. split; [done|]. by repeat split.
       - intros c Hnone. rewrite decide_False; [done|].
         intros [[= ->] ?]. congruence. }
  pose proof (get_game_user_keeps_local a now st) as (Hn & Hw & Ht).
  pose proof (λ c, get_game_user_keeps_registered a c now st) as Hr.
  pose proof (λ c, coins_of_get_game_user a c now st) as Hc.
  pose proof (λ c row, get_game_user_keeps_row a c now st row) as Hk.
  pose proof (get_game_user_keeps_users a now st
                (is_registered_has_user a st Hreg)) as Hu.
  pose proof (get_game_user_row a now st) as Hself.
  pose proof (get_game_user_missing a now st) as Hnew.
  pose proof (λ c, get_game_user_lookup_ne a c now st) as Hother.
  destruct (get_game_user a now st) as [gu st1]. cbn [fst snd] in *.
  destruct (compute_energy now gu) as [e ts] eqn:He. cbn [snd].
  split; [exact Hu|]. split; [exact Ht|]. split; [exact Hw|].
  split; [exact Hn|]. split; [exact Hr|]. split; [|split].
  - intros c. rewrite coins_of_update by done. apply Hc.
  - intros c row Hrow. apply Hk in Hrow.
    destruct (decide (a = c)) as [->|Hne].
    + split; [|congruence].
      exists (set_energy e ts row).
      rewrite update_game_user_fields_lookup, Hrow. split; [done|].
      by repeat split.
    + rewrite update_game_user_fields_lookup_ne by done. split; [|done].
      exists row. split; [done|]. by repeat split.
  - intros c Hnone. destruct (decide (a = c)) as [->|Hne].
    + rewrite decide_True by done.
      rewrite (Hnew Hnone) in Hself, He. rewrite compute_energy_new in He.
      injection He as <- <-.
      exists (set_energy 500 now (new_game_user now)).
      rewrite update_game_user_fields_lookup, Hself. split; [done|].
      split; [by repeat split|done].
    + rewrite decide_False by (intros [[= ->] _]; done).
      rewrite update_game_user_fields_lookup_ne by done.
      by rewrite Hother.
Qed.

Lemma api_state_footprint_witness :
  let T := 1700000000000000 in
  (∃ row',
     game_users (api_state (Some 7) (T + timedelta_seconds 9)
                   (exhausted_state T)).2 !! 7 = Some row'
     ∧ same_but_energy (set_energy 0 T (new_game_user T)) row')
  ∧ (∃ row',
       game_users (api_state (Some 8) T (two_player_state T)).2 !! 8
       = Some row'
       ∧ same_but_energy (new_game_user T) row'
       ∧ energy row' = Some 500).
Proof.
  intros T. split.
  - destruct (api_state_footprint (Some 7) (T + timedelta_seconds 9)
                (exhausted_state T)) as (_ & _ & _ & _ & _ & _ & Hrows & _).
    apply (Hrows 7 (set_energy 0 T (new_game_user T))).
    vm_compute. reflexivity.
  - destruct (api_state_footprint (Some 8) T (two_player_state T))
      as (_ & _ & _ & _ & _ & _ & _ & Hnew).
    specialize (Hnew 8 ltac:(vm_compute; reflexivity)).
    rewrite decide_True in Hnew by (split; reflexivity).
    exact Hnew.
Defined.

(** ** The accepted tap *)

Lemma compute_energy_lag (now last : Z) (gu : game_user) :
  energy_updated_at gu = Some last → last ≤ now →
  1 ≤ int_or (regen_rate_seconds gu) 3 →
  last ≤ (compute_energy now gu).2
  ∧ 0 ≤ now - (compute_energy now gu).2
      < timedelta_seconds (int_or (regen_rate_seconds gu) 3)
  ∧ (compute_energy now gu).1 ≤ int_or (max_energy gu) 500.
Proof.
  intros Hl Hle Hr.
  rewrite (compute_energy_unfold now last gu) by done.
  rewrite spec_regenerate_checkpoint by done.
  pose proof (spec_gained_bound now last _ Hle Hr) as [Hlo Hhi].
  pose proof (gained_nonneg now last _ Hle Hr) as Hg.
  unfold timedelta_seconds, spec_regenerate. cbn [fst].
  assert (0 ≤ spec_gained now last (int_or (regen_rate_seconds gu) 3)
              * int_or (regen_rate_seconds gu) 3 * usec)
    by (unfold usec; nia).
  lia.
Qed.

(** Less than one interval after the checkpoint nothing regenerates. *)
Lemma compute_energy_settled (now ts : Z) (gu : game_user) :
  energy_updated_at gu = Some ts → ts ≤ now →
  1 ≤ int_or (regen_rate_seconds gu) 3 →
  now - ts < timedelta_seconds (int_or (regen_rate_seconds gu) 3) →
  compute_energy now gu
  = (Z.min (int_or (max_energy gu) 500) (int_or (energy gu) 0), ts).
Proof.
  intros Hl Hle Hr Hlag.
  rewrite (compute_energy_unfold now ts gu) by done.
  unfold spec_regenerate.
  assert (Hz : spec_gained now ts (int_or (regen_rate_seconds gu) 3) = 0).
  { unfold spec_gained. apply Z.div_small.
    unfold timedelta_seconds in Hlag. lia. }
  rewrite Hz. cbn. f_equal. lia.
Qed.

(** With all its clock readings taken at one instant, the tap with
    separate readings is [api_tap]. *)
Lemma api_tap_one_instant (ord : set_listing) (auth : option Z)
    (nonce : string) (mono now : Z) (st : state) :
  api_tap_clocked ord auth nonce mono (one_instant now) st
  = api_tap ord auth nonce mono now st.
Proof. reflexivity. Qed.

(** X4.  An accepted tap costs exactly one unit of energy.  For an account
    whose checkpoint is not after the clock reading of the energy check
    and whose energy [e] recomputed at that reading is at least 1, the tap
    stores [e - 1] together with the recomputed checkpoint and leaves the
    maximum, the boosts and the rate of the account as they were.  The
    energy in the answer is computed again, from the stored row, at a
    later reading of the clock: it is [e - 1] plus the intervals that
    fit between the stored checkpoint and that reading, capped at the
    maximum; so it is at least [e - 1], at most the maximum, and exactly
    [e - 1] when less than one interval separates the stored checkpoint
    from the last reading (as when all readings are equal). *)
Theorem tap_costs_one_energy (ord : set_listing) (c : Z) (nonce : string)
    (mono : Z) (clk : tap_clock) (last : Z) (st : state) (gu : game_user) :
  is_registered c st = true →
  (can_tap_now mono c (_rate_windows st)).1 = true →
  bad_nonce nonce = false →
  nonce ∉ nonces_of c (_recent_nonces st) →
  game_users st !! c = Some gu →
  energy_updated_at gu = Some last →
  last ≤ at_energy clk → at_energy clk ≤ at_answer clk →
  1 ≤ int_or (regen_rate_seconds gu) 3 →
  1 ≤ (compute_energy (at_energy clk) gu).1 →
  let out := api_tap_clocked ord (Some c) nonce mono clk st in
  let e := (compute_energy (at_energy clk) gu).1 in
  let checkpoint := (compute_energy (at_energy clk) gu).2 in
  let rate := int_or (regen_rate_seconds gu) 3 in
  let cap := int_or (max_energy gu) 500 in
  (∃ row, game_users out.2 !! c = Some row
          ∧ energy row = Some (e - 1)
          ∧ energy_updated_at row = Some checkpoint
          ∧ max_energy row = max_energy gu
          ∧ multitap_until row = multitap_until gu
          ∧ autotap_until row = autotap_until gu
          ∧ regen_rate_seconds row = regen_rate_seconds gu)
  ∧ r_max_energy out.1 = Some cap
  ∧ ∃ e2, r_energy out.1 = Some e2
          ∧ e2 = Z.min cap (e - 1 + spec_gained (at_answer clk) checkpoint rate)
          ∧ e - 1 ≤ e2 ≤ cap
          ∧ (at_answer clk - checkpoint < timedelta_seconds rate →
             e2 = e - 1).
Proof.
  intros Hreg Hrate Hbad Hnew Hg Hl Hle Hlater Hr He out e checkpoint rate cap.
  destruct (compute_energy_lag (at_energy clk) last gu Hl Hle Hr)
    as (Hts & Hlag & Hcap).
  fold checkpoint rate cap e in Hts, Hlag, Hcap. fold e in He.
  subst out. unfold api_tap_clocked. rewrite Hreg. cbn [negb].
  destruct (can_tap_now mono c (_rate_windows st)) as [allowed rw].
  cbn [fst] in Hrate. subst allowed. cbn [negb].
  rewrite Hbad, bool_decide_eq_false_2 by done.
  set (st2 := set_recent_nonces _ _).
  assert (Hg2 : game_users st2 !! c = Some gu) by done.
  unfold tap_apply_clocked.
  rewrite (get_game_user_existing c (at_fetch clk) st2 gu Hg2).
  subst e checkpoint.
  destruct (compute_energy (at_energy clk) gu) as [e ts]. cbn [fst snd] in *.
  rewrite (proj2 (Z.ltb_ge e 1)) by lia.
  destruct (streak_update (date_of (at_streak clk)) gu true) as [ns sd].
  set (row := set_streak ns sd (set_energy (e - 1) ts
                (set_last_tap_at (at_log clk)
                   (set_coins (default 0 (coins gu)
                               + 1 * boost_multiplier (at_boost clk) gu) gu)))).
  set (st3 := update_game_user_fields c (set_streak ns sd) _).
  assert (Hrow3 : game_users st3 !! c = Some row).
  { cbv [st3 update_game_user_fields add_tap set_game_users set_game_taps
         game_users].
    rewrite !lookup_alter_eq. fold (game_users st2). rewrite Hg2. done. }
  rewrite (get_game_user_existing c (at_answer clk) st3 row Hrow3).
  assert (Hans : compute_energy (at_answer clk) row
                 = spec_regenerate (at_answer clk) ts rate cap (e - 1)).
  { rewrite (compute_energy_unfold (at_answer clk) ts row); [|done|lia|done].
    cbn [row set_streak set_energy set_last_tap_at set_coins energy
         regen_rate_seconds max_energy].
    by rewrite int_or_some_idem. }
  rewrite Hans. unfold spec_regenerate. cbn [fst snd r_energy r_max_energy].
  split; [exists row; split; [done|]; by repeat split|].
  split; [done|].
  eexists. split; [reflexivity|]. split; [done|].
  pose proof (gained_nonneg (at_answer clk) ts rate ltac:(lia) Hr) as Hpos.
  split; [lia|]. intros Hshort.
  assert (Hzero : spec_gained (at_answer clk) ts rate = 0).
  { unfold spec_gained. apply Z.div_small.
    unfold timedelta_seconds in Hshort. lia. }
  rewrite Hzero. lia.
Qed.

Lemma tap_costs_one_energy_witness :
  let T := 1700000000000000 in
  let clk := {| at_fetch := T + 8999990; at_energy := T + 8999999;
                at_boost := T + 9000000; at_log := T + 9000001;
                at_streak := T + 9000002; at_answer := T + 9000010 |} in
  let st := set_game_users {[ 7 := regen_example T ]} (two_player_state T) in
  (∃ row, game_users (api_tap_clocked elements_listing (Some 7) "abc" 5
                        clk st).2 !! 7 = Some row
          ∧ energy row = Some 11)
  ∧ r_energy (api_tap_clocked elements_listing (Some 7) "abc" 5 clk st).1
    = Some 12.
Proof.
  intros T clk st.
  destruct (tap_costs_one_energy elements_listing 7 "abc" 5 clk T st
              (regen_example T)) as ((row & Hrow & Hen & _) & _ & Hans).
  - vm_compute. reflexivity.
  - vm_compute. reflexivity.
  - vm_compute. reflexivity.
  - vm_compute. set_solver.
  - vm_compute. reflexivity.
  - reflexivity.
  - vm_compute. congruence.
  - vm_compute. congruence.
  - vm_compute. congruence.
  - vm_compute. congruence.
  - split.
    + exists row. split; [exact Hrow|]. rewrite Hen. vm_compute. reflexivity.
    + destruct Hans as (e2 & -> & -> & _). vm_compute. reflexivity.
Defined.

(** ** The coin ledger *)

Lemma int_or_zero (x : option Z) : int_or x 0 = default 0 x.
Proof. destruct x as [v|]; [|done]. cbn. destruct (Z.eqb_spec v 0); lia. Qed.

Lemma sum_delta_snoc (c : Z) (taps : list tap) (t : tap) :
  sum_delta c (taps ++ [t])
  = sum_delta c taps + (if tap_chat_id t =? c then tap_delta t else 0).
Proof.
  unfold sum_delta. rewrite List.filter_app, fmap_app, foldr_app. cbn.
  generalize (tap_delta <$> List.filter (λ t0, tap_chat_id t0 =? c) taps).
  destruct (tap_chat_id t =? c); cbn; intros l.
  - induction l as [|x l IH]; cbn; lia.
  - lia.
Qed.

Lemma coins_of_update_set (c c' x : Z) (f : game_user → game_user)
    (st : state) :
  is_Some (game_users st !! c) →
  (∀ row, coins (f row) = Some x) →
  coins_of c' (update_game_user_fields c f st)
  = if decide (c = c') then x else coins_of c' st.
Proof.
  intros [row Hrow] Hf. unfold coins_of. destruct (decide (c = c')) as [->|Hne].
  - rewrite update_game_user_fields_lookup, Hrow. cbn. by rewrite Hf.
  - by rewrite update_game_user_fields_lookup_ne.
Qed.

Lemma coins_of_row (c : Z) (st : state) (row : game_user) :
  game_users st !! c = Some row → coins_of c st = default 0 (coins row).
Proof. intros H. unfold coins_of. by rewrite H. Qed.

Lemma api_state_ledger (auth : option Z) (now : Z) (st : state) (c : Z) :
  coins_of c (api_state auth now st).2 = coins_of c st
  ∧ game_taps (api_state auth now st).2 = game_taps st.
Proof.
  unfold api_state. destruct auth as [a|]; [|done].
  destruct (negb (is_registered a st)); [done|].
  pose proof (get_game_user_keeps_local a now st) as (_ & _ & Ht).
  pose proof (coins_of_get_game_user a c now st) as Hc.
  destruct (get_game_user a now st) as [gu st1]. cbn [fst snd] in *.
  destruct (compute_energy now gu) as [e ts]. cbn [snd].
  split; [|done]. by rewrite coins_of_update.
Qed.

Lemma activate_boost_ledger (a c : Z) (boost : string) (now : Z) (st : state) :
  let out := activate_boost a boost now st in
  coins_of c out.2
  = coins_of c st
    - (if out.1.1 && bool_decide (a = c)
       then default 0 (boost_cost boost) else 0)
  ∧ game_taps out.2 = game_taps st.
Proof.
  cbn zeta. unfold activate_boost, boost_cost.
  pose proof (get_game_user_keeps_local a now st) as (_ & _ & Ht).
  pose proof (coins_of_get_game_user a c now st) as Hc.
  pose proof (get_game_user_row a now st) as Hrow.
  destruct (get_game_user a now st) as [gu st1]. cbn [fst snd] in *.
  assert (Hgu : coins_of a st1 = int_or (coins gu) 0).
  { by rewrite int_or_zero, (coins_of_row a st1 gu). }
  assert (Hsome : is_Some (game_users st1 !! a)) by eauto.
  assert (Hp : ∀ x f, (∀ row, coins (f row) = Some x) →
            coins_of c (update_game_user_fields a f st1)
            = if decide (a = c) then x else coins_of c st1)
    by (intros; by apply coins_of_update_set).
  repeat case_decide; subst;
    repeat match goal with
           | |- context [?x <? ?y] => destruct (x <? y)
           end; cbn [fst snd andb default];
    (split; [|done]);
    rewrite ?(Hp (int_or (coins gu) 0 - 1000)),
            ?(Hp (int_or (coins gu) 0 - 3000)),
            ?(Hp (int_or (coins gu) 0 - 2500)) by done;
    repeat case_decide; repeat case_bool_decide; subst; try done;
    unfold id; lia.
Qed.

Lemma tap_apply_lookup_ne (c c' : Z) (nonce : string) (now : Z) (st : state) :
  c ≠ c' →
  game_users (tap_apply c nonce now st).2 !! c' = game_users st !! c'.
Proof.
  intros Hne. unfold tap_apply.
  pose proof (get_game_user_lookup_ne c c' now st Hne) as H1.
  destruct (get_game_user c now st) as [gu st1]. cbn [fst snd] in *.
  destruct (compute_energy now gu) as [e ts].
  destruct (e <? 1); cbn [snd]; [done|].
  destruct (streak_update (date_of now) gu true) as [ns sd].
  match goal with
  | |- context [get_game_user c now ?s] =>
      pose proof (get_game_user_lookup_ne c c' now s Hne) as H2;
      destruct (get_game_user c now s) as [gu2 st2]
  end.
  cbn [fst snd] in *. destruct (compute_energy now gu2) as [e2 ts2].
  cbn [snd]. rewrite H2.
  rewrite !update_game_user_fields_lookup_ne by done.
  unfold add_tap. by rewrite update_game_user_fields_lookup_ne.
Qed.

Lemma tap_apply_ledger (c c' : Z) (nonce : string) (now : Z) (st : state) :
  coins_of c' (tap_apply c nonce now st).2 - coins_of c' st
  = tap_total c' (tap_apply c nonce now st).2 - tap_total c' st.
Proof.
  destruct (ok (tap_apply c nonce now st).1) eqn:Hok.
  2: { apply tap_apply_rejected in Hok as (gu & _ & _ & ->). cbn [snd]. lia. }
  set (gu := (get_game_user c now st).1).
  destruct (Z.lt_ge_cases (compute_energy now gu).1 1) as [Hlt|Hge].
  { exfalso. destruct (game_users st !! c) as [row|] eqn:Hg.
    - unfold gu in Hlt. rewrite (get_game_user_existing c now st row Hg) in Hlt.
      rewrite (tap_apply_no_energy c nonce now st row Hg Hlt) in Hok. done.
    - unfold gu in Hlt. rewrite (get_game_user_missing c now st Hg) in Hlt.
      rewrite compute_energy_new in Hlt. cbn in Hlt. lia. }
  destruct (tap_apply_accepted c nonce now st Hge) as (Htaps & Hrow & _).
  fold gu in Htaps, Hrow. unfold tap_total. rewrite Htaps, sum_delta_snoc.
  cbn [tap_chat_id tap_delta].
  destruct (decide (c = c')) as [<-|Hne].
  - rewrite Z.eqb_refl, (coins_of_row c _ _ Hrow).
    unfold tapped_row. cbn [coins set_streak set_energy set_last_tap_at
                            set_coins].
    assert (Hbefore : coins_of c st = default 0 (coins gu)).
    2: { rewrite Hbefore. generalize (default 0 (coins gu)). intros d.
         cbn. lia. }
    rewrite <- (coins_of_get_game_user c c now st).
    apply coins_of_row, get_game_user_row.
  - rewrite (proj2 (Z.eqb_neq c c')) by done.
    unfold coins_of. rewrite tap_apply_lookup_ne by done. lia.
Qed.

Lemma api_tap_ledger (ord : set_listing) (auth : option Z) (nonce : string)
    (mono now : Z) (st : state) (c : Z) :
  coins_of c (api_tap ord auth nonce mono now st).2 - coins_of c st
  = tap_total c (api_tap ord auth nonce mono now st).2 - tap_total c st.
Proof.
  destruct auth as [a|]; [|unfold api_tap; cbn [snd]; lia].
  destruct (is_registered a st) eqn:Hreg.
  2: { unfold api_tap. rewrite Hreg. cbn [negb snd]. lia. }
  rewrite api_tap_gates by done. cbn zeta.
  destruct (can_tap_now mono a (_rate_windows st)) as [[] rw];
    cbn [fst snd negb].
  2: { change (coins_of c (set_rate_windows rw st)) with (coins_of c st).
       change (tap_total c (set_rate_windows rw st)) with (tap_total c st).
       lia. }
  destruct (bad_nonce nonce); cbn [snd].
  { change (coins_of c (set_rate_windows rw st)) with (coins_of c st).
    change (tap_total c (set_rate_windows rw st)) with (tap_total c st). lia. }
  destruct (bool_decide _); cbn [snd].
  { change (coins_of c (set_rate_windows rw st)) with (coins_of c st).
    change (tap_total c (set_rate_windows rw st)) with (tap_total c st). lia. }
  set (st2 := set_recent_nonces _ _).
  change (coins_of c st) with (coins_of c st2).
  change (tap_total c st) with (tap_total c st2).
  apply tap_apply_ledger.
Qed.

Lemma handle_ledger (ord : set_listing) (r : request) (st : state) (c : Z) :
  coins_of c (handle ord r st).2
  = coins_of c st
    + (tap_total c (handle ord r st).2 - tap_total c st)
    - price_paid r (handle ord r st).1 c.
Proof.
  destruct r as [auth now|auth nonce mono now|auth name now];
    cbn [handle price_paid].
  - destruct (api_state_ledger auth now st c) as [-> Ht].
    unfold tap_total. rewrite Ht. lia.
  - pose proof (api_tap_ledger ord auth nonce mono now st c). lia.
  - unfold api_boost. destruct auth as [a|]; cbn [fst snd]; [|lia].
    destruct (negb (is_registered a st)); cbn [fst snd ok failure andb];
      [lia|].
    pose proof (activate_boost_ledger a c name now st) as [Hc Ht].
    cbn zeta in Hc.
    destruct (activate_boost a name now st) as [[b msg] st1].
    cbn [fst snd ok] in *. unfold tap_total. rewrite Ht, Hc. lia.
Qed.

(** X5.  The coin ledger balances over every run of requests to the three
    handlers, for every account: the balance at the end is the balance at
    the start, plus the [delta] of the taps logged for the account during
    the run, minus the prices of the boosts it bought.  No request mints
    or burns coins in any other way. *)
Theorem coin_ledger (ord : set_listing) (rs : list request) (st : state)
    (c : Z) :
  coins_of c (run_requests ord rs st)
  = coins_of c st
    + (tap_total c (run_requests ord rs st) - tap_total c st)
    - run_spent ord c rs st.
Proof.
  revert st. induction rs as [|r rs IH]; intros st.
  - cbn. lia.
  - cbn [run_requests foldl run_spent].
    change (foldl (λ st0 r0, (handle ord r0 st0).2) (handle ord r st).2 rs)
      with (run_requests ord rs (handle ord r st).2).
    rewrite IH, (handle_ledger ord r st c). lia.
Qed.

(** ** Buying boosts *)

Lemma update_game_user_fields_frame (c : Z) (f : game_user → game_user)
    (st : state) :
  let st' := update_game_user_fields c f st in
  users st' = users st ∧ game_taps st' = game_taps st
  ∧ _rate_windows st' = _rate_windows st
  ∧ _recent_nonces st' = _recent_nonces st
  ∧ ∀ c', c' ≠ c → game_users st' !! c' = game_users st !! c'.
Proof.
  cbn zeta. repeat split.
  intros c' Hne. by rewrite update_game_user_fields_lookup_ne.
Qed.

Lemma activate_boost_bought (c : Z) (boost : string) (now : Z) (st : state)
    (gu : game_user) (cost : Z) :
  game_users st !! c = Some gu → boost_cost boost = Some cost →
  cost ≤ int_or (coins gu) 0 →
  ∃ f,
    activate_boost c boost now st
    = ((true, if decide (boost = "maxenergy")
              then "Max energy increased by +100!"
              else boost +:+ " activated!"),
       update_game_user_fields c f st)
    ∧ coins (f gu) = Some (int_or (coins gu) 0 - cost)
    ∧ same_but_purchase gu (f gu)
    ∧ multitap_until (f gu)
      = (if decide (boost = "multitap")
         then Some (now + timedelta_minutes 15) else multitap_until gu)
    ∧ autotap_until (f gu)
      = (if decide (boost = "autotap")
         then Some (now + timedelta_minutes 10) else autotap_until gu)
    ∧ max_energy (f gu)
      = (if decide (boost = "maxenergy")
         then Some (int_or (max_energy gu) 500 + 100) else max_energy gu).
Proof.
  intros Hg Hcost Hle. unfold activate_boost, boost_cost in *.
  rewrite (get_game_user_existing c now st gu Hg).
  destruct (decide (boost = "multitap")) as [->|H1].
  { simplify_eq. rewrite (proj2 (Z.ltb_ge _ _) Hle).
    eexists. split; [reflexivity|]. by repeat split. }
  destruct (decide (boost = "autotap")) as [->|H2].
  { simplify_eq. rewrite (proj2 (Z.ltb_ge _ _) Hle).
    eexists. split; [reflexivity|]. by repeat split. }
  destruct (decide (boost = "maxenergy")) as [->|H3]; [|done].
  simplify_eq. rewrite (proj2 (Z.ltb_ge _ _) Hle).
  eexists. split; [reflexivity|]. by repeat split.
Qed.

(** X6.  The outcome of [activate_boost] for an account that has a row is
    decided by the name and the balance alone.  An unknown name is refused
    with "Unknown boost" and a price above the balance with "Not enough
    coins", both without any write.  Otherwise the purchase succeeds: the
    balance drops by exactly the price and stays non-negative, energy,
    checkpoint, rate and streak of the account are untouched, and so are
    the tap log, the admission state and every other account. *)
Theorem activate_boost_decision (c : Z) (boost : string) (now : Z)
    (st : state) (gu : game_user) :
  game_users st !! c = Some gu →
  let out := activate_boost c boost now st in
  let balance := int_or (coins gu) 0 in
  match boost_cost boost with
  | None => out = ((false, "Unknown boost"), st)
  | Some cost =>
      if decide (cost ≤ balance)
      then out.1.1 = true
           ∧ (∃ row', game_users out.2 !! c = Some row'
                      ∧ coins row' = Some (balance - cost)
                      ∧ 0 ≤ balance - cost
                      ∧ same_but_purchase gu row')
           ∧ users out.2 = users st ∧ game_taps out.2 = game_taps st
           ∧ _rate_windows out.2 = _rate_windows st
           ∧ _recent_nonces out.2 = _recent_nonces st
           ∧ (∀ c', c' ≠ c → game_users out.2 !! c' = game_users st !! c')
      else out = ((false, "Not enough coins"), st)
  end.
Proof.
  intros Hg out balance. subst out balance.
  destruct (boost_cost boost) as [cost|] eqn:Hcost.
  - case_decide as Hle.
    + destruct (activate_boost_bought c boost now st gu cost Hg Hcost Hle)
        as (f & -> & Hcoins & Hsame & _).
      cbn [fst snd]. split; [done|].
      destruct (update_game_user_fields_frame c f st) as (? & ? & ? & ? & ?).
      split; [|done].
      exists (f gu). rewrite update_game_user_fields_lookup, Hg.
      split; [done|]. split; [done|]. split; [lia|done].
    + apply (activate_boost_short c boost now st gu cost); [done|done|lia].
  - rewrite activate_boost_unknown by done.
    by rewrite (get_game_user_existing c now st gu Hg).
Qed.

Lemma activate_boost_decision_witness :
  let T := 1700000000000000 in
  activate_boost 7 "max_energy_upgrade" T (two_player_state T)
  = ((false, "Unknown boost"), two_player_state T).
Proof.
  intros T.
  pose proof (activate_boost_decision 7 "max_energy_upgrade" T
                (two_player_state T) (set_coins 5000 (new_game_user T))
                eq_refl) as H.
  exact H.
Defined.

(** X7.  A timed boost lasts exactly its duration from the latest
    purchase.  After a successful purchase of "multitap" (15 minutes) or
    "autotap" (10 minutes) at [now], whatever expiry the account had for
    that boost before, the multiplier of the account is 2 at every instant
    before [now] plus the duration, and from then on it is what the other
    boost alone grants. *)
Theorem timed_boost_window (c : Z) (boost : string) (now : Z) (st : state)
    (gu : game_user) (cost duration : Z) :
  game_users st !! c = Some gu →
  boost_cost boost = Some cost →
  boost_duration boost = Some duration →
  cost ≤ int_or (coins gu) 0 →
  ∃ row',
    game_users (activate_boost c boost now st).2 !! c = Some row'
    ∧ (∀ t, t < now + duration → boost_multiplier t row' = 2)
    ∧ (∀ t, now + duration ≤ t →
         boost_multiplier t row'
         = granted_multiplier t
             (if decide (boost = "multitap")
              then autotap_until gu else multitap_until gu)).
Proof.
  intros Hg Hcost Hdur Hle.
  destruct (activate_boost_bought c boost now st gu cost Hg Hcost Hle)
    as (f & -> & _ & _ & Hmt & Hat & _).
  cbn [snd]. exists (f gu).
  rewrite update_game_user_fields_lookup, Hg. split; [done|].
  unfold boost_duration in Hdur.
  split; intros t Ht; rewrite boost_multiplier_eq, Hmt, Hat;
    unfold granted_multiplier, boost_active;
    repeat case_decide; simplify_eq;
    repeat match goal with
           | |- context [match ?o with Some _ => _ | None => _ end] =>
               destruct o
           end;
    repeat match goal with
           | |- context [?x <? ?y] => destruct (Z.ltb_spec x y)
           end; try done; lia.
Qed.

Lemma timed_boost_window_witness :
  let T := 1700000000000000 in
  ∃ row',
    game_users (activate_boost 7 "multitap" T (two_player_state T)).2 !! 7
    = Some row'
    ∧ boost_multiplier (T + timedelta_minutes 14) row' = 2
    ∧ boost_multiplier (T + timedelta_minutes 15) row' = 1.
Proof.
  intros T.
  destruct (timed_boost_window 7 "multitap" T (two_player_state T)
              (set_coins 5000 (new_game_user T)) 1000 (timedelta_minutes 15))
    as (row' & Hrow & Hin & Hout).
  - vm_compute. reflexivity.
  - reflexivity.
  - reflexivity.
  - vm_compute. congruence.
  - exists row'. split; [exact Hrow|]. split.
    + apply Hin. vm_compute. reflexivity.
    + rewrite Hout by (vm_compute; congruence). reflexivity.
Defined.

(** ** The registration gate *)

Lemma activate_boost_keeps_registered (a c : Z) (boost : string) (now : Z)
    (st : state) :
  is_registered c (activate_boost a boost now st).2 = is_registered c st.
Proof.
  unfold activate_boost.
  pose proof (get_game_user_keeps_registered a c now st) as Hr.
  destruct (get_game_user a now st) as [gu st1]. cbn [snd] in Hr.
  repeat case_decide;
    repeat match goal with
           | |- context [?x <? ?y] => destruct (x <? y)
           end; cbn [snd]; exact Hr.
Qed.

Lemma handle_keeps_registered (ord : set_listing) (r : request) (st : state)
    (c : Z) :
  is_registered c (handle ord r st).2 = is_registered c st.
Proof.
  destruct r as [auth now|auth nonce mono now|auth name now]; cbn [handle].
  - unfold api_state. destruct auth as [a|]; [|done].
    destruct (negb (is_registered a st)); [done|].
    pose proof (get_game_user_keeps_registered a c now st) as Hr.
    destruct (get_game_user a now st) as [gu st1].
    destruct (compute_energy now gu) as [e ts]. exact Hr.
  - destruct auth as [a|]; [|done].
    destruct (is_registered a st) eqn:Hreg.
    2: { unfold api_tap. by rewrite Hreg. }
    rewrite api_tap_gates by done. cbn zeta.
    destruct (can_tap_now mono a (_rate_windows st)) as [[] rw];
      cbn [fst snd negb]; [|done].
    destruct (bad_nonce nonce); [done|].
    destruct (bool_decide _); [done|].
    set (st2 := set_recent_nonces _ _).
    destruct (tap_apply_keeps_local a nonce now st2) as (_ & _ & Hr).
    by rewrite Hr.
  - unfold api_boost. destruct auth as [a|]; [|done].
    destruct (negb (is_registered a st)); [done|].
    pose proof (activate_boost_keeps_registered a c name now st) as Hr.
    destruct (activate_boost a name now st) as [[b msg] st1]. exact Hr.
Qed.

(** X8.  The three handlers are gated on the caller: a request without a
    verified caller is answered "Invalid auth" and a request of a caller
    who is not registered is answered "Not registered", in both cases
    without changing anything.  No request changes who is
    registered, not over any run of requests either. *)
Theorem registration_gate (ord : set_listing) (r : request) (st : state) :
  (auth_of r = None → handle ord r st = (failure "Invalid auth", st))
  ∧ (∀ a, auth_of r = Some a → is_registered a st = false →
       handle ord r st = (failure "Not registered", st))
  ∧ (∀ c, is_registered c (handle ord r st).2 = is_registered c st)
  ∧ (∀ rs c, is_registered c (run_requests ord rs st) = is_registered c st).
Proof.
  split; [|split; [|split]].
  - destruct r; cbn [auth_of handle]; intros ->; reflexivity.
  - intros a Ha Hreg.
    destruct r; cbn [auth_of handle] in *; subst;
      unfold api_state, api_tap, api_boost; by rewrite Hreg.
  - apply handle_keeps_registered.
  - intros rs c. revert st. induction rs as [|r' rs IH]; intros st; [done|].
    cbn [run_requests foldl].
    change (foldl (λ st0 r0, (handle ord r0 st0).2) (handle ord r' st).2 rs)
      with (run_requests ord rs (handle ord r' st).2).
    by rewrite IH, handle_keeps_registered.
Qed.

Lemma registration_gate_witness :
  let T := 1700000000000000 in
  handle elements_listing (ReqTap (Some 9) "abc" 5 T) (two_player_state T)
  = (failure "Not registered", two_player_state T).
Proof.
  intros T.
  destruct (registration_gate elements_listing (ReqTap (Some 9) "abc" 5 T)
              (two_player_state T)) as (_ & Hgate & _).
  apply (Hgate 9); reflexivity.
Defined.

(** ** The permanent upgrade over runs of requests *)

Lemma max_energy_raised (m : option Z) :
  0 ≤ int_or m 500 →
  int_or (Some (int_or m 500 + 100)) 500 = int_or m 500 + 100.
Proof.
  intros H. unfold int_or at 1.
  destruct (Z.eqb_spec (int_or m 500 + 100) 0); [lia|done].
Qed.

Lemma activate_boost_lookup_ne (a c : Z) (boost : string) (now : Z)
    (st : state) :
  a ≠ c →
  game_users (activate_boost a boost now st).2 !! c = game_users st !! c.
Proof.
  intros Hne. unfold activate_boost.
  pose proof (get_game_user_lookup_ne a c now st Hne) as Hl.
  destruct (get_game_user a now st) as [gu st1]. cbn [snd] in Hl.
  repeat case_decide;
    repeat match goal with
           | |- context [?x <? ?y] => destruct (x <? y)
           end; cbn [snd];
    rewrite ?update_game_user_fields_lookup_ne by done; exact Hl.
Qed.

(** One request changes the maximum of an account only when it is a
    successful purchase of the upgrade by that account. *)
Lemma handle_max_energy (ord : set_listing) (r : request) (st : state)
    (c : Z) (row : game_user) :
  game_users st !! c = Some row →
  ∃ row',
    game_users (handle ord r st).2 !! c = Some row'
    ∧ max_energy row'
      = (if upgrade_bought r (handle ord r st).1 c
         then Some (int_or (max_energy row) 500 + 100) else max_energy row).
Proof.
  intros Hrow.
  destruct r as [auth now|auth nonce mono now|auth name now]; cbn [handle].
  - cbn [upgrade_bought]. unfold api_state.
    destruct auth as [a|]; [|by exists row].
    destruct (is_registered a st) eqn:Hreg; cbn [negb]; [|by exists row].
    pose proof (get_game_user_keeps_row a c now st row Hrow) as Hk.
    destruct (get_game_user a now st) as [gu st1].
    destruct (compute_energy now gu) as [e ts]. cbn [snd] in *.
    destruct (decide (a = c)) as [->|Hne].
    + rewrite update_game_user_fields_lookup, Hk. by eexists.
    + rewrite update_game_user_fields_lookup_ne by done. by exists row.
  - cbn [upgrade_bought].
    destruct auth as [a|]; [|by exists row].
    destruct (is_registered a st) eqn:Hreg.
    2: { unfold api_tap. rewrite Hreg. by exists row. }
    rewrite api_tap_gates by done. cbn zeta.
    destruct (can_tap_now mono a (_rate_windows st)) as [[] rw];
      cbn [fst snd negb]; [|by exists row].
    destruct (bad_nonce nonce); [by exists row|].
    destruct (bool_decide _); [by exists row|].
    set (st2 := set_recent_nonces _ _).
    assert (Hrow2 : game_users st2 !! c = Some row) by done.
    destruct (decide (a = c)) as [->|Hne].
    + destruct (Z_lt_le_dec (compute_energy now row).1 1) as [Hlow|Hok].
      * rewrite (tap_apply_no_energy c nonce now st2 row) by done.
        by exists row.
      * pose proof (tap_apply_accepted c nonce now st2) as Hacc.
        rewrite (get_game_user_existing c now st2 row Hrow2) in Hacc.
        cbn [fst] in Hacc. destruct (Hacc Hok) as (_ & Hr & _).
        exists (tapped_row now row). done.
    + rewrite tap_apply_lookup_ne by done. by exists row.
  - unfold api_boost. destruct auth as [a|]; [|by exists row].
    destruct (is_registered a st) eqn:Hreg; cbn [negb]; [|by exists row].
    destruct (decide (a = c)) as [->|Hne].
    + destruct (boost_cost name) as [cost|] eqn:Hcost.
      * destruct (Z_lt_le_dec (int_or (coins row) 0) cost) as [Hshort|Hcan].
        { rewrite (activate_boost_short c name now st row cost) by done.
          by exists row. }
        destruct (activate_boost_bought c name now st row cost)
          as (f & -> & _ & _ & _ & _ & Hmax); [done..|].
        cbn [fst snd upgrade_bought ok].
        rewrite update_game_user_fields_lookup, Hrow.
        exists (f row). split; [done|].
        rewrite bool_decide_eq_true_2 by done. cbn [andb].
        rewrite Hmax. by repeat case_decide; case_bool_decide.
      * rewrite (activate_boost_unknown c name now st) by done.
        rewrite (get_game_user_existing c now st row Hrow). by exists row.
    + pose proof (activate_boost_lookup_ne a c name now st Hne) as Hl.
      destruct (activate_boost a name now st) as [[b msg] st1].
      cbn [fst snd upgrade_bought ok] in *.
      rewrite (bool_decide_eq_false_2 (a = c)) by done.
      rewrite andb_false_r. cbn [andb]. exists row. by rewrite Hl.
Qed.

Lemma run_max_energy (ord : set_listing) (rs : list request) (st : state)
    (c : Z) (row : game_user) :
  game_users st !! c = Some row → 0 ≤ int_or (max_energy row) 500 →
  ∃ row',
    game_users (run_requests ord rs st) !! c = Some row'
    ∧ int_or (max_energy row') 500
      = int_or (max_energy row) 500
        + 100 * Z.of_nat (run_upgrades ord c rs st).
Proof.
  revert st row. induction rs as [|r rs IH]; intros st row Hrow Hcap.
  - exists row. cbn. split; [done|lia].
  - destruct (handle_max_energy ord r st c row Hrow) as (row1 & Hrow1 & Hmax).
    cbn [run_requests foldl run_upgrades].
    change (foldl (λ st0 r0, (handle ord r0 st0).2) (handle ord r st).2 rs)
      with (run_requests ord rs (handle ord r st).2).
    assert (Hstep : int_or (max_energy row1) 500
                    = int_or (max_energy row) 500
                      + (if upgrade_bought r (handle ord r st).1 c
                         then 100 else 0)).
    { rewrite Hmax. destruct (upgrade_bought r (handle ord r st).1 c).
      - by apply max_energy_raised.
      - lia. }
    destruct (IH (handle ord r st).2 row1 Hrow1) as (row' & Hrow' & Hend).
    { rewrite Hstep. destruct (upgrade_bought _ _ _); lia. }
    exists row'. split; [done|]. rewrite Hend, Hstep.
    destruct (upgrade_bought r (handle ord r st).1 c); lia.
Qed.

(** While the coins last, every request for the upgrade is a purchase. *)
Lemma run_upgrades_repeat (ord : set_listing) (c : Z) (times : list Z)
    (st : state) (row : game_user) :
  is_registered c st = true → game_users st !! c = Some row →
  2500 * Z.of_nat (length times) ≤ int_or (coins row) 0 →
  run_upgrades ord c ((λ t, ReqBoost (Some c) "maxenergy" t) <$> times) st
  = length times.
Proof.
  revert st row. induction times as [|t times IH]; intros st row Hreg Hrow Hc;
    [done|].
  cbn [fmap list_fmap run_upgrades handle length] in *.
  destruct (activate_maxenergy_adds c t st row Hrow) as [Hok Hrow1]; [lia|].
  pose proof (activate_boost_keeps_registered c c "maxenergy" t st) as Hreg1.
  unfold api_boost. rewrite Hreg. cbn [negb].
  destruct (activate_boost c "maxenergy" t st) as [[b msg] st1].
  cbn [fst snd upgrade_bought ok] in *. injection Hok as -> ->.
  rewrite !bool_decide_eq_true_2 by done. cbn [andb]. f_equal.
  apply (IH st1 _ (eq_trans Hreg1 Hreg) Hrow1).
  cbn [coins set_max_energy set_coins].
  rewrite (int_or_zero (Some _)). cbn [default]. unfold id. lia.
Qed.

(** C7.  The "maxenergy" upgrade costs 2500 coins and raises the maximum
    by 100 each time it is bought; it is permanent and can be bought
    again.  For an account that has a row: with at least 2500 coins the
    activation succeeds, takes 2500 coins and stores the maximum raised by
    100, leaving both boost expiries alone, so the multiplier of the
    account is at every instant what it was; with fewer coins it is
    refused with "Not enough coins" and nothing changes.  Over any run of
    requests to the handlers, whatever their clock readings, the maximum
    of the account at the end is the maximum at the start plus 100 for
    each upgrade the account bought during the run: nothing else changes
    it and nothing lowers it.  And while the coins last every request for
    the upgrade is granted: after [n] such requests of a registered
    account holding at least [2500 * n] coins the maximum is 100 * [n]
    higher. *)
Theorem maxenergy_upgrade_permanent (ord : set_listing) (c : Z) (st : state)
    (gu : game_user) :
  game_users st !! c = Some gu →
  let cap := int_or (max_energy gu) 500 in
  let balance := int_or (coins gu) 0 in
  (∀ now, 2500 ≤ balance →
     let out := activate_boost c "maxenergy" now st in
     let row' := set_max_energy (cap + 100) (set_coins (balance - 2500) gu) in
     out.1 = (true, "Max energy increased by +100!")
     ∧ game_users out.2 !! c = Some row'
     ∧ multitap_until row' = multitap_until gu
     ∧ autotap_until row' = autotap_until gu
     ∧ ∀ t, boost_multiplier t row' = boost_multiplier t gu)
  ∧ (∀ now, balance < 2500 →
       activate_boost c "maxenergy" now st = ((false, "Not enough coins"), st))
  ∧ (0 ≤ cap →
     ∀ rs, ∃ row',
       game_users (run_requests ord rs st) !! c = Some row'
       ∧ int_or (max_energy row') 500
         = cap + 100 * Z.of_nat (run_upgrades ord c rs st))
  ∧ (0 ≤ cap → is_registered c st = true →
     ∀ times, 2500 * Z.of_nat (length times) ≤ balance →
       ∃ row',
         game_users
           (run_requests ord
              ((λ t, ReqBoost (Some c) "maxenergy" t) <$> times) st) !! c
         = Some row'
         ∧ int_or (max_energy row') 500
           = cap + 100 * Z.of_nat (length times)).
Proof.
  intros Hrow cap balance. split; [|split; [|split]].
  - intros now Hc out row'.
    destruct (activate_maxenergy_adds c now st gu Hrow Hc) as [Hok Hrow'].
    split; [done|]. split; [done|]. split; [done|]. split; [done|].
    intros t. apply maxenergy_no_multiplier.
  - intros now Hc. by apply (activate_boost_short c "maxenergy" now st gu 2500).
  - intros Hcap rs. by apply run_max_energy.
  - intros Hcap Hreg times Hc.
    destruct (run_max_energy ord
                ((λ t, ReqBoost (Some c) "maxenergy" t) <$> times) st c gu
                Hrow Hcap) as (row' & Hrow' & Hmax).
    exists row'. split; [done|].
    by rewrite Hmax, (run_upgrades_repeat ord c times st gu).
Qed.

Lemma maxenergy_upgrade_permanent_witness :
  let T := 1700000000000000 in
  ∃ row',
    game_users
      (run_requests elements_listing
         [ReqBoost (Some 7) "maxenergy" T;
          ReqBoost (Some 7) "maxenergy" (T + timedelta_days 30)]
         (two_player_state T)) !! 7
    = Some row'
    ∧ int_or (max_energy row') 500 = 700.
Proof.
  intros T.
  destruct (maxenergy_upgrade_permanent elements_listing 7 (two_player_state T)
              (set_coins 5000 (new_game_user T)))
    as (_ & _ & _ & Hrepeat); [reflexivity|].
  destruct (Hrepeat ltac:(vm_compute; discriminate) eq_refl
              [T; T + timedelta_days 30]) as (row' & Hrow' & Hmax).
  - vm_compute. discriminate.
  - exists row'. split; [exact Hrow'|]. rewrite Hmax. reflexivity.
Defined.

(** ** The rate limiter, account by account *)

Lemma accepted_taps_ext (c : Z) (calls : list (Z * Z)) :
  ∀ rw1 rw2 : gmap Z (list Z),
    window_of c rw1 = window_of c rw2 →
    accepted_taps c calls rw1 = accepted_taps c calls rw2.
Proof.
  induction calls as [|[c' t] rest IH]; intros rw1 rw2 Hw; [done|].
  cbn [accepted_taps]. destruct (decide (c' = c)) as [->|Hne].
  - rewrite !can_tap_now_eq. cbn zeta. cbn [fst snd]. rewrite Hw.
    f_equal. apply IH. unfold window_of. by rewrite !lookup_insert_eq.
  - rewrite !bool_decide_eq_false_2, !andb_false_r by done. cbn [app].
    apply IH. by rewrite !window_of_can_tap_now_ne.
Qed.

(** X9.  The rate limit of an account does not depend on the other
    accounts: in any run of calls, the taps accepted for an account are
    the taps that would be accepted if only its own calls were made. *)
Theorem rate_limit_per_account (c : Z) (calls : list (Z * Z))
    (rw : gmap Z (list Z)) :
  accepted_taps c calls rw
  = accepted_taps c (filter (λ p : Z * Z, p.1 = c) calls) rw.
Proof.
  revert rw. induction calls as [|[c' t] rest IH]; intros rw; [done|].
  destruct (decide (c' = c)) as [->|Hne].
  - rewrite filter_cons_True by done. cbn [accepted_taps]. f_equal. apply IH.
  - rewrite filter_cons_False by done. cbn [accepted_taps].
    rewrite bool_decide_eq_false_2, andb_false_r by done. cbn [app].
    rewrite IH. apply accepted_taps_ext. by apply window_of_can_tap_now_ne.
Qed.

Lemma run_window_suffix (c : Z) (calls : list (Z * Z)) :
  ∀ (rw : gmap Z (list Z)) (hist : list Z),
    window_of c rw `suffix_of` hist →
    (length (window_of c rw) ≤ MAX_TAPS_PER_SEC)%nat →
    window_of c (run_store calls rw)
      `suffix_of` (hist ++ accepted_taps c calls rw)
    ∧ (length (window_of c (run_store calls rw)) ≤ MAX_TAPS_PER_SEC)%nat.
Proof.
  induction calls as [|[c' t] rest IH]; intros rw hist Hsuf Hlen.
  - cbn. by rewrite app_nil_r.
  - cbn [run_store accepted_taps].
    destruct (decide (c' = c)) as [->|Hne].
    + rewrite bool_decide_eq_true_2, andb_true_r by done.
      pose proof (can_tap_now_eq t c rw) as Heq. cbn zeta in Heq.
      pose proof (evict_old_suffix t (window_of c rw)) as Hev.
      assert (Hevlen : (length (evict_old t (window_of c rw))
                        ≤ length (window_of c rw))%nat)
        by (by apply suffix_length).
      rewrite Heq. cbn [fst snd]. case_bool_decide as Hroom.
      * rewrite app_assoc. apply IH.
        -- unfold window_of at 1. rewrite lookup_insert_eq. cbn.
           apply suffix_app. by etrans.
        -- unfold window_of at 1. rewrite lookup_insert_eq. cbn.
           rewrite length_app. cbn. lia.
      * cbn [app]. apply IH.
        -- unfold window_of at 1. rewrite lookup_insert_eq. cbn. by etrans.
        -- unfold window_of at 1. rewrite lookup_insert_eq. cbn. lia.
    + rewrite bool_decide_eq_false_2, andb_false_r by done. cbn [app].
      apply IH; by rewrite window_of_can_tap_now_ne.
Qed.

(** X10.  Starting from empty rate windows, after any run of calls the
    window of every account holds at most 20 readings, and they are the
    most recent accepted taps of that account in the order they were
    accepted; in particular the bound of 60 entries given to the deque is
    never reached. *)
Theorem rate_window_bounded (calls : list (Z * Z)) (c : Z) :
  (length (window_of c (run_store calls ∅)) ≤ 20)%nat
  ∧ window_of c (run_store calls ∅) `suffix_of` accepted_taps c calls ∅.
Proof.
  destruct (run_window_suffix c calls ∅ []) as [Hsuf Hlen].
  - unfold window_of. by rewrite lookup_empty.
  - unfold window_of. rewrite lookup_empty. cbn. lia.
  - split; [exact Hlen|exact Hsuf].
Qed.

(** ** What the nonce cache remembers *)

(** X11.  A tap request changes at most the nonce cache of its caller;
    a cache only ever gains the nonce of the request; and a cache of fewer
    than 200 nonces forgets nothing, so every nonce it holds stays blocked
    for its account. *)
Theorem nonce_cache_step (ord : set_listing) (auth : option Z)
    (nonce : string) (mono now : Z) (st : state) (c : Z) :
  let before := nonces_of c (_recent_nonces st) in
  let after :=
    nonces_of c (_recent_nonces (api_tap ord auth nonce mono now st).2) in
  after ⊆ before ∪ {[nonce]}
  ∧ (auth ≠ Some c → after = before)
  ∧ ((size before < 200)%nat → before ⊆ after).
Proof.
  intros before after. subst before after.
  destruct (api_tap_nonces ord auth nonce mono now st)
    as [->|(a & -> & Hnew & ->)].
  { split; [set_solver|]. split; [done|set_solver]. }
  destruct (decide (a = c)) as [->|Hne].
  - rewrite nonces_of_clean, nonces_of_add.
    set (s := nonces_of c (_recent_nonces st)).
    pose proof (size_add_nonce nonce s) as Hsz.
    case_decide as Hbig.
    + destruct (trimmed_cache ord ({[nonce]} ∪ s) Hbig) as [_ Hsub].
      split; [set_solver|]. split; [done|]. intros Hsmall. lia.
    + split; [set_solver|]. split; [done|]. set_solver.
  - rewrite nonces_of_clean_ne, nonces_of_add_ne by done.
    split; [set_solver|]. split; [done|set_solver].
Qed.

Lemma nonce_cache_step_witness :
  sample_cache
  ⊆ nonces_of 7
      (_recent_nonces
         (api_tap elements_listing None "abc" 5 1700000000000000
            (set_recent_nonces {[ 7 := sample_cache ]}
               (two_player_state 1700000000000000))).2).
Proof.
  destruct (nonce_cache_step elements_listing None "abc" 5 1700000000000000
              (set_recent_nonces {[ 7 := sample_cache ]}
                 (two_player_state 1700000000000000)) 7)
    as (_ & Hother & _).
  rewrite Hother by discriminate. reflexivity.
Defined.

(** ** Streaks over many days *)

Lemma tap_streak_step (today d : Z) (gu : game_user) :
  last_streak_at gu = Some d →
  last_streak_at (tap_streak today gu) = Some today
  ∧ int_or (daily_streak (tap_streak today gu)) 0
    = (if decide (today = d + 1) then int_or (daily_streak gu) 0 + 1
       else if decide (today = d) then int_or (daily_streak gu) 0
       else 1).
Proof.
  intros Hd. unfold tap_streak, streak_update. rewrite Hd. cbn [negb].
  destruct (decide (today = d + 1)) as [->|H1].
  - rewrite decide_True by (f_equal; lia). cbn [fst snd set_streak
      last_streak_at daily_streak]. by rewrite int_or_some_idem.
  - rewrite decide_False by (intros [=]; lia).
    destruct (decide (today = d)) as [->|H2].
    + rewrite decide_True by done. cbn [fst snd set_streak
        last_streak_at daily_streak]. by rewrite int_or_some_idem.
    + rewrite decide_False by (intros [=]; lia). done.
Qed.

Lemma last_cons_default {A} (a d : A) (l : list A) :
  List.last (a :: l) d = List.last l a.
Proof.
  revert a d. induction l as [|b l IH]; intros a d; [done|].
  change (List.last (a :: b :: l) d) with (List.last (b :: l) d).
  rewrite !IH. done.
Qed.

(** X12.  The streak counts consecutive days.  Starting from a row last
    credited on day [d], taps on days that follow without a gap (any
    number of taps per day) raise the streak by the number of days passed,
    and the row is credited on the last of these days.  A tap two or more
    days after the last credited day sets the streak to 1. *)
Theorem streak_counts_days (days : list Z) (gu : game_user) (d : Z) :
  last_streak_at gu = Some d →
  (without_gap d days →
     int_or (daily_streak (streak_after days gu)) 0
     = int_or (daily_streak gu) 0 + (List.last days d - d)
     ∧ last_streak_at (streak_after days gu) = Some (List.last days d))
  ∧ (∀ today, d + 2 ≤ today →
       int_or (daily_streak (tap_streak today gu)) 0 = 1).
Proof.
  intros Hd. split.
  - revert gu d Hd. induction days as [|d' rest IH]; intros gu d Hd Hgap.
    + cbn. split; [lia|done].
    + destruct Hgap as [Hstep Hgap].
      destruct (tap_streak_step d' d gu Hd) as [Hlast Hs].
      cbn [streak_after foldl].
      change (foldl (λ g d0, tap_streak d0 g) (tap_streak d' gu) rest)
        with (streak_after rest (tap_streak d' gu)).
      destruct (IH (tap_streak d' gu) d' Hlast Hgap) as [IHs IHl].
      rewrite last_cons_default, IHs, IHl, Hs. split; [|done].
      destruct Hstep as [->| ->]; repeat case_decide; lia.
  - intros today Hgap.
    destruct (tap_streak_step today d gu Hd) as [_ ->].
    repeat case_decide; lia.
Qed.

Lemma streak_counts_days_witness :
  int_or (daily_streak
            (streak_after [19675; 19675; 19676; 19677; 19677]
               (set_streak 4 19674 (new_game_user 1700000000000000)))) 0
  = 7.
Proof.
  destruct (streak_counts_days [19675; 19675; 19676; 19677; 19677]
              (set_streak 4 19674 (new_game_user 1700000000000000)) 19674
              eq_refl) as [Hrun _].
  destruct Hrun as [Hs _].
  - cbn. repeat split; auto.
  - rewrite Hs. reflexivity.
Defined.

Lemma tapped_row_streak (now : Z) (gu : game_user) :
  daily_streak (tapped_row now gu)
  = daily_streak (tap_streak (date_of now) gu)
  ∧ last_streak_at (tapped_row now gu)
    = last_streak_at (tap_streak (date_of now) gu).
Proof. done. Qed.

(** ** The tap log *)

(** X13.  [add_tap] always appends exactly one event to the log, with the
    given account, time, [delta] and nonce, and never creates a row in
    [game_users].  It adds [delta] to the coins of the account when the
    account has a row; when it has none, the event is logged all the same
    and no balance changes. *)
Theorem add_tap_effect (c delta : Z) (nonce : string) (now : Z) (st : state) :
  let st' := add_tap c delta nonce now st in
  game_taps st'
  = game_taps st ++ [{| tap_chat_id := c; tap_ts := now;
                        tap_delta := delta; tap_nonce := nonce |}]
  ∧ (∀ c', tap_total c' st'
           = tap_total c' st + (if decide (c' = c) then delta else 0))
  ∧ (∀ c', coins_of c' st'
           = coins_of c' st
             + (if decide (c' = c ∧ is_Some (game_users st !! c))
                then delta else 0))
  ∧ dom (game_users st') = dom (game_users st)
  ∧ (game_users st !! c = None → game_users st' = game_users st).
Proof.
  cbn zeta.
  assert (Htaps : game_taps (add_tap c delta nonce now st)
                  = game_taps st ++ [{| tap_chat_id := c; tap_ts := now;
                                        tap_delta := delta;
                                        tap_nonce := nonce |}]) by done.
  assert (Hrows : game_users (add_tap c delta nonce now st)
                  = alter (λ gu, set_last_tap_at now
                                   (set_coins (default 0 (coins gu) + delta) gu))
                      c (game_users st)) by done.
  split; [done|]. split; [|split; [|split]].
  - intros c'. unfold tap_total. rewrite Htaps, sum_delta_snoc.
    cbn [tap_chat_id tap_delta].
    destruct (decide (c' = c)) as [->|Hne].
    + by rewrite Z.eqb_refl.
    + by rewrite (proj2 (Z.eqb_neq c c')).
  - intros c'. unfold coins_of. rewrite Hrows.
    destruct (decide (c' = c)) as [->|Hne].
    + rewrite lookup_alter_eq.
      destruct (game_users st !! c) as [row|] eqn:Hrow; cbn.
      * rewrite decide_True by eauto. done.
      * rewrite decide_False by (intros [_ [? ?]]; done). lia.
    + rewrite lookup_alter_ne by done.
      rewrite decide_False by (intros [? _]; done). lia.
  - rewrite Hrows. apply dom_alter_L.
  - intros Hnone. rewrite Hrows. apply alter_id.
    intros row Hrow. congruence.
Qed.

Lemma add_tap_effect_witness :
  let T := 1700000000000000 in
  game_users (add_tap 8 2 "abc" T (two_player_state T))
  = game_users (two_player_state T).
Proof.
  intros T.
  destruct (add_tap_effect 8 2 "abc" T (two_player_state T))
    as (_ & _ & _ & _ & Hnone).
  apply Hnone. vm_compute. reflexivity.
Defined.

Lemma boost_multiplier_values (now : Z) (gu : game_user) :
  boost_multiplier now gu = 1 ∨ boost_multiplier now gu = 2.
Proof.
  rewrite boost_multiplier_eq. unfold granted_multiplier.
  destruct (boost_active now (multitap_until gu)),
           (boost_active now (autotap_until gu)); auto.
Qed.

Lemma tap_apply_log (c : Z) (nonce : string) (now : Z) (st : state) :
  game_taps (tap_apply c nonce now st).2 = game_taps st
  ∨ ∃ m, (m = 1 ∨ m = 2)
         ∧ game_taps (tap_apply c nonce now st).2
           = game_taps st ++ [{| tap_chat_id := c; tap_ts := now;
                                 tap_delta := m; tap_nonce := nonce |}].
Proof.
  destruct (ok (tap_apply c nonce now st).1) eqn:Hok.
  2: { left. apply tap_apply_rejected in Hok as (gu & _ & _ & ->). done. }
  set (gu := (get_game_user c now st).1).
  destruct (Z.lt_ge_cases (compute_energy now gu).1 1) as [Hlt|Hge].
  { exfalso. destruct (game_users st !! c) as [row|] eqn:Hg.
    - unfold gu in Hlt. rewrite (get_game_user_existing c now st row Hg) in Hlt.
      rewrite (tap_apply_no_energy c nonce now st row Hg Hlt) in Hok. done.
    - unfold gu in Hlt. rewrite (get_game_user_missing c now st Hg) in Hlt.
      rewrite compute_energy_new in Hlt. cbn in Hlt. lia. }
  destruct (tap_apply_accepted c nonce now st Hge) as (Htaps & _ & _).
  right. exists (boost_multiplier now gu).
  split; [apply boost_multiplier_values|].
  rewrite Htaps. fold gu. by rewrite Z.mul_1_l.
Qed.

Lemma handle_log (ord : set_listing) (r : request) (st : state) :
  ∃ added, game_taps (handle ord r st).2 = game_taps st ++ added
           ∧ (length added ≤ 1)%nat
           ∧ Forall (λ t, (tap_delta t = 1 ∨ tap_delta t = 2)
                          ∧ Some (tap_chat_id t) = auth_of r) added.
Proof.
  assert (Hnil : ∀ st', game_taps st' = game_taps st →
            ∃ added, game_taps st' = game_taps st ++ added
                     ∧ (length added ≤ 1)%nat
                     ∧ Forall (λ t, (tap_delta t = 1 ∨ tap_delta t = 2)
                                    ∧ Some (tap_chat_id t) = auth_of r) added).
  { intros st' ->. exists []. rewrite app_nil_r. cbn. split; [done|].
    split; [lia|constructor]. }
  destruct r as [auth now|auth nonce mono now|auth name now];
    cbn [handle auth_of] in *.
  - apply Hnil. by destruct (api_state_ledger auth now st 0).
  - destruct auth as [a|]; [|by apply Hnil].
    destruct (is_registered a st) eqn:Hreg.
    2: { apply Hnil. unfold api_tap. by rewrite Hreg. }
    rewrite api_tap_gates by done. cbn zeta.
    destruct (can_tap_now mono a (_rate_windows st)) as [[] rw];
      cbn [fst snd negb]; [|by apply Hnil].
    destruct (bad_nonce nonce); [by apply Hnil|].
    destruct (bool_decide _); [by apply Hnil|].
    set (st2 := set_recent_nonces _ _).
    destruct (tap_apply_log a nonce now st2) as [Hsame|(m & Hm & Hlog)].
    + by apply Hnil.
    + eexists. split; [exact Hlog|]. cbn. split; [lia|].
      constructor; [done|constructor].
  - apply Hnil. unfold api_boost. destruct auth as [a|]; [|done].
    destruct (negb (is_registered a st)); [done|].
    destruct (activate_boost_ledger a 0 name now st) as [_ Ht].
    destruct (activate_boost a name now st) as [[b msg] st1]. exact Ht.
Qed.

(** X14.  The tap log is append-only.  Over any run of requests the log at
    the end is the log at the start followed by the events added; there is
    at most one new event per request, and every new event carries a
    [delta] of 1 or 2.  No request removes or rewrites an event. *)
Theorem tap_log_append_only (ord : set_listing) (rs : list request)
    (st : state) :
  ∃ added,
    game_taps (run_requests ord rs st) = game_taps st ++ added
    ∧ (length added ≤ length rs)%nat
    ∧ Forall (λ t, tap_delta t = 1 ∨ tap_delta t = 2) added.
Proof.
  revert st. induction rs as [|r rs IH]; intros st.
  - exists []. cbn. rewrite app_nil_r. split; [done|]. split; [lia|constructor].
  - cbn [run_requests foldl].
    change (foldl (λ st0 r0, (handle ord r0 st0).2) (handle ord r st).2 rs)
      with (run_requests ord rs (handle ord r st).2).
    destruct (handle_log ord r st) as (a1 & H1 & Hl1 & Hd1).
    destruct (IH (handle ord r st).2) as (a2 & H2 & Hl2 & Hd2).
    exists (a1 ++ a2). rewrite H2, H1, app_assoc. split; [done|].
    split; [rewrite length_app; cbn; lia|].
    apply Forall_app. split; [|done].
    eapply Forall_impl; [exact Hd1|]. by intros t [? _].
Qed.

(** ** More on the leaderboard *)

Global Instance score_ge_antisymm (pg : bool) : AntiSymm (=) (score_ge pg).
Proof.
  intros [x|] [y|]; unfold score_ge; destruct pg; intros H1 H2;
    try done; f_equal; lia.
Qed.

(** The scores of two descending arrangements of the same rows agree
    position by position, however rows of equal score are arranged. *)
Lemma descending_scores_unique (pg : bool) (l1 l2 : list lb_row) :
  l1 ≡ₚ l2 → Sorted (row_ge pg) l1 → Sorted (row_ge pg) l2 →
  lb_score <$> l1 = lb_score <$> l2.
Proof.
  intros Hp H1 H2.
  apply (Sorted_unique (score_ge pg)).
  - by apply (Sorted_fmap lb_score (row_ge pg)).
  - by apply (Sorted_fmap lb_score (row_ge pg)).
  - by rewrite Hp.
Qed.

Lemma leaderboard_is_answer (pg : bool) (range_ : string) (limit : nat)
    (now : Z) (st : state) :
  leaderboard_answer pg range_ limit now st
    (leaderboard pg range_ limit now st).
Proof.
  exists (merge_sort (row_ge pg) (leaderboard_rows range_ now st)).
  split; [apply merge_sort_Permutation|].
  split; [apply Sorted_merge_sort; apply _|].
  unfold leaderboard, leaderboard_rows. by destruct (decide (range_ = "all")).
Qed.

(** X15.  The scores of a shorter leaderboard are the first scores of a
    longer one of the same scope, state and instant, whichever way the
    database arranges rows of equal score in either answer (the rows
    themselves may differ among equal scores).  [leaderboard] as modelled
    is one of the answers the database may give.  [cmd_leaderboard] asks
    for the first 10 rows of scope "all" and the web handler for the
    first 50, so the ten scores the bot prints are the first ten scores
    the web handler returns for "all"; the web handler falls back to
    "all" when the range is missing or is not one of "day", "week",
    "all". *)
Theorem leaderboard_scores_prefix (pg : bool) (now : Z) (st : state) :
  (∀ (range_ : string) (n m : nat) (short long : list lb_row),
      (n ≤ m)%nat →
      leaderboard_answer pg range_ n now st short →
      leaderboard_answer pg range_ m now st long →
      lb_score <$> short = take n (lb_score <$> long))
  ∧ (∀ (range_ : string) (limit : nat),
       leaderboard_answer pg range_ limit now st
         (leaderboard pg range_ limit now st))
  ∧ cmd_leaderboard pg now st = leaderboard pg "all" 10 now st
  ∧ api_leaderboard pg None now st = leaderboard pg "all" 50 now st
  ∧ (∀ rng, rng ≠ "day" → rng ≠ "week" →
       api_leaderboard pg (Some rng) now st = leaderboard pg "all" 50 now st)
  ∧ lb_score <$> cmd_leaderboard pg now st
    = take 10 (lb_score <$> api_leaderboard pg None now st).
Proof.
  assert (Hpre : ∀ (range_ : string) (n m : nat) (short long : list lb_row),
            (n ≤ m)%nat →
            leaderboard_answer pg range_ n now st short →
            leaderboard_answer pg range_ m now st long →
            lb_score <$> short = take n (lb_score <$> long)).
  { intros range_ n m short long Hnm (s1 & Hp1 & Hs1 & ->) (s2 & Hp2 & Hs2 & ->).
    rewrite !fmap_take, take_take.
    replace (n `min` m)%nat with n by lia. f_equal.
    apply (descending_scores_unique pg); [|done|done].
    by rewrite Hp1, Hp2. }
  assert (Hnone : api_leaderboard pg None now st
                  = leaderboard pg "all" 50 now st).
  { unfold api_leaderboard. cbn [default].
    by rewrite bool_decide_eq_true_2 by set_solver. }
  split; [exact Hpre|]. split; [intros; apply leaderboard_is_answer|].
  split; [done|]. split; [exact Hnone|]. split.
  - intros rng Hd Hw. unfold api_leaderboard. cbn [default].
    case_bool_decide as Hin; [|done].
    assert (rng = "all") as -> by set_solver. done.
  - rewrite Hnone. unfold cmd_leaderboard.
    apply (Hpre "all" 10%nat 50%nat); [lia|apply leaderboard_is_answer..].
Qed.

Lemma leaderboard_scores_prefix_witness :
  let T := 1700000000000000 in
  let row7 := {| lb_username := Some "alice"; lb_chat_id := 7;
                 lb_score := Some 0 |} in
  let row8 := {| lb_username := Some "bob"; lb_chat_id := 8;
                 lb_score := Some 0 |} in
  lb_score <$> [row8] = take 1 (lb_score <$> [row7; row8]).
Proof.
  intros T row7 row8.
  destruct (leaderboard_scores_prefix false T (tied_players T)) as (Hpre & _).
  apply (Hpre "all" 1%nat 2%nat); [lia| |].
  - exists [row8; row7]. split; [|split; [|reflexivity]].
    + vm_compute. first [reflexivity | apply perm_swap].
    + repeat first [apply Sorted_cons | apply Sorted_nil | apply HdRel_cons
                   | apply HdRel_nil]. vm_compute. discriminate.
  - exists [row7; row8]. split; [|split; [|reflexivity]].
    + vm_compute. first [reflexivity | apply perm_swap].
    + repeat first [apply Sorted_cons | apply Sorted_nil | apply HdRel_cons
                   | apply HdRel_nil]. vm_compute. discriminate.
Defined.

Lemma sum_delta_window_mono (c since1 since2 : Z) (taps : list tap) :
  since2 ≤ since1 →
  Forall (λ t, 0 ≤ tap_delta t) taps →
  0 ≤ sum_delta c (taps_since since1 taps)
    ≤ sum_delta c (taps_since since2 taps).
Proof.
  intros Hle Hpos. unfold sum_delta, taps_since.
  induction Hpos as [|t taps Ht _ IH]; [done|]. cbn [List.filter].
  destruct (Z.leb_spec since1 (tap_ts t)), (Z.leb_spec since2 (tap_ts t));
    try lia; cbn [List.filter]; destruct (tap_chat_id t =? c); cbn; lia.
Qed.

Lemma length_remove_dups_le {A} `{EqDecision A} (l : list A) :
  (length (remove_dups l) ≤ length l)%nat.
Proof.
  induction l as [|x l IH]; [done|]. cbn.
  destruct (decide_rel elem_of x l); cbn; lia.
Qed.

(** X16.  When no logged [delta] is negative, the weekly score of an
    account is at least its daily score: every row of the "day" board has
    a row for the same account in the "week" board (asked with a limit
    that does not cut it) whose score is not smaller. *)
Theorem leaderboard_day_within_week (pg : bool) (limit : nat) (now : Z)
    (st : state) (r : lb_row) :
  Forall (λ t, 0 ≤ tap_delta t) (game_taps st) →
  r ∈ leaderboard pg "day" limit now st →
  ∃ r' x y,
    r' ∈ leaderboard pg "week" (length (game_taps st)) now st
    ∧ lb_chat_id r' = lb_chat_id r
    ∧ lb_score r = Some x ∧ lb_score r' = Some y ∧ 0 ≤ x ≤ y.
Proof.
  intros Hpos Hr.
  destruct (leaderboard_shape pg "day" limit now st) as (rows & Heq & _ & _ & Hd).
  specialize (Hd ltac:(discriminate)). cbn zeta in Hd.
  rewrite decide_True in Hd by done.
  rewrite Heq in Hr. apply ranked_elem_of in Hr. rewrite Hd in Hr.
  apply list_elem_of_fmap in Hr as (c & -> & Hc).
  apply elem_of_remove_dups, list_elem_of_fmap in Hc as (t & -> & Ht).
  unfold taps_since in Ht.
  apply list_elem_of_In, List.filter_In in Ht as [Ht Hts].
  apply Z.leb_le in Hts.
  destruct (leaderboard_shape pg "week" (length (game_taps st)) now st)
    as (rows' & Heq' & Hnd & _ & Hw).
  specialize (Hw ltac:(discriminate)). cbn zeta in Hw.
  rewrite decide_False in Hw by discriminate.
  set (day := taps_since (now - timedelta_days 1) (game_taps st)).
  set (week := taps_since (now - timedelta_days 7) (game_taps st)) in *.
  exists {| lb_username := username_of (tap_chat_id t) st;
            lb_chat_id := tap_chat_id t;
            lb_score := Some (sum_delta (tap_chat_id t) week) |},
         (sum_delta (tap_chat_id t) day), (sum_delta (tap_chat_id t) week).
  cbn [lb_chat_id lb_score]. split; [|split; [done|split; [done|split; [done|]]]].
  - rewrite Heq'.
    destruct (ranked_props pg (length (game_taps st)) rows' Hnd)
      as (_ & _ & _ & Hperm).
    rewrite Hperm.
    + rewrite Hw. apply list_elem_of_fmap. eexists. split; [reflexivity|].
      apply elem_of_remove_dups, list_elem_of_fmap. exists t. split; [done|].
      apply list_elem_of_In, List.filter_In. split; [done|].
      apply Z.leb_le. unfold timedelta_days, timedelta_seconds, usec in *. lia.
    + rewrite Hw, length_fmap.
      etrans; [apply length_remove_dups_le|]. rewrite length_fmap.
      apply List.filter_length_le.
  - apply sum_delta_window_mono; [|done].
    unfold timedelta_days, timedelta_seconds, usec. lia.
Qed.

Lemma leaderboard_day_within_week_witness :
  let T := 1700000000000000 in
  ∃ r' x y,
    r' ∈ leaderboard false "week" 2 T (old_and_new_taps T)
    ∧ lb_chat_id r' = 8
    ∧ Some 1 = Some x ∧ lb_score r' = Some y ∧ 0 ≤ x ≤ y.
Proof.
  intros T.
  apply (leaderboard_day_within_week false 50 T (old_and_new_taps T)
           {| lb_username := Some "bob"; lb_chat_id := 8;
              lb_score := Some 1 |}).
  - vm_compute. repeat constructor; discriminate.
  - vm_compute. left.
Defined.

(** ** Lazy creation of accounts *)

(** X17.  [upsert_user_if_missing] creates what is missing and nothing
    else: afterwards the account has a row in [users] and in
    [game_users]; rows that existed, of this or any other account, are
    kept as they were; a created game row is the fresh account (no coins,
    energy 500 of 500, rate 3, checkpoint [now]) and a created user row is
    not registered; and a second call, with whatever name and clock,
    changes nothing. *)
Theorem upsert_creates_once (c : Z) (name : option string) (now : Z)
    (st : state) :
  let st' := upsert_user_if_missing c name now st in
  is_Some (users st' !! c)
  ∧ game_users st' !! c
    = Some (default (new_game_user now) (game_users st !! c))
  ∧ (∀ c' u, users st !! c' = Some u → users st' !! c' = Some u)
  ∧ (∀ c', c' ≠ c → users st' !! c' = users st !! c'
                    ∧ game_users st' !! c' = game_users st !! c')
  ∧ (∀ c', is_registered c' st' = is_registered c' st)
  ∧ game_taps st' = game_taps st
  ∧ (∀ name' now', upsert_user_if_missing c name' now' st' = st').
Proof.
  cbn zeta.
  pose proof (upsert_keeps_local c name now st) as (_ & _ & Ht).
  pose proof (λ c', upsert_keeps_registered c c' name now st) as Hr.
  unfold upsert_user_if_missing in *.
  destruct (users st !! c) as [u|] eqn:Hu;
    destruct (game_users st !! c) as [g|] eqn:Hg;
    cbn [users game_users set_users set_game_users] in *;
    rewrite ?Hg in *; cbn [users game_users set_users set_game_users] in *;
    rewrite ?lookup_insert_eq.
  all: split; [eauto|]; split; [done|].
  all: split;
    [intros c' u' Hu';
     destruct (decide (c' = c)) as [->|Hne];
     rewrite ?lookup_insert_ne by done; congruence|].
  all: split; [intros c' Hne; by rewrite ?lookup_insert_ne by done|].
  all: split; [exact Hr|]; split; [exact Ht|].
  all: intros name' now';
    cbn [users game_users set_users set_game_users];
    rewrite ?lookup_insert_eq, ?Hu, ?Hg;
    cbn [users game_users set_users set_game_users];
    rewrite ?lookup_insert_eq, ?Hg; done.
Qed.

Lemma upsert_creates_once_witness :
  let T := 1700000000000000 in
  users (upsert_user_if_missing 7 (Some "eve") T (two_player_state T)) !! 7
  = Some (registered_user "alice").
Proof.
  intros T.
  destruct (upsert_creates_once 7 (Some "eve") T (two_player_state T))
    as (_ & _ & Hkeep & _).
  apply Hkeep. vm_compute. reflexivity.
Defined.

(** ** The admin commands *)

Lemma update_game_user_fields_missing (c : Z) (f : game_user → game_user)
    (st : state) :
  game_users st !! c = None → update_game_user_fields c f st = st.
Proof.
  intros Hnone. unfold update_game_user_fields, set_game_users.
  rewrite alter_id' by done. by destruct st.
Qed.

(** X18.  [cmd_setcoins] acts for the admin only: for any other caller,
    or none, it answers nothing and changes nothing.  For the admin, with
    two arguments that parse as numbers within 64 bits, it answers "OK"
    and sets the coins of the account to the amount, leaving the rest of
    the row, the other accounts and the tap log alone; when the account
    has no row it still answers "OK" but stores nothing.  With a chat id
    or an amount outside 64 bits nothing is stored.  With fewer than two
    arguments, or an argument that is not a number, it changes
    nothing. *)
Theorem cmd_setcoins_effect (parse_int : string → option Z) (ADMIN_ID : Z)
    (caller : option Z) (args : list string) (st : state) :
  let out := cmd_setcoins parse_int ADMIN_ID caller args st in
  (caller ≠ Some ADMIN_ID → out = (None, st))
  ∧ (∀ a0 a1 rest cid amount,
       caller = Some ADMIN_ID → args = a0 :: a1 :: rest →
       parse_int a0 = Some cid → parse_int a1 = Some amount →
       in_int64 cid = true → in_int64 amount = true →
       out.1 = Some "OK"
       ∧ game_users out.2 !! cid = set_coins amount <$> game_users st !! cid
       ∧ (game_users st !! cid = None → out.2 = st)
       ∧ (∀ c', c' ≠ cid → game_users out.2 !! c' = game_users st !! c')
       ∧ game_taps out.2 = game_taps st ∧ users out.2 = users st)
  ∧ (∀ a0 a1 rest cid amount,
       args = a0 :: a1 :: rest →
       parse_int a0 = Some cid → parse_int a1 = Some amount →
       in_int64 cid = false ∨ in_int64 amount = false →
       out.2 = st)
  ∧ (out.1 ≠ Some "OK" → out.2 = st).
Proof.
  intros out. subst out. unfold cmd_setcoins, _is_admin.
  split; [|split; [|split]].
  - intros Hna. destruct caller as [id|]; [|done].
    rewrite bool_decide_eq_false_2 by congruence. done.
  - intros a0 a1 rest cid amount -> -> H0 H1 Hcid Hamount.
    rewrite bool_decide_eq_true_2 by done. cbn [negb].
    rewrite H0, H1, Hcid, Hamount.
    cbn [fst snd andb]. split; [done|].
    split; [apply update_game_user_fields_lookup|].
    split; [apply update_game_user_fields_missing|].
    split; [intros c' Hne; by apply update_game_user_fields_lookup_ne|done].
  - intros a0 a1 rest cid amount -> H0 H1 Hout.
    destruct (negb _); [done|]. rewrite H0, H1.
    destruct Hout as [-> | ->]; [done|]. by rewrite andb_false_r.
  - destruct caller as [id|]; [|done].
    case_bool_decide; cbn [negb]; [|done].
    destruct args as [|a0 [|a1 rest]]; [done..|].
    destruct (parse_int a0) as [cid|], (parse_int a1) as [amount|];
      cbn [fst snd]; try done.
    by destruct (in_int64 cid && in_int64 amount).
Qed.

Lemma cmd_setcoins_effect_witness :
  let T := 1700000000000000 in
  let parse := λ s : string,
    if bool_decide (s = "7") then Some 7 else Some (2 ^ 63) in
  cmd_setcoins (λ _, Some 8) 1 (Some 2) ["8"; "8"] (two_player_state T)
  = (None, two_player_state T)
  ∧ (cmd_setcoins parse 1 (Some 1) ["7"; "9223372036854775808"]
       (two_player_state T)).2
    = two_player_state T.
Proof.
  intros T parse. split.
  - destruct (cmd_setcoins_effect (λ _, Some 8) 1 (Some 2) ["8"; "8"]
                (two_player_state T)) as (Hguard & _).
    apply Hguard. discriminate.
  - destruct (cmd_setcoins_effect parse 1 (Some 1)
                ["7"; "9223372036854775808"] (two_player_state T))
      as (_ & _ & Hbig & _).
    apply (Hbig "7" "9223372036854775808" [] 7 (2 ^ 63));
      [reflexivity|reflexivity|reflexivity|right; reflexivity].
Defined.

(** X19.  [cmd_addcoins] acts for the admin only.  For the admin, with a
    chat id and an amount that parse as numbers, the id within 64 bits
    and the new balance too, it answers "OK" and adds the amount to the
    coins of the account, creating the account first when it has no row
    (so, unlike [cmd_setcoins], it never loses the change); the other
    accounts and the tap log are left alone.  Whenever it does not answer
    "OK" no balance changes, no existing row is touched and the tap log
    is as before: at most the fresh row of the account has been created
    before the update failed. *)
Theorem cmd_addcoins_effect (parse_int : string → option Z) (ADMIN_ID : Z)
    (caller : option Z) (args : list string) (now : Z) (st : state) :
  let out := cmd_addcoins parse_int ADMIN_ID caller args now st in
  (caller ≠ Some ADMIN_ID → out = (None, st))
  ∧ (∀ a0 a1 rest cid delta,
       caller = Some ADMIN_ID → args = a0 :: a1 :: rest →
       parse_int a0 = Some cid → parse_int a1 = Some delta →
       in_int64 cid = true → in_int64 (coins_of cid st + delta) = true →
       out.1 = Some "OK"
       ∧ coins_of cid out.2 = coins_of cid st + delta
       ∧ is_Some (game_users out.2 !! cid)
       ∧ (∀ c', c' ≠ cid → game_users out.2 !! c' = game_users st !! c')
       ∧ game_taps out.2 = game_taps st)
  ∧ (out.1 ≠ Some "OK" →
     (∀ c, coins_of c out.2 = coins_of c st)
     ∧ (∀ c row, game_users st !! c = Some row →
                 game_users out.2 !! c = Some row)
     ∧ game_taps out.2 = game_taps st)
  ∧ (∀ a0 a1 rest cid delta,
       args = a0 :: a1 :: rest →
       parse_int a0 = Some cid → parse_int a1 = Some delta →
       in_int64 cid = false → out.2 = st).
Proof.
  intros out. subst out. unfold cmd_addcoins, _is_admin.
  split; [|split; [|split]].
  - intros Hna. destruct caller as [id|]; [|done].
    rewrite bool_decide_eq_false_2 by congruence. done.
  - intros a0 a1 rest cid delta -> -> H0 H1 Hcid Hsum.
    rewrite bool_decide_eq_true_2 by done. cbn [negb]. rewrite H0, H1, Hcid.
    cbn [negb].
    pose proof (get_game_user_row cid now st) as Hrow.
    pose proof (coins_of_get_game_user cid cid now st) as Hc.
    pose proof (get_game_user_keeps_local cid now st) as (_ & _ & Ht).
    pose proof (λ c' H, get_game_user_lookup_ne cid c' now st H) as Hne.
    destruct (get_game_user cid now st) as [gu st1]. cbn [fst snd] in *.
    assert (Hbal : int_or (coins gu) 0 = coins_of cid st).
    { by rewrite <- Hc, (coins_of_row cid st1 gu Hrow), int_or_zero. }
    rewrite Hbal, Hsum. cbn [negb fst snd].
    split; [done|]. split; [|split; [|split]].
    + rewrite (coins_of_update_set cid cid (coins_of cid st + delta))
        by eauto.
      by rewrite decide_True by done.
    + rewrite update_game_user_fields_lookup, Hrow. eauto.
    + intros c' Hc'. rewrite update_game_user_fields_lookup_ne by done.
      apply Hne. done.
    + done.
  - assert (Hsame : (∀ c, coins_of c st = coins_of c st)
                    ∧ (∀ c row, game_users st !! c = Some row →
                                game_users st !! c = Some row)
                    ∧ game_taps st = game_taps st) by done.
    destruct caller as [id|]; [|done].
    case_bool_decide; cbn [negb]; [|done].
    destruct args as [|a0 [|a1 rest]]; [done..|].
    destruct (parse_int a0) as [cid|], (parse_int a1) as [delta|];
      cbn [fst snd]; try done.
    destruct (in_int64 cid); cbn [negb fst snd]; [|done].
    pose proof (λ c, coins_of_get_game_user cid c now st) as Hc.
    pose proof (get_game_user_keeps_local cid now st) as (_ & _ & Ht).
    pose proof (λ c row, get_game_user_keeps_row cid c now st row) as Hk.
    destruct (get_game_user cid now st) as [gu st1]. cbn [fst snd] in *.
    destruct (in_int64 (int_or (coins gu) 0 + delta)); cbn [negb fst snd];
      done.
  - intros a0 a1 rest cid delta -> H0 H1 Hcid.
    destruct (negb _); [done|]. by rewrite H0, H1, Hcid.
Qed.

Lemma cmd_addcoins_effect_witness :
  let T := 1700000000000000 in
  coins_of 8
    (cmd_addcoins (λ s, if bool_decide (s = "8") then Some 8 else Some 25)
       1 (Some 1) ["8"; "25"] T (two_player_state T)).2
  = coins_of 8 (two_player_state T) + 25.
Proof.
  intros T.
  destruct (cmd_addcoins_effect
              (λ s, if bool_decide (s = "8") then Some 8 else Some 25)
              1 (Some 1) ["8"; "25"] T (two_player_state T))
    as (_ & Hadd & _).
  destruct (Hadd "8" "25" [] 8 25) as (_ & Hcoins & _);
    [reflexivity|reflexivity|reflexivity|reflexivity|reflexivity
    |reflexivity|].
  exact Hcoins.
Defined.

(** ** Referrals *)

Lemma referrals_of_insert (c referrer referee now : Z) (b : bot_state)
    (e : state) :
  game_referrals b !! (referrer, referee) = None →
  referrals_of c {| engine := e;
                    game_referrals := <[(referrer, referee) := now]>
                                        (game_referrals b) |}
  = (if decide (c = referrer) then S (referrals_of c b)
     else referrals_of c b).
Proof.
  intros Hnone. unfold referrals_of. cbn [game_referrals].
  destruct (decide (c = referrer)) as [->|Hne].
  - rewrite map_filter_insert_True by done.
    rewrite map_size_insert_None; [done|].
    apply map_lookup_filter_None_2. by left.
  - rewrite map_filter_insert_not'; [done|cbn; congruence|].
    intros y Hy. congruence.
Qed.

Lemma add_referral_new (referrer referee now : Z) (b : bot_state) :
  referrer ≠ referee → 0 < referee →
  in_int64 referrer = true → in_int64 referee = true →
  game_referrals b !! (referrer, referee) = None →
  add_referral_if_absent referrer referee now b
  = {| engine := set_users (alter add_invite referrer (users (engine b)))
                   (engine b);
       game_referrals := <[(referrer, referee) := now]> (game_referrals b) |}.
Proof.
  intros Hne Hpos Hr He Hnone. unfold add_referral_if_absent.
  rewrite bool_decide_eq_false_2 by done.
  rewrite (proj2 (Z.leb_gt referee 0)) by lia. cbn [orb].
  by rewrite Hr, He, Hnone.
Qed.

(** When a call of [add_referral_if_absent] writes nothing: a referral of
    oneself, a referee id that is not positive, an id outside 64 bits, or
    a pair already recorded. *)
Lemma add_referral_skip (referrer referee now : Z) (b : bot_state) :
  referrer = referee ∨ referee ≤ 0
  ∨ in_int64 referrer = false ∨ in_int64 referee = false
  ∨ is_Some (game_referrals b !! (referrer, referee)) →
  add_referral_if_absent referrer referee now b = b.
Proof.
  unfold add_referral_if_absent. intros [->|[Hle|[Hr|[He|[v Hv]]]]].
  - by rewrite bool_decide_eq_true_2.
  - rewrite (proj2 (Z.leb_le referee 0)) by done. by rewrite orb_true_r.
  - rewrite Hr. cbn [andb negb]. by destruct (_ || _).
  - rewrite He, andb_false_r. cbn [negb]. by destruct (_ || _).
  - destruct (_ || _); [done|]. destruct (negb _); [done|]. by rewrite Hv.
Qed.

(** A call either writes nothing, for one of these reasons, or adds the
    row of a new pair and credits the referrer. *)
Lemma add_referral_cases (referrer referee now : Z) (b : bot_state) :
  (referrer = referee ∨ referee ≤ 0
   ∨ in_int64 referrer = false ∨ in_int64 referee = false
   ∨ is_Some (game_referrals b !! (referrer, referee)))
  ∨ (referrer ≠ referee ∧ 0 < referee
     ∧ in_int64 referrer = true ∧ in_int64 referee = true
     ∧ game_referrals b !! (referrer, referee) = None).
Proof.
  destruct (decide (referrer = referee)); [by left; left|].
  destruct (Z.lt_ge_cases 0 referee); [|left; right; left; lia].
  destruct (in_int64 referrer) eqn:Hr; [|by left; right; right; left].
  destruct (in_int64 referee) eqn:He; [|by left; right; right; right; left].
  destruct (game_referrals b !! (referrer, referee)) eqn:E.
  - left. do 4 right. eauto.
  - by right.
Qed.

Lemma invites_of_credit (c referrer : Z) (b : bot_state)
    (refs : gmap (Z * Z) Z) :
  invites_of c {| engine := set_users
                              (alter add_invite referrer (users (engine b)))
                              (engine b);
                  game_referrals := refs |}
  = invites_of c b
    + (if decide (c = referrer ∧ is_Some (users (engine b) !! referrer))
       then 1 else 0).
Proof.
  unfold invites_of. cbn [engine users set_users].
  destruct (decide (c = referrer)) as [->|Hne].
  - rewrite lookup_alter_eq.
    destruct (users (engine b) !! referrer) as [u|]; cbn.
    + rewrite decide_True by eauto. done.
    + rewrite decide_False by (intros [_ [? ?]]; done). lia.
  - rewrite lookup_alter_ne by done.
    rewrite decide_False by (intros [? _]; done). lia.
Qed.

(** X20.  [add_referral_if_absent] records a referral at most once.  A
    referral of oneself, of a referee with a non-positive id, with an id
    outside the 64-bit range of the columns, or of a pair already
    recorded changes nothing.  Otherwise one row for the pair is added
    with the time of the call, the count of referrals of the referrer
    grows by one, and the invites of the referrer grow by one if the
    referrer has a row in [users]; if not, the referral is recorded but
    nobody is credited.  Nothing else changes, and repeating the call
    changes nothing. *)
Theorem add_referral_effect (referrer referee now : Z) (b : bot_state) :
  let b' := add_referral_if_absent referrer referee now b in
  (referrer = referee ∨ referee ≤ 0
   ∨ in_int64 referrer = false ∨ in_int64 referee = false
   ∨ is_Some (game_referrals b !! (referrer, referee)) → b' = b)
  ∧ (referrer ≠ referee → 0 < referee →
     in_int64 referrer = true → in_int64 referee = true →
     game_referrals b !! (referrer, referee) = None →
     game_referrals b' = <[(referrer, referee) := now]> (game_referrals b)
     ∧ (∀ c, referrals_of c b'
             = if decide (c = referrer) then S (referrals_of c b)
               else referrals_of c b)
     ∧ (∀ c, invites_of c b'
             = invites_of c b
               + (if decide (c = referrer
                             ∧ is_Some (users (engine b) !! referrer))
                  then 1 else 0)))
  ∧ game_users (engine b') = game_users (engine b)
  ∧ game_taps (engine b') = game_taps (engine b)
  ∧ (∀ c, is_registered c (engine b') = is_registered c (engine b))
  ∧ (∀ now', add_referral_if_absent referrer referee now' b' = b').
Proof.
  cbn zeta.
  destruct (add_referral_cases referrer referee now b)
    as [Hskip|(Hne & Hpos & Hr & He & Hnone)].
  - rewrite (add_referral_skip referrer referee now b Hskip).
    split; [done|]. split.
    { intros Hne Hpos Hr He Hnone. exfalso.
      destruct Hskip as [?|[?|[?|[?|[v Hv]]]]];
        [done|lia|congruence|congruence|congruence]. }
    do 3 (split; [done|]). intros now'. by apply add_referral_skip.
  - rewrite (add_referral_new referrer referee now b Hne Hpos Hr He Hnone).
    split.
    { intros [?|[?|[?|[?|[v Hv]]]]];
        [done|lia|congruence|congruence|congruence]. }
    split.
    { intros _ _ _ _ _. split; [done|]. split.
      - intros c. by apply referrals_of_insert.
      - intros c. apply invites_of_credit. }
    split; [done|]. split; [done|]. split.
    + intros c. unfold is_registered. cbn [engine users set_users].
      destruct (decide (c = referrer)) as [->|Hc].
      * rewrite lookup_alter_eq. by destruct (users (engine b) !! referrer).
      * by rewrite lookup_alter_ne.
    + intros now'. apply add_referral_skip. do 4 right.
      cbn [game_referrals]. rewrite lookup_insert_eq. eauto.
Qed.

Lemma add_referral_effect_witness :
  let T := 1700000000000000 in
  let b := {| engine := two_player_state T; game_referrals := ∅ |} in
  invites_of 7 (add_referral_if_absent 7 8 T b) = invites_of 7 b + 1
  ∧ add_referral_if_absent (2 ^ 63) 8 T b = b.
Proof.
  intros T b.
  destruct (add_referral_effect 7 8 T b) as (_ & Hnew & _).
  destruct (add_referral_effect (2 ^ 63) 8 T b) as (Hskip & _).
  split.
  - destruct Hnew as (_ & _ & Hinv);
      [discriminate|lia|reflexivity|reflexivity|reflexivity|].
    rewrite Hinv. reflexivity.
  - apply Hskip. right. right. left. reflexivity.
Defined.

Lemma add_referral_balance (referrer referee now c : Z) (b : bot_state) :
  is_Some (users (engine b) !! c) →
  let b' := add_referral_if_absent referrer referee now b in
  is_Some (users (engine b') !! c)
  ∧ invites_of c b' - invites_of c b
    = Z.of_nat (referrals_of c b') - Z.of_nat (referrals_of c b).
Proof.
  intros Hrow. cbn zeta.
  destruct (add_referral_cases referrer referee now b)
    as [Hskip|(Hne & Hpos & Hr & He & Hnone)].
  - rewrite (add_referral_skip referrer referee now b Hskip).
    split; [done|lia].
  - rewrite (add_referral_new referrer referee now b Hne Hpos Hr He Hnone).
    split.
    + cbn [engine users set_users].
      destruct (decide (c = referrer)) as [->|Hc].
      * rewrite lookup_alter_eq. destruct Hrow as [u ->]. cbn. eauto.
      * by rewrite lookup_alter_ne.
    + rewrite invites_of_credit, referrals_of_insert by done.
      destruct (decide (c = referrer)) as [->|Hc].
      * rewrite decide_True by done. lia.
      * rewrite decide_False by tauto. lia.
Qed.

(** X21.  Invites match referrals.  Over any run of
    [add_referral_if_absent] calls, for every user who has a row in
    [users] when the run starts, the invites gained during the run equal
    the number of referral rows gained with that user as referrer: no
    referral is credited twice and none of them is missed. *)
Theorem invites_match_referrals (calls : list (Z * Z * Z)) (b : bot_state)
    (c : Z) :
  is_Some (users (engine b) !! c) →
  invites_of c (run_referrals calls b) - invites_of c b
  = Z.of_nat (referrals_of c (run_referrals calls b))
    - Z.of_nat (referrals_of c b).
Proof.
  revert b. induction calls as [|[[r e] t] calls IH]; intros b Hrow.
  - cbn. lia.
  - cbn [run_referrals foldl fst snd].
    change (foldl (λ b0 k, add_referral_if_absent k.1.1 k.1.2 k.2 b0)
              (add_referral_if_absent r e t b) calls)
      with (run_referrals calls (add_referral_if_absent r e t b)).
    destruct (add_referral_balance r e t c b Hrow) as [Hrow' Hstep].
    specialize (IH _ Hrow'). lia.
Qed.

Lemma invites_match_referrals_witness :
  let T := 1700000000000000 in
  let b := {| engine := two_player_state T; game_referrals := ∅ |} in
  invites_of 7 (run_referrals [(7, 8, T); (7, 8, T + 1); (7, 7, T); (7, 9, T)] b)
  - invites_of 7 b
  = 2.
Proof.
  intros T b.
  rewrite (invites_match_referrals
             [(7, 8, T); (7, 8, T + 1); (7, 7, T); (7, 9, T)] b 7).
  - vm_compute. reflexivity.
  - vm_compute. eauto.
Defined.

Lemma upsert_existing (c : Z) (name : option string) (now : Z) (st : state) :
  is_Some (users st !! c) → is_Some (game_users st !! c) →
  upsert_user_if_missing c name now st = st.
Proof.
  intros [u Hu] [g Hg]. unfold upsert_user_if_missing. by rewrite Hu, Hg.
Qed.

Lemma upsert_rows (c : Z) (name : option string) (now : Z) (st : state) :
  is_Some (users (upsert_user_if_missing c name now st) !! c)
  ∧ is_Some (game_users (upsert_user_if_missing c name now st) !! c).
Proof.
  unfold upsert_user_if_missing.
  destruct (users st !! c) as [u|] eqn:Hu;
    destruct (game_users st !! c) as [g|] eqn:Hg;
    cbn [users game_users set_users set_game_users];
    rewrite ?Hg; cbn [users game_users set_users set_game_users];
    rewrite ?lookup_insert_eq, ?Hu, ?Hg; eauto.
Qed.

Lemma add_referral_keeps (referrer referee now : Z) (b : bot_state) :
  let b' := add_referral_if_absent referrer referee now b in
  (∀ c, is_Some (users (engine b) !! c) → is_Some (users (engine b') !! c))
  ∧ game_users (engine b') = game_users (engine b)
  ∧ game_taps (engine b') = game_taps (engine b)
  ∧ (∀ k v, game_referrals b !! k = Some v → game_referrals b' !! k = Some v)
  ∧ (∀ k, is_Some (game_referrals b' !! k) →
       is_Some (game_referrals b !! k)
       ∨ (k = (referrer, referee) ∧ referrer ≠ referee ∧ 0 < referee)).
Proof.
  cbn zeta.
  destruct (add_referral_cases referrer referee now b)
    as [Hskip|(Hne & Hpos & Hr & He & Hnone)].
  - rewrite (add_referral_skip referrer referee now b Hskip).
    do 4 (split; [done|]). intros k Hk. by left.
  - rewrite (add_referral_new referrer referee now b Hne Hpos Hr He Hnone).
    cbn [engine game_referrals users game_users game_taps set_users].
    split; [|split; [done|split; [done|split]]].
    + intros c [u Hu]. destruct (decide (c = referrer)) as [->|Hc].
      * rewrite lookup_alter_eq, Hu. cbn. eauto.
      * rewrite lookup_alter_ne by done. eauto.
    + intros k v Hk. destruct (decide (k = (referrer, referee))) as [->|Hk'].
      * congruence.
      * by rewrite lookup_insert_ne.
    + intros k Hk. destruct (decide (k = (referrer, referee))) as [->|Hk'].
      * right. done.
      * left. by rewrite lookup_insert_ne in Hk.
Qed.

(** X22.  [cmd_start] makes sure the caller has an account and records at
    most one referral: a referral row it adds has the caller as referee, a
    different user as referrer, named by the first argument after the
    prefix "ref_", and a caller id above 0; so nobody can refer
    themselves.  It never removes or changes a referral row, never touches
    the tap log, and sending the same command again changes nothing. *)
Theorem cmd_start_effect (parse_int : string → option Z) (chat_id : Z)
    (uname : option string) (args : list string) (now : Z) (b : bot_state) :
  let b' := cmd_start parse_int chat_id uname args now b in
  is_Some (users (engine b') !! chat_id)
  ∧ is_Some (game_users (engine b') !! chat_id)
  ∧ game_taps (engine b') = game_taps (engine b)
  ∧ (∀ k v, game_referrals b !! k = Some v → game_referrals b' !! k = Some v)
  ∧ (∀ k, is_Some (game_referrals b' !! k) →
       is_Some (game_referrals b !! k)
       ∨ (k.2 = chat_id ∧ k.1 ≠ chat_id ∧ 0 < chat_id
          ∧ ∃ a rest, args = a :: rest ∧ String.prefix "ref_" a = true
                      ∧ parse_int (string_drop 4 a) = Some k.1))
  ∧ (∀ uname' now', cmd_start parse_int chat_id uname' args now' b' = b').
Proof.
  cbn zeta. unfold cmd_start.
  set (name := Some (default "" uname)).
  set (b0 := {| engine := upsert_user_if_missing chat_id name now (engine b);
                game_referrals := game_referrals b |}).
  destruct (upsert_rows chat_id name now (engine b)) as [Hu Hg].
  pose proof (upsert_keeps_local chat_id name now (engine b)) as (_ & _ & Ht).
  assert (Hb0 : ∀ uname' now',
            {| engine := upsert_user_if_missing chat_id
                           (Some (default "" uname')) now' (engine b0);
               game_referrals := game_referrals b0 |} = b0).
  { intros uname' now'. unfold b0. cbn [engine game_referrals].
    by rewrite upsert_existing. }
  assert (Hplain :
    is_Some (users (engine b0) !! chat_id)
    ∧ is_Some (game_users (engine b0) !! chat_id)
    ∧ game_taps (engine b0) = game_taps (engine b)
    ∧ (∀ k v, game_referrals b !! k = Some v → game_referrals b0 !! k = Some v)
    ∧ (∀ k, is_Some (game_referrals b0 !! k) →
         is_Some (game_referrals b !! k)
         ∨ (k.2 = chat_id ∧ k.1 ≠ chat_id ∧ 0 < chat_id
            ∧ ∃ a rest, args = a :: rest ∧ String.prefix "ref_" a = true
                        ∧ parse_int (string_drop 4 a) = Some k.1))).
  { unfold b0. cbn [engine game_referrals]. auto 10. }
  destruct args as [|a rest].
  { destruct Hplain as (? & ? & ? & ? & ?). do 5 (split; [done|]).
    intros uname' now'. apply Hb0. }
  destruct (String.prefix "ref_" a) eqn:Hpre.
  2: { destruct Hplain as (? & ? & ? & ? & ?). do 5 (split; [done|]).
       intros uname' now'. apply Hb0. }
  destruct (parse_int (string_drop 4 a)) as [referrer|] eqn:Hparse.
  2: { destruct Hplain as (? & ? & ? & ? & ?). do 5 (split; [done|]).
       intros uname' now'. apply Hb0. }
  destruct (add_referral_keeps referrer chat_id now b0)
    as (Hku & Hkg & Hkt & Hkr & Hnewr).
  set (b1 := add_referral_if_absent referrer chat_id now b0) in *.
  split; [by apply Hku|]. split; [by rewrite Hkg|].
  split; [by rewrite Hkt|]. split; [intros k v Hk; by apply Hkr|].
  split.
  - intros k Hk. destruct (Hnewr k Hk) as [Hold|(-> & Hne & Hpos)].
    + by left.
    + right. cbn [fst snd]. do 3 (split; [done|]). eauto.
  - intros uname' now'.
    assert (Hup : {| engine := upsert_user_if_missing chat_id
                                 (Some (default "" uname')) now' (engine b1);
                     game_referrals := game_referrals b1 |} = b1).
    { rewrite upsert_existing; [by destruct b1|by apply Hku|by rewrite Hkg]. }
    rewrite Hup. unfold b1.
    destruct (add_referral_cases referrer chat_id now b0)
      as [Hskip|(Hne & Hpos & Hr & He & Hnone)].
    + rewrite (add_referral_skip referrer chat_id now b0 Hskip).
      by apply add_referral_skip.
    + apply add_referral_skip. do 4 right.
      rewrite add_referral_new by done.
      cbn [game_referrals]. rewrite lookup_insert_eq. eauto.
Qed.

Lemma cmd_start_effect_witness :
  let T := 1700000000000000 in
  let b := {| engine := two_player_state T;
              game_referrals := {[ (7, 8) := 5 ]} |} in
  game_referrals
    (cmd_start (λ s, if bool_decide (s = "7") then Some 7 else None)
       8 (Some "bob") ["ref_7"] T b) !! (7, 8)
  = Some 5.
Proof.
  intros T b.
  destruct (cmd_start_effect
              (λ s, if bool_decide (s = "7") then Some 7 else None)
              8 (Some "bob") ["ref_7"] T b) as (_ & _ & _ & Hkeep & _).
  apply Hkeep. vm_compute. reflexivity.
Defined.

(** ** The profile command *)

(** X23.  [cmd_me] shows an account without storing anything: for an
    account that has a row the store is unchanged, so the energy it shows
    is not checkpointed, and the figures are those [api_state] reports for
    a registered caller at the same instant.  There is no registration
    gate: for an account without a row it creates the fresh account and
    shows 0 coins, energy 500 of 500 and streak 0. *)
Theorem cmd_me_view (c now : Z) (st : state) :
  (∀ row, game_users st !! c = Some row →
     (cmd_me c now st).2 = st
     ∧ (is_registered c st = true →
        let resp := (api_state (Some c) now st).1 in
        let '(coins, energy, cap, streak) := (cmd_me c now st).1 in
        r_coins resp = Some coins ∧ r_energy resp = Some energy
        ∧ r_max_energy resp = Some cap ∧ r_daily_streak resp = Some streak))
  ∧ (game_users st !! c = None →
     (cmd_me c now st).1 = (0, 500, 500, 0)
     ∧ game_users (cmd_me c now st).2 !! c = Some (new_game_user now)
     ∧ is_registered c (cmd_me c now st).2 = is_registered c st).
Proof.
  split.
  - intros row Hrow. unfold cmd_me.
    rewrite (get_game_user_existing c now st row Hrow).
    split; [by destruct (compute_energy now row)|].
    intros Hreg. rewrite (api_state_registered c now st row Hreg Hrow).
    cbn [fst]. by destruct (compute_energy now row).
  - intros Hnone. unfold cmd_me.
    pose proof (get_game_user_missing c now st Hnone) as Hnew.
    pose proof (get_game_user_row c now st) as Hrow.
    pose proof (get_game_user_keeps_registered c c now st) as Hreg.
    destruct (get_game_user c now st) as [gu st1]. cbn [fst snd] in *.
    subst gu. rewrite compute_energy_new. cbn [fst snd]. done.
Qed.

Lemma cmd_me_view_witness :
  let T := 1700000000000000 in
  (cmd_me 8 T (two_player_state T)).1 = (0, 500, 500, 0).
Proof.
  intros T.
  destruct (cmd_me_view 8 T (two_player_state T)) as [_ Hnew].
  apply Hnew. vm_compute. reflexivity.
Defined.

(** ** The database URL *)

Lemma prefix_app (p s t : string) :
  String.prefix p s = true → String.prefix p (s +:+ t) = true.
Proof.
  revert s. induction p as [|a p IH]; intros s.
  - by destruct s, t.
  - destruct s as [|b s]; [done|].
    change (String b s +:+ t) with (String b (s +:+ t)).
    cbn [String.prefix].
    destruct (ascii_dec a b); [apply IH|done].
Qed.

Lemma contains_app_l (p s t : string) :
  contains p s = true → contains p (s +:+ t) = true.
Proof.
  induction s as [|b s IH]; cbn [contains]; intros H.
  - rewrite orb_false_r in H. destruct p; [|done].
    by destruct t.
  - apply orb_true_iff in H as [H|H].
    + pose proof (prefix_app _ (String b s) t H) as Hp.
      change (String b s +:+ t) with (String b (s +:+ t)) in *.
      cbn [contains]. by rewrite Hp.
    + change (String b s +:+ t) with (String b (s +:+ t)).
      cbn [contains]. rewrite IH by done. apply orb_true_r.
Qed.

Lemma contains_app_r (p s t : string) :
  contains p t = true → contains p (s +:+ t) = true.
Proof.
  intros H. induction s as [|b s IH]; [done|].
  change (String b s +:+ t) with (String b (s +:+ t)).
  cbn [contains]. rewrite IH. apply orb_true_r.
Qed.

(** X24.  The URL that [_connect_postgres] connects to always carries an
    [sslmode] parameter and always begins with the URL it was given: a
    URL that already names an [sslmode] (whatever its value) is used as
    it is; otherwise [sslmode=require] is appended, after "&" when the
    URL has a query part and after "?" when it has none.  Applying the
    rule twice adds nothing more. *)
Theorem postgres_url_sslmode (url : string) :
  contains "sslmode=" (postgres_url url) = true
  ∧ (∃ suffix, postgres_url url = url +:+ suffix
               ∧ (suffix = "" ∨ suffix = "&sslmode=require"
                  ∨ suffix = "?sslmode=require"))
  ∧ (contains "sslmode=" url = true → postgres_url url = url)
  ∧ (contains "sslmode=" url = false →
       postgres_url url
       = url +:+ (if contains "?" url then "&" else "?") +:+ "sslmode=require")
  ∧ postgres_url (postgres_url url) = postgres_url url.
Proof.
  assert (Hhas : contains "sslmode=" (postgres_url url) = true).
  { unfold postgres_url. destruct (contains "sslmode=" url) eqn:Hc; cbn [negb].
    - done.
    - destruct (contains "?" url); by apply contains_app_r. }
  split; [done|]. split; [|split; [|split]].
  - unfold postgres_url. destruct (contains "sslmode=" url); cbn [negb].
    + exists "". split; [|by left].
      clear Hhas. induction url as [|a u IH]; [done|].
      change (String a u +:+ "") with (String a (u +:+ "")). by f_equal.
    + destruct (contains "?" url); eexists; (split; [reflexivity|]); auto.
  - intros Hc. unfold postgres_url. by rewrite Hc.
  - intros Hc. unfold postgres_url. rewrite Hc. cbn [negb].
    destruct (contains "?" url); [done|done].
  - unfold postgres_url at 1. by rewrite Hhas.
Qed.

Lemma postgres_url_sslmode_witness :
  postgres_url "postgres://u:p@h:5432/db?sslmode=disable"
  = "postgres://u:p@h:5432/db?sslmode=disable".
Proof.
  destruct (postgres_url_sslmode "postgres://u:p@h:5432/db?sslmode=disable")
    as (_ & _ & Hkeep & _).
  apply Hkeep. vm_compute. reflexivity.
Defined.
